(** * GitHub-Analyst-AI: the analysis pipeline, embedded and verified

    The repository is a set of small HTTP services written in Python:
    - [services/analytics-service/main.py]: asks a chat-completion endpoint
      for a JSON report and normalises the answer ([parse_ai_response],
      [analyze_with_ai]);
    - [services/github-service/main.py]: collects repository data and derives
      the metrics ([analyze_repository]);
    - [services/api-gateway/main.py]: sequences the three services
      ([call_service], [analyze_repository]);
    - [services/database-service/main.py]: stores one row per analysis
      ([save_statistics], [get_repo_history]).

    Python values are embedded as follows.  A [str] is a list of Unicode
    code points; a [float] is an IEEE-754 binary64 number ([spec_float]
    with 53 bits of precision); a [dict] is an association list in
    insertion order with unique keys; an exception raised by a function is
    the [Raise] case of its result. *)

From Stdlib Require Import List NArith ZArith Bool Lia String Ascii.
From Stdlib Require Import SpecFloat.
From Stdlib Require Import Permutation Sorted.
Import ListNotations.

Set Implicit Arguments.

(* ================================================================== *)
(** * Python values *)
(* ================================================================== *)

Module Py.

(** A Python [str]: a sequence of code points. *)
Definition str := list N.

Fixpoint str_eqb (a b : str) : bool :=
  match a, b with
  | [], [] => true
  | x :: a', y :: b' => (x =? y)%N && str_eqb a' b'
  | _, _ => false
  end.

(** String literals of this file are written in UTF-8; [utf8_decode]
    recovers the code points. *)
Fixpoint utf8_decode (bs : list N) : str :=
  match bs with
  | [] => []
  | b0 :: r0 =>
    if (b0 <? 128)%N then b0 :: utf8_decode r0
    else if (b0 <? 224)%N then
      match r0 with
      | b1 :: r1 => ((b0 - 192) * 64 + (b1 - 128))%N :: utf8_decode r1
      | _ => []
      end
    else if (b0 <? 240)%N then
      match r0 with
      | b1 :: b2 :: r2 =>
        ((b0 - 224) * 4096 + (b1 - 128) * 64 + (b2 - 128))%N :: utf8_decode r2
      | _ => []
      end
    else
      match r0 with
      | b1 :: b2 :: b3 :: r3 =>
        ((b0 - 240) * 262144 + (b1 - 128) * 4096 + (b2 - 128) * 64 + (b3 - 128))%N
          :: utf8_decode r3
      | _ => []
      end
  end.

Definition lit (s : string) : str :=
  utf8_decode (map N_of_ascii (list_ascii_of_string s)).

(** A literal in which every apostrophe stands for a double quote. *)
Definition qlit (s : string) : str :=
  map (fun c => if (c =? 39)%N then 34%N else c) (lit s).

(** The code point of an ASCII character. *)
Definition ch (a : ascii) : N := N_of_ascii a.

(** [s.startswith(p)], returning what follows the prefix. *)
Fixpoint strip_prefix (p s : str) : option str :=
  match p, s with
  | [], _ => Some s
  | a :: p', b :: s' => if (a =? b)%N then strip_prefix p' s' else None
  | _ :: _, [] => None
  end.

(** ** Exceptions *)

Inductive exn :=
| KeyError (key : str)
| TypeError (msg : str)
| AttributeError (msg : str)
| ValueError (msg : str)
| ZeroDivisionError
| OverflowError
| JSONDecodeError
| RecursionError (msg : str)
| RequestException (msg : str)
| HTTPException (status_code : Z) (detail : str).

Inductive result (A : Type) :=
| Return (a : A)
| Raise (e : exn).
Arguments Return {A} a.
Arguments Raise {A} e.

Definition bind {A B} (c : result A) (k : A -> result B) : result B :=
  match c with
  | Return a => k a
  | Raise e => Raise e
  end.

Declare Scope py_scope.
Delimit Scope py_scope with py.
Notation "x <- c ;; k" := (bind c (fun x => k))
  (at level 61, c at next level, right associativity) : py_scope.

(** [str(e)] for the exceptions of this development. *)
Definition exn_str (e : exn) : str :=
  match e with
  | KeyError key => [39%N] ++ key ++ [39%N]
  | TypeError msg => msg
  | AttributeError msg => msg
  | ValueError msg => msg
  | ZeroDivisionError => lit "division by zero"
  | OverflowError => lit "integer division result too large for a float"
  | JSONDecodeError => lit "Expecting value"
  | RecursionError msg => msg
  | RequestException msg => msg
  | HTTPException code detail => detail
  end.

(** [str(n)] for an [int]: its decimal digits.  The interpreter's limit
    on the number of digits is not modelled. *)
Fixpoint decimal_digits (fuel : nat) (n : Z) (acc : str) : str :=
  match fuel with
  | O => acc
  | S fuel' =>
    let acc' := Z.to_N (48 + n mod 10) :: acc in
    if (n / 10 =? 0)%Z then acc' else decimal_digits fuel' (n / 10) acc'
  end.

Definition str_of_int (n : Z) : str :=
  let digits m := decimal_digits (S (Z.to_nat (Z.log2 m))) m [] in
  if (n <? 0)%Z then 45%N :: digits (- n)%Z else digits n.

(** ** Floats: IEEE-754 binary64 *)

Definition float := spec_float.
Definition prec : Z := 53.
Definition emax : Z := 1024.

(** [float(n)] for an integer within range: rounding to nearest, ties to
    even. *)
Definition float_of_int (n : Z) : float :=
  binary_normalize prec emax n 0 false.

(** An integer as an unrounded binary number, operand of a correctly
    rounded division. *)
Definition exact_int (n : Z) : float :=
  match n with
  | Z0 => S754_zero false
  | Zpos p => S754_finite false p 0
  | Zneg p => S754_finite true p 0
  end.

(** [a / b] on two [int]s: the correctly rounded quotient;
    [ZeroDivisionError] for [b == 0], [OverflowError] when the quotient
    is too large for a float. *)
Definition int_truediv (a b : Z) : result float :=
  if (b =? 0)%Z then Raise ZeroDivisionError
  else
    match SFdiv prec emax (exact_int a) (exact_int b) with
    | S754_infinity _ => Raise OverflowError
    | q => Return q
    end.

(** [float(literal)] for the decimal [m * 10 ^ e]: the nearest float. *)
Definition float_of_decimal (neg : bool) (m e : Z) : float :=
  match m with
  | Zpos p =>
    match e with
    | Zneg q => SFdiv prec emax (S754_finite neg p 0) (S754_finite false (10 ^ q) 0)
    | _ => binary_round prec emax neg (Z.to_pos (Zpos p * 10 ^ e)) 0
    end
  | _ => S754_zero neg
  end.

Definition float_is_zero (x : float) : bool :=
  match x with
  | S754_zero _ => true
  | _ => false
  end.

Definition float_mul (x y : float) : float := SFmul prec emax x y.

(** [round(x, 2)] on a float: the exact binary value is rounded to the
    nearest multiple of 1/100 (ties to even) and that decimal is converted
    back to the nearest float. *)
Definition round_half_even_div (n d : Z) : Z :=
  let q := (n / d)%Z in
  let r := (n mod d)%Z in
  match (2 * r ?= d)%Z with
  | Lt => q
  | Gt => (q + 1)%Z
  | Eq => if Z.even q then q else (q + 1)%Z
  end.

Definition hundredths (m : positive) (e : Z) : Z :=
  match e with
  | Zneg p => round_half_even_div (Zpos m * 100) (2 ^ Zpos p)
  | _ => (Zpos m * 100 * 2 ^ e)%Z
  end.

Definition float_round2 (x : float) : float :=
  match x with
  | S754_finite s m e =>
    match hundredths m e with
    | Zpos n => SFdiv prec emax (S754_finite s n 0) (S754_finite false 100 0)
    | _ => S754_zero s
    end
  | _ => x
  end.

(** [float(n)] as Python evaluates it: too large an [int] raises. *)
Definition to_float (n : Z) : result float :=
  match float_of_int n with
  | S754_infinity _ => Raise OverflowError
  | x => Return x
  end.

(** [x / y] on floats: a zero divisor raises. *)
Definition float_truediv (x y : float) : result float :=
  if float_is_zero y then Raise ZeroDivisionError
  else Return (SFdiv prec emax x y).

(** ** Text operations of the normaliser *)

(** [str.isspace] of one character, as [str.strip()] uses it. *)
Definition is_space (c : N) : bool :=
  ((9 <=? c) && (c <=? 13) || (28 <=? c) && (c <=? 32)
   || (c =? 133) || (c =? 160) || (c =? 5760)
   || (8192 <=? c) && (c <=? 8202)
   || (c =? 8232) || (c =? 8233) || (c =? 8239) || (c =? 8287)
   || (c =? 12288))%N.

Fixpoint lstrip (s : str) : str :=
  match s with
  | [] => []
  | c :: s' => if is_space c then lstrip s' else s
  end.

Definition rstrip (s : str) : str := rev (lstrip (rev s)).

Definition strip (s : str) : str := rstrip (lstrip s).

Definition FENCE : str := Eval vm_compute in lit "```".
Definition FENCE_JSON : str := Eval vm_compute in lit "```json".

(** [re.sub(r'```json|```', '', text)]: at every position, from left to
    right, the first alternative that matches is deleted and the scan
    resumes after the match; other characters are kept.  [skip] counts the
    characters of the current match that are still to be deleted. *)
Fixpoint sub_fences_aux (skip : nat) (s : str) : str :=
  match s with
  | [] => []
  | c :: s' =>
    match skip with
    | S k => sub_fences_aux k s'
    | O =>
      match strip_prefix FENCE_JSON s with
      | Some _ => sub_fences_aux 6 s'
      | None =>
        match strip_prefix FENCE s with
        | Some _ => sub_fences_aux 2 s'
        | None => c :: sub_fences_aux 0 s'
        end
      end
    end
  end.

Definition sub_fences (text : str) : str := sub_fences_aux 0 text.

(** [re.search(r'\{.*\}', s, re.DOTALL)]: the span from the first opening
    brace to the last closing brace after it, when both exist. *)
Definition LBRACE : N := Eval vm_compute in ch "{".
Definition RBRACE : N := Eval vm_compute in ch "}".

Fixpoint drop_until (c : N) (s : str) : option str :=
  match s with
  | [] => None
  | x :: s' => if (x =? c)%N then Some s else drop_until c s'
  end.

(** The longest prefix of [s] that ends with [c]. *)
Fixpoint up_to_last (c : N) (s : str) : option str :=
  match s with
  | [] => None
  | x :: s' =>
    match up_to_last c s' with
    | Some p => Some (x :: p)
    | None => if (x =? c)%N then Some [x] else None
    end
  end.

Definition search_braces (s : str) : option str :=
  match drop_until LBRACE s with
  | Some (_ :: s') =>
    match up_to_last RBRACE s' with
    | Some p => Some (LBRACE :: p)
    | None => None
    end
  | _ => None
  end.

End Py.

(* ================================================================== *)
(** * JSON values and [json.loads] *)
(* ================================================================== *)

Module Json.
Import Py.

(** What [json.loads] returns and what the services exchange. *)
#[warnings="-register-all"]
Inductive json :=
| JNull
| JBool (b : bool)
| JInt (n : Z)
| JFloat (x : float)
| JString (s : str)
| JArray (items : list json)
| JObject (members : list (str * json)).

Definition dict := list (str * json).

(** [d.get(k)] on the members of a dict. *)
Fixpoint dict_get (k : str) (d : dict) : option json :=
  match d with
  | [] => None
  | (k', v) :: d' => if str_eqb k k' then Some v else dict_get k d'
  end.

(** [d[k] = v]: an existing key keeps its position, a new one is added
    last. *)
Fixpoint dict_set (k : str) (v : json) (d : dict) : dict :=
  match d with
  | [] => [(k, v)]
  | (k', v') :: d' =>
    if str_eqb k k' then (k', v) :: d' else (k', v') :: dict_set k v d'
  end.

(** [dict(pairs)]: later pairs overwrite earlier ones. *)
Definition dict_of_pairs (ps : list (str * json)) : dict :=
  fold_left (fun d kv => dict_set (fst kv) (snd kv) d) ps [].

(** [k in d]. *)
Definition dict_mem (k : str) (d : dict) : bool :=
  match dict_get k d with
  | Some _ => true
  | None => false
  end.

(** [d.get(k, default)]. *)
Definition dict_get_default (k : str) (dflt : json) (d : dict) : json :=
  match dict_get k d with
  | Some v => v
  | None => dflt
  end.

(** [isinstance(v, dict)] and [isinstance(v, list)]. *)
Definition is_dict (v : json) : bool :=
  match v with
  | JObject _ => true
  | _ => false
  end.

Definition is_list (v : json) : bool :=
  match v with
  | JArray _ => true
  | _ => false
  end.

(** [bool(v)]. *)
Definition truthy (v : json) : bool :=
  match v with
  | JNull => false
  | JBool b => b
  | JInt n => negb (n =? 0)%Z
  | JFloat x => negb (float_is_zero x)
  | JString s => match s with [] => false | _ => true end
  | JArray l => match l with [] => false | _ => true end
  | JObject d => match d with [] => false | _ => true end
  end.

(** [round(v, 2)] on a number: an [int] rounds to itself. *)
Definition round2 (v : json) : json :=
  match v with
  | JFloat x => JFloat (float_round2 x)
  | _ => v
  end.

(** ** The decoder

    [json.loads] of the standard library: strict strings; numbers made of
    an optional minus sign, an integer part without leading zeros, an
    optional fraction and an optional exponent; the constants [NaN],
    [Infinity] and [-Infinity]; whitespace limited to space, tab, line
    feed and carriage return.

    The decoder runs inside an interpreter with two limits.  Entering an
    array or an object is a recursive call, and the call that would pass
    the recursion limit raises [RecursionError]: [recursion_remaining] is
    the number of arrays and objects that the decoder can be inside of at
    once where it is called (the recursion limit less the calls already
    on the stack).  [int] refuses a literal of more than
    [sys.get_int_max_str_digits()] digits with [ValueError]
    ([int_max_str_digits]; [0] is no limit, and a literal of at most 640
    digits is never refused). *)
Record limits := {
  recursion_remaining : nat;
  int_max_str_digits : nat
}.

Definition is_json_ws (c : N) : bool :=
  ((c =? 32) || (c =? 9) || (c =? 10) || (c =? 13))%N.

Fixpoint skip_ws (s : str) : str :=
  match s with
  | [] => []
  | c :: s' => if is_json_ws c then skip_ws s' else s
  end.

Definition is_digit (c : N) : bool := ((48 <=? c) && (c <=? 57))%N.

Definition hex_value (c : N) : option N :=
  if is_digit c then Some (c - 48)%N
  else if ((97 <=? c) && (c <=? 102))%N then Some (c - 87)%N
  else if ((65 <=? c) && (c <=? 70))%N then Some (c - 55)%N
  else None.

(** [_decode_uXXXX]: four hexadecimal digits. *)
Definition hex4 (h1 h2 h3 h4 : N) : option N :=
  match hex_value h1, hex_value h2, hex_value h3, hex_value h4 with
  | Some a, Some b, Some c, Some d => Some (((a * 16 + b) * 16 + c) * 16 + d)%N
  | _, _, _, _ => None
  end.

(** The one-character escapes after a backslash. *)
Definition simple_escape (c : N) : option N :=
  if (c =? 34)%N then Some 34%N            (* quote *)
  else if (c =? 92)%N then Some 92%N       (* backslash *)
  else if (c =? 47)%N then Some 47%N       (* slash *)
  else if (c =? 98)%N then Some 8%N        (* b *)
  else if (c =? 102)%N then Some 12%N      (* f *)
  else if (c =? 110)%N then Some 10%N      (* n *)
  else if (c =? 114)%N then Some 13%N      (* r *)
  else if (c =? 116)%N then Some 9%N       (* t *)
  else None.

Definition is_high_surrogate (u : N) : bool := ((55296 <=? u) && (u <=? 56319))%N.
Definition is_low_surrogate (u : N) : bool := ((56320 <=? u) && (u <=? 57343))%N.

Definition join_surrogates (hi lo : N) : N :=
  (65536 + ((hi - 55296) * 1024 + (lo - 56320)))%N.

(** A decoded character of a string literal, and whether it was written
    as a [\uXXXX] escape. *)
Definition unit := (N * bool)%type.

Definition push (u : unit) (r : option (list unit * str)) : option (list unit * str) :=
  match r with
  | Some (body, rest) => Some (u :: body, rest)
  | None => None
  end.

(** The characters of a string literal, entered after the opening quote,
    and the text after the closing quote.  A control character, an unknown
    escape and a missing closing quote are errors. *)
Fixpoint scan_units (s : str) : option (list unit * str) :=
  match s with
  | [] => None
  | c :: s' =>
    if (c =? 34)%N then Some ([], s')
    else if (c =? 92)%N then
      match s' with
      | [] => None
      | e :: s'' =>
        if (e =? 117)%N then
          match s'' with
          | h1 :: h2 :: h3 :: h4 :: r =>
            match hex4 h1 h2 h3 h4 with
            | Some uni => push (uni, true) (scan_units r)
            | None => None
            end
          | _ => None
          end
        else
          match simple_escape e with
          | Some chr => push (chr, false) (scan_units s'')
          | None => None
          end
      end
    else if (c <? 32)%N then None
    else push (c, false) (scan_units s')
  end.

(** A high surrogate written as an escape and directly followed by a low
    surrogate written as an escape make one character. *)
Fixpoint join_pairs (us : list unit) : str :=
  match us with
  | [] => []
  | (hi, esc) :: rest =>
    match rest with
    | (lo, esc') :: rest' =>
      if esc && esc' && is_high_surrogate hi && is_low_surrogate lo
      then join_surrogates hi lo :: join_pairs rest'
      else hi :: join_pairs rest
    | [] => [hi]
    end
  end.

(** [py_scanstring], entered after the opening quote: the decoded string
    and the text after the closing quote. *)
Definition scanstring (s : str) : option (str * str) :=
  match scan_units s with
  | Some (us, rest) => Some (join_pairs us, rest)
  | None => None
  end.

(** ** Numbers *)

(** The longest run of decimal digits at the head of [s]. *)
Fixpoint span_digits (s : str) : str * str :=
  match s with
  | [] => ([], [])
  | c :: s' =>
    if is_digit c
    then let (ds, r) := span_digits s' in (c :: ds, r)
    else ([], s)
  end.

Definition digits_value (ds : str) : Z :=
  fold_left (fun acc c => (acc * 10 + (Z.of_N c - 48))%Z) ds 0%Z.

(** The integer part: a single zero, or a non-zero digit and more
    digits. *)
Definition scan_int_part (s : str) : option (str * str) :=
  match s with
  | [] => None
  | c :: s' =>
    if (c =? 48)%N then Some ([c], s')
    else if is_digit c then let (ds, r) := span_digits s' in Some (c :: ds, r)
    else None
  end.

(** The fraction: a dot and at least one digit. *)
Definition scan_frac (s : str) : option (str * str) :=
  match s with
  | [] => None
  | c :: s' =>
    if (c =? 46)%N then
      match span_digits s' with
      | ([], _) => None
      | (ds, r) => Some (ds, r)
      end
    else None
  end.

(** The exponent: [e] or [E], an optional sign, at least one digit. *)
Definition scan_sign (s : str) : bool * str :=
  match s with
  | [] => (false, s)
  | c :: s' =>
    if (c =? 45)%N then (true, s')
    else if (c =? 43)%N then (false, s')
    else (false, s)
  end.

Definition scan_exp (s : str) : option (Z * str) :=
  match s with
  | [] => None
  | c :: s1 =>
    if ((c =? 101) || (c =? 69))%N then
      let (neg, s2) := scan_sign s1 in
      match span_digits s2 with
      | ([], _) => None
      | (ds, r) => Some (if neg then (- digits_value ds)%Z else digits_value ds, r)
      end
    else None
  end.

Definition scan_minus (s : str) : bool * str :=
  match s with
  | [] => (false, s)
  | c :: s' => if (c =? 45)%N then (true, s') else (false, s)
  end.

Definition NULL : str := Eval vm_compute in lit "null".
Definition TRUE : str := Eval vm_compute in lit "true".
Definition FALSE : str := Eval vm_compute in lit "false".
Definition NAN : str := Eval vm_compute in lit "NaN".
Definition INFINITY : str := Eval vm_compute in lit "Infinity".
Definition NEG_INFINITY : str := Eval vm_compute in lit "-Infinity".

Definition MAX_STR_DIGITS_THRESHOLD : nat := 640.

Section Decoder.

Variable max_str_digits : nat.

(** Whether [int] refuses a literal with these digits. *)
Definition too_many_digits (ds : str) : bool :=
  ((MAX_STR_DIGITS_THRESHOLD <? List.length ds)
   && (0 <? max_str_digits) && (max_str_digits <? List.length ds))%nat.

(** [int(integer)] on the integer part that [NUMBER_RE] matched. *)
Definition int_of_digits (neg : bool) (ds : str) : result json :=
  if too_many_digits ds
  then Raise (ValueError
                (lit "Exceeds the limit (" ++ str_of_int (Z.of_nat max_str_digits)
                 ++ lit " digits) for integer string conversion: value has "
                 ++ str_of_int (Z.of_nat (List.length ds))
                 ++ lit " digits; use sys.set_int_max_str_digits() to increase the limit"))
  else Return (JInt (if neg then - digits_value ds else digits_value ds)%Z).

(** [NUMBER_RE.match] and the conversion of what it matched: an [int]
    when there is neither fraction nor exponent, otherwise a [float].
    The match comes with the value, or with the exception that the
    conversion raised. *)
Definition match_number (s : str) : option (result json * str) :=
  let (neg, s1) := scan_minus s in
  match scan_int_part s1 with
  | None => None
  | Some (ids, r1) =>
    match scan_frac r1 with
    | Some (fds, r2) =>
      match scan_exp r2 with
      | Some (e, r3) =>
        Some (Return (JFloat (float_of_decimal neg (digits_value (ids ++ fds))
                                (e - Z.of_nat (List.length fds)))), r3)
      | None =>
        Some (Return (JFloat (float_of_decimal neg (digits_value (ids ++ fds))
                                (- Z.of_nat (List.length fds)))), r2)
      end
    | None =>
      match scan_exp r1 with
      | Some (e, r3) =>
        Some (Return (JFloat (float_of_decimal neg (digits_value ids) e)), r3)
      | None => Some (int_of_digits neg ids, r1)
      end
    end
  end.

(** The scalar cases of [_scan_once], in the order it tries them: [None]
    when none of them matches. *)
Definition scan_scalar (s : str) : option (result json * str) :=
  match strip_prefix NULL s with
  | Some r => Some (Return JNull, r)
  | None =>
  match strip_prefix TRUE s with
  | Some r => Some (Return (JBool true), r)
  | None =>
  match strip_prefix FALSE s with
  | Some r => Some (Return (JBool false), r)
  | None =>
  match match_number s with
  | Some vr => Some vr
  | None =>
  match strip_prefix NAN s with
  | Some r => Some (Return (JFloat S754_nan), r)
  | None =>
  match strip_prefix INFINITY s with
  | Some r => Some (Return (JFloat (S754_infinity false)), r)
  | None =>
  match strip_prefix NEG_INFINITY s with
  | Some r => Some (Return (JFloat (S754_infinity true)), r)
  | None => None
  end end end end end end end.

Definition TOO_DEEP_OBJECT : str :=
  Eval vm_compute in
    lit "maximum recursion depth exceeded while decoding a JSON object from a unicode string".
Definition TOO_DEEP_ARRAY : str :=
  Eval vm_compute in
    lit "maximum recursion depth exceeded while decoding a JSON array from a unicode string".

(** ** Values

    [scan_once] is [_scan_once]; [scan_items] is the loop of [JSONArray],
    entered at an element; [scan_members] is the loop of [JSONObject],
    entered at the quote of a key.  [depth] is the number of arrays and
    objects that can still be entered, one inside the other.  One unit of
    [fuel] is spent at every call. *)
Fixpoint scan_once (depth fuel : nat) (s : str) {struct fuel} : result (json * str) :=
  match fuel with
  | O => Raise JSONDecodeError
  | S n =>
    match s with
    | [] => Raise JSONDecodeError
    | c :: s' =>
      if (c =? 34)%N then
        match scanstring s' with
        | Some (body, r) => Return (JString body, r)
        | None => Raise JSONDecodeError
        end
      else if (c =? 123)%N then
        match depth with
        | O => Raise (RecursionError TOO_DEEP_OBJECT)
        | S inner =>
          match skip_ws s' with
          | [] => Raise JSONDecodeError
          | d :: s'' =>
            if (d =? 125)%N then Return (JObject [], s'')
            else
              match scan_members inner n (d :: s'') with
              | Return (ms, r) => Return (JObject (dict_of_pairs ms), r)
              | Raise e => Raise e
              end
          end
        end
      else if (c =? 91)%N then
        match depth with
        | O => Raise (RecursionError TOO_DEEP_ARRAY)
        | S inner =>
          match skip_ws s' with
          | [] => Raise JSONDecodeError
          | d :: s'' =>
            if (d =? 93)%N then Return (JArray [], s'')
            else
              match scan_items inner n (d :: s'') with
              | Return (vs, r) => Return (JArray vs, r)
              | Raise e => Raise e
              end
          end
        end
      else
        match scan_scalar s with
        | Some (Return v, r) => Return (v, r)
        | Some (Raise e, _) => Raise e
        | None => Raise JSONDecodeError
        end
    end
  end

with scan_items (depth fuel : nat) (s : str) {struct fuel}
  : result (list json * str) :=
  match fuel with
  | O => Raise JSONDecodeError
  | S n =>
    match scan_once depth n s with
    | Raise e => Raise e
    | Return (v, r) =>
      match skip_ws r with
      | [] => Raise JSONDecodeError
      | d :: r' =>
        if (d =? 93)%N then Return ([v], r')
        else if (d =? 44)%N then
          match scan_items depth n (skip_ws r') with
          | Return (vs, r'') => Return (v :: vs, r'')
          | Raise e => Raise e
          end
        else Raise JSONDecodeError
      end
    end
  end

with scan_members (depth fuel : nat) (s : str) {struct fuel}
  : result (list (str * json) * str) :=
  match fuel with
  | O => Raise JSONDecodeError
  | S n =>
    match s with
    | [] => Raise JSONDecodeError
    | q :: s1 =>
      if (q =? 34)%N then
        match scanstring s1 with
        | None => Raise JSONDecodeError
        | Some (key, r1) =>
          match skip_ws r1 with
          | [] => Raise JSONDecodeError
          | colon :: r2 =>
            if (colon =? 58)%N then
              match scan_once depth n (skip_ws r2) with
              | Raise e => Raise e
              | Return (v, r3) =>
                match skip_ws r3 with
                | [] => Raise JSONDecodeError
                | d :: r4 =>
                  if (d =? 125)%N then Return ([(key, v)], r4)
                  else if (d =? 44)%N then
                    match scan_members depth n (skip_ws r4) with
                    | Return (ms, r5) => Return ((key, v) :: ms, r5)
                    | Raise e => Raise e
                    end
                  else Raise JSONDecodeError
                end
              end
            else Raise JSONDecodeError
          end
        end
      else Raise JSONDecodeError
    end
  end.

End Decoder.

(** [json.loads(s)]: leading whitespace, one value, trailing whitespace,
    end of text; a byte-order mark at the start is refused.  The fuel is
    enough for every text (see [loads_fuel_enough]). *)
Definition loads_fuel (s : str) : nat := S (2 * List.length s).

Definition starts_with_bom (s : str) : bool :=
  match s with
  | c :: _ => (c =? 65279)%N
  | [] => false
  end.

Definition json_loads (interpreter : limits) (s : str) : result json :=
  if starts_with_bom s then Raise JSONDecodeError
  else
    match scan_once (int_max_str_digits interpreter) (recursion_remaining interpreter)
            (loads_fuel s) (skip_ws s) with
    | Return (v, r) =>
      match skip_ws r with
      | [] => Return v
      | _ :: _ => Raise JSONDecodeError
      end
    | Raise e => Raise e
    end.

End Json.

(* ================================================================== *)
(** * services/analytics-service/main.py *)
(* ================================================================== *)

Module Analytics.
Import Py Json.
Local Open Scope py_scope.

Definition K_SUCCESS : str := Eval vm_compute in lit "success".
Definition K_ERROR : str := Eval vm_compute in lit "error".
Definition K_SUMMARY : str := Eval vm_compute in lit "summary".
Definition K_ANALYSIS : str := Eval vm_compute in lit "analysis".
Definition K_INSIGHTS : str := Eval vm_compute in lit "insights".
Definition K_RECOMMENDATIONS : str := Eval vm_compute in lit "recommendations".

(** The record [{"strengths": [], "weaknesses": [], "trends": [],
    "health_score": score}]. *)
Definition empty_insights (score : str) : json :=
  JObject [ (lit "strengths", JArray []);
            (lit "weaknesses", JArray []);
            (lit "trends", JArray []);
            (lit "health_score", JString score) ].

Definition DEFAULT_SUMMARY : str := Eval vm_compute in lit "Анализ завершен".
Definition DEFAULT_INSIGHTS : json := Eval vm_compute in empty_insights (lit "5").
Definition DEFAULT_RECOMMENDATIONS : json :=
  Eval vm_compute in JArray [JString (lit "Продолжайте мониторинг репозитория")].

(** [default_res] of [parse_ai_response]. *)
Definition default_res (text : str) : dict :=
  [ (K_SUMMARY, JString DEFAULT_SUMMARY);
    (K_ANALYSIS, JString text);
    (K_INSIGHTS, DEFAULT_INSIGHTS);
    (K_RECOMMENDATIONS, DEFAULT_RECOMMENDATIONS) ].

(** ["insights" not in data or not isinstance(data["insights"], dict)]. *)
Definition lacks (is_type : json -> bool) (k : str) (data : dict) : bool :=
  match dict_get k data with
  | Some v => negb (is_type v)
  | None => true
  end.

(** The two repairs applied to a decoded object. *)
Definition repair (data : dict) : dict :=
  let data1 :=
    if lacks is_dict K_INSIGHTS data
    then dict_set K_INSIGHTS DEFAULT_INSIGHTS data else data in
  if lacks is_list K_RECOMMENDATIONS data1
  then dict_set K_RECOMMENDATIONS DEFAULT_RECOMMENDATIONS data1 else data1.

(** [parse_ai_response(text)].  A value that is not a dict makes the
    membership test or the item assignment raise, and every exception
    raised inside the [try] returns [default_res]. *)
Definition parse_ai_response (interpreter : limits) (text : str) : dict :=
  let clean_text := strip (sub_fences text) in
  match search_braces clean_text with
  | Some json_str =>
    match json_loads interpreter json_str with
    | Return (JObject data) => repair data
    | Return _ => default_res text
    | Raise _ => default_res text
    end
  | None => default_res text
  end.

(** [generate_fallback_recommendations(data)]. *)
Definition generate_fallback_recommendations (data : dict) : json :=
  JArray [ JString (lit "Увеличьте частоту коммитов");
           JString (lit "Закройте устаревшие Issues") ].

Definition SUMMARY_NOT_CONFIGURED : str :=
  Eval vm_compute in lit "AI сервис не настроен".
Definition SUMMARY_ERROR : str :=
  Eval vm_compute in lit "Ошибка при генерации аналитики".

Record AnalyticsRequest := {
  repo_name : str;
  owner : str;
  activity_data : dict
}.

(** [d[k]] on a dict. *)
Definition getitem (k : str) (d : dict) : result json :=
  match dict_get k d with
  | Some v => Return v
  | None => Raise (KeyError k)
  end.

Definition type_name (v : json) : str :=
  match v with
  | JNull => lit "NoneType"
  | JBool _ => lit "bool"
  | JInt _ => lit "int"
  | JFloat _ => lit "float"
  | JString _ => lit "str"
  | JArray _ => lit "list"
  | JObject _ => lit "dict"
  end.

(** [v.get(k, default)] on any value: only a dict has [get]. *)
Definition obj_get (v : json) (k : str) (dflt : json) : result json :=
  match v with
  | JObject d => Return (dict_get_default k dflt d)
  | _ => Raise (AttributeError
                  (lit "'" ++ type_name v ++ lit "' object has no attribute 'get'"))
  end.

Section Service.

(** The environment of the service: the configured key, the formatting of
    a value inside an f-string, [json.dumps], the HTTP exchange with the
    completion endpoint ([call_mistral_api] returns the text of the first
    choice or raises), and the limits of the interpreter where
    [json.loads] is called. *)
Variable MISTRAL_API_KEY : str.
Variable py_str : json -> str.
Variable json_dumps : json -> str.
Variable call_mistral_api : str -> result str.
Variable interpreter : limits.

(** [generate_fallback_analysis(data)]. *)
Definition generate_fallback_analysis (data : dict) : str :=
  lit "Проект " ++ py_str (dict_get_default (lit "repo_name") JNull data)
  ++ lit " показывает индекс активности "
  ++ py_str (dict_get_default (lit "activity_index") (JInt 0) data)
  ++ lit "%.".

(** [prepare_activity_summary(data)]. *)
Definition prepare_activity_summary (data : dict) : result str :=
  let repo_info := dict_get_default (lit "repo_info") (JObject []) data in
  let commit_stats := dict_get_default (lit "commit_stats") (JObject []) data in
  let dget k := dict_get_default k JNull data in
  let sub k := dict_get_default k (JObject []) data in
  full_name <- obj_get repo_info (lit "full_name") JNull ;;
  stars <- obj_get repo_info (lit "stargazers_count") JNull ;;
  total_commits <- obj_get commit_stats (lit "total_commits") JNull ;;
  languages <- obj_get (sub (lit "language_stats")) (lit "languages") (JObject []) ;;
  open_issues <- obj_get (sub (lit "issue_stats")) (lit "open_issues") JNull ;;
  closed_issues <- obj_get (sub (lit "issue_stats")) (lit "closed_issues") JNull ;;
  open_prs <- obj_get (sub (lit "pr_stats")) (lit "open_prs") JNull ;;
  merged_prs <- obj_get (sub (lit "pr_stats")) (lit "merged_prs") JNull ;;
  Return (strip (
    lit "
    Repo: " ++ py_str full_name ++ lit " | Stars: " ++ py_str stars ++ lit "
    Period: " ++ py_str (dget (lit "analysis_period_days"))
    ++ lit " days | Total Commits: " ++ py_str total_commits ++ lit "
    Activity Index: " ++ py_str (dget (lit "activity_index"))
    ++ lit "% | Authors: " ++ py_str (dget (lit "total_contributors")) ++ lit "
    Languages: " ++ json_dumps languages ++ lit "
    Issues O/C: " ++ py_str open_issues ++ lit "/" ++ py_str closed_issues ++ lit "
    PRs O/M: " ++ py_str open_prs ++ lit "/" ++ py_str merged_prs ++ lit "
    ")).

(** [create_analysis_prompt(owner, repo_name, activity_summary)]. *)
Definition create_analysis_prompt (owner repo_name activity_summary : str) : str :=
  lit "Ты - эксперт-аналитик Open Source проектов. Проанализируй данные репозитория "
  ++ owner ++ lit "/" ++ repo_name ++ lit ":
" ++ activity_summary ++ qlit "

ЗАДАЧА: Сформируй глубокий технический отчет.
ТРЕБОВАНИЯ К ФОРМАТУ:
1. Ответ должен быть СТРОГО в формате JSON.
2. НИКАКОГО лишнего текста, пояснений или markdown-тегов ```json в ответе.
3. Все переносы строк внутри текстовых полей должны быть экранированы как \n.

СТРУКТУРА JSON (отправь только её):
{
    'summary': 'Краткое резюме (2-3 предложения)',
    'analysis': 'Детальный текст разбора (не менее 4 абзацев). Обсуди динамику коммитов, работу с Issues и PR, и стек технологий.',
    'insights': {
        'strengths': ['список', 'сильных', 'сторон'],
        'weaknesses': ['список', 'проблем'],
        'trends': ['направления', 'развития'],
        'health_score': 'число от 1 до 10'
    },
    'recommendations': ['Конкретный совет 1', 'Конкретный совет 2', 'Конкретный совет 3']
}
".

(** The body of the [try] in [analyze_with_ai]. *)
Definition analyze_try (request : AnalyticsRequest) : result dict :=
  activity_summary <- prepare_activity_summary (activity_data request) ;;
  let prompt :=
    create_analysis_prompt (owner request) (repo_name request) activity_summary in
  ai_response_text <- call_mistral_api prompt ;;
  let analysis_result := parse_ai_response interpreter ai_response_text in
  analysis <- getitem K_ANALYSIS analysis_result ;;
  recommendations <- getitem K_RECOMMENDATIONS analysis_result ;;
  insights <- getitem K_INSIGHTS analysis_result ;;
  summary <- getitem K_SUMMARY analysis_result ;;
  Return [ (K_SUCCESS, JBool true);
           (K_ANALYSIS, analysis);
           (K_RECOMMENDATIONS, recommendations);
           (K_INSIGHTS, insights);
           (K_SUMMARY, summary) ].

(** [analyze_with_ai(request)], the handler of [POST /analyze]: the
    returned dict. *)
Definition analyze_with_ai (request : AnalyticsRequest) : dict :=
  match MISTRAL_API_KEY with
  | [] =>
    [ (K_SUCCESS, JBool false);
      (K_ERROR, JString (lit "Mistral API key not configured"));
      (K_ANALYSIS, JString (generate_fallback_analysis (activity_data request)));
      (K_RECOMMENDATIONS, generate_fallback_recommendations (activity_data request));
      (K_INSIGHTS, empty_insights (lit "N/A"));
      (K_SUMMARY, JString SUMMARY_NOT_CONFIGURED) ]
  | _ :: _ =>
    match analyze_try request with
    | Return response => response
    | Raise e =>
      [ (K_SUCCESS, JBool false);
        (K_ERROR, JString (exn_str e));
        (K_ANALYSIS, JString (generate_fallback_analysis (activity_data request)));
        (K_RECOMMENDATIONS, generate_fallback_recommendations (activity_data request));
        (K_INSIGHTS, empty_insights (lit "0"));
        (K_SUMMARY, JString SUMMARY_ERROR) ]
    end
  end.

(** The request model [AnalyticsRequest] applied to a JSON body: two
    strings and a dict. *)
Definition parse_request (body : json) : option AnalyticsRequest :=
  match body with
  | JObject d =>
    match dict_get (lit "repo_name") d, dict_get (lit "owner") d,
          dict_get (lit "activity_data") d with
    | Some (JString r), Some (JString o), Some (JObject a) =>
      Some {| repo_name := r; owner := o; activity_data := a |}
    | _, _, _ => None
    end
  | _ => None
  end.

End Service.

End Analytics.

(* ================================================================== *)
(** * services/github-service/main.py *)
(* ================================================================== *)

Module GithubService.
Import Py Json.
Local Open Scope py_scope.
Local Open Scope Z_scope.

(** A [datetime]: microseconds since the epoch in UTC, and whether the
    value carries a time zone. *)
Record datetime := {
  instant : Z;
  aware : bool
}.

Definition MICROSECONDS_PER_DAY : Z := 86400000000.

(** [(end_date - start_date).days]: the difference in whole days, rounded
    down; a naive and an aware value cannot be subtracted. *)
Definition delta_days (end_date start_date : datetime) : result Z :=
  if Bool.eqb (aware end_date) (aware start_date)
  then Return ((instant end_date - instant start_date) / MICROSECONDS_PER_DAY)
  else Raise (TypeError (lit "can't subtract offset-naive and offset-aware datetimes")).

(** [days = (end_date - start_date).days + 1]. *)
Definition analysis_period (end_date start_date : datetime) : result Z :=
  whole <- delta_days end_date start_date ;;
  Return (whole + 1).

(** [s.replace('Z', '+00:00')]. *)
Definition replace_Z (s : str) : str :=
  flat_map (fun c => if (c =? 90)%N then lit "+00:00" else [c]) s.

(** [commits_data['total_commits'] / days if days > 0 else 0]. *)
Definition avg_commits_per_day (total_commits days : Z) : result json :=
  if days >? 0
  then q <- int_truediv total_commits days ;; Return (JFloat q)
  else Return (JInt 0).

(** [x > 0] and [n / x] for a decoded number. *)
Definition greater_than_zero (v : json) : result bool :=
  match v with
  | JInt n => Return (n >? 0)
  | JBool b => Return b
  | JFloat x => Return (SFltb (S754_zero false) x)
  | _ => Raise (TypeError (lit "'>' not supported between instances"))
  end.

Definition truediv (n : Z) (v : json) : result float :=
  match v with
  | JInt d => int_truediv n d
  | JBool b => int_truediv n (if b then 1 else 0)
  | JFloat y => x <- to_float n ;; float_truediv x y
  | _ => Raise (TypeError (lit "unsupported operand type(s) for /"))
  end.

(** Lines 182-183: the guarded divisor and the index. *)
Definition activity_index (total_commits : Z) (subscribers_count : json)
  : result float :=
  positive <- greater_than_zero subscribers_count ;;
  let subscribers := if positive then subscribers_count else JInt 1 in
  q <- truediv total_commits subscribers ;;
  Return (float_mul q (float_of_int 100)).

Record AnalysisRequest := {
  owner : str;
  repo_name : str;
  start_date : str;
  end_date : str
}.

(** What [fetch_commits] and [fetch_contributors] return. *)
Record commits_data := {
  total_commits : Z;
  commits_by_author : json;
  commits_by_day : json;
  most_active_day : json;
  most_active_author : json
}.

Record contributors_data := {
  contributors : json;
  total_contributors : Z
}.

Section Service.

(** The library and the upstream API: [datetime.fromisoformat], and the
    functions of this service that query the GitHub REST API. *)
Variable fromisoformat : str -> result datetime.
Variable get_repo_info : str -> str -> result dict.
Variable fetch_commits : str -> str -> str -> result commits_data.
Variable fetch_contributors : str -> str -> result contributors_data.
Variable fetch_issues : str -> str -> str -> json.
Variable fetch_pull_requests : str -> str -> str -> json.
Variable fetch_languages : str -> str -> json.

Definition getitem (k : str) (d : json) : result json :=
  match d with
  | JObject m =>
    match dict_get k m with
    | Some v => Return v
    | None => Raise (KeyError k)
    end
  | _ => Raise (TypeError (lit "object is not subscriptable"))
  end.

(** The body of the [try] in [analyze_repository]. *)
Definition analyze_try (request : AnalysisRequest) : result dict :=
  start <- fromisoformat (replace_Z (start_date request)) ;;
  finish <- fromisoformat (replace_Z (end_date request)) ;;
  days <- analysis_period finish start ;;
  repo_info_response <- get_repo_info (owner request) (repo_name request) ;;
  repo_info <- getitem (lit "repo_info") (JObject repo_info_response) ;;
  commits <- fetch_commits (owner request) (repo_name request) (start_date request) ;;
  contributors_found <- fetch_contributors (owner request) (repo_name request) ;;
  let issues_data := fetch_issues (owner request) (repo_name request) (start_date request) in
  let prs_data := fetch_pull_requests (owner request) (repo_name request) (start_date request) in
  let languages_data := fetch_languages (owner request) (repo_name request) in
  avg <- avg_commits_per_day (total_commits commits) days ;;
  subscribers_count <- getitem (lit "subscribers_count") repo_info ;;
  index <- activity_index (total_commits commits) subscribers_count ;;
  Return [ (lit "success", JBool true);
           (lit "repo_info", repo_info);
           (lit "commit_stats", JObject [
              (lit "total_commits", JInt (total_commits commits));
              (lit "commits_by_author", commits_by_author commits);
              (lit "commits_by_day", commits_by_day commits);
              (lit "average_commits_per_day", round2 avg);
              (lit "most_active_day", most_active_day commits);
              (lit "most_active_author", most_active_author commits) ]);
           (lit "contributors", contributors contributors_found);
           (lit "total_contributors", JInt (total_contributors contributors_found));
           (lit "issue_stats", issues_data);
           (lit "pr_stats", prs_data);
           (lit "language_stats", languages_data);
           (lit "analysis_period_days", JInt days);
           (lit "activity_index", round2 (JFloat index));
           (lit "start_date", JString (start_date request));
           (lit "end_date", JString (end_date request)) ].

(** [analyze_repository(request)], the handler of [POST /analyze]: an
    [HTTPException] passes through, any other exception becomes a 500. *)
Definition analyze_repository (request : AnalysisRequest) : result dict :=
  match analyze_try request with
  | Return r => Return r
  | Raise (HTTPException code detail) => Raise (HTTPException code detail)
  | Raise e => Raise (HTTPException 500 (lit "Analysis failed: " ++ exn_str e))
  end.

End Service.

End GithubService.

(* ================================================================== *)
(** * services/github-service/main.py: the requests to the GitHub API *)
(* ================================================================== *)

Module GithubApi.
Import Py Json.
Local Open Scope py_scope.
Local Open Scope Z_scope.

(** ** Python operations on decoded values *)

(** The items that [for x in v] visits: the items of a list, the keys of a
    dict, the characters of a string. *)
Definition iterate (v : json) : result (list json) :=
  match v with
  | JArray items => Return items
  | JObject d => Return (map (fun kv => JString (fst kv)) d)
  | JString s => Return (map (fun c => JString [c]) s)
  | _ => Raise (TypeError
                  (lit "'" ++ Analytics.type_name v ++ lit "' object is not iterable"))
  end.

(** [len(v)]. *)
Definition py_len (v : json) : result Z :=
  match v with
  | JArray items => Return (Z.of_nat (List.length items))
  | JObject d => Return (Z.of_nat (List.length d))
  | JString s => Return (Z.of_nat (List.length s))
  | _ => Raise (TypeError
                  (lit "object of type '" ++ Analytics.type_name v ++ lit "' has no len()"))
  end.

(** A [for] loop whose body may raise. *)
Fixpoint for_each {S X : Type} (body : S -> X -> result S) (st : S) (xs : list X)
  : result S :=
  match xs with
  | [] => Return st
  | x :: xs' => st' <- body st x ;; for_each body st' xs'
  end.

(** What a [try] block comes to when its [except Exception] discards the
    exception. *)
Definition attempt {A : Type} (r : result A) : option A :=
  match r with
  | Return a => Some a
  | Raise _ => None
  end.

(** An [int] or a [bool] as an integer. *)
Definition as_int (v : json) : option Z :=
  match v with
  | JInt n => Some n
  | JBool b => Some (if b then 1 else 0)
  | _ => None
  end.

Definition is_number (v : json) : bool :=
  match v with
  | JInt _ | JBool _ | JFloat _ => true
  | _ => false
  end.

(** The exact comparison of a float with an integer. *)
Definition float_compare_int (x : float) (n : Z) : option comparison :=
  match x with
  | S754_nan => None
  | S754_infinity neg => Some (if neg then Lt else Gt)
  | S754_zero _ => Some (0 ?= n)
  | S754_finite neg m e =>
    let v := if neg then Zneg m else Zpos m in
    match e with
    | Zneg p => Some (v ?= n * 2 ^ Zpos p)
    | _ => Some (v * 2 ^ e ?= n)
    end
  end.

(** The comparison of two numbers; [None] when one of them is not a number
    or is NaN. *)
Definition num_compare (a b : json) : option comparison :=
  match a, b with
  | JFloat x, JFloat y => SFcompare x y
  | JFloat x, _ =>
    match as_int b with
    | Some n => float_compare_int x n
    | None => None
    end
  | _, JFloat y =>
    match as_int a with
    | Some n => option_map CompOpp (float_compare_int y n)
    | None => None
    end
  | _, _ =>
    match as_int a, as_int b with
    | Some m, Some n => Some (m ?= n)
    | _, _ => None
    end
  end.

(** [a > b] on two numbers. *)
Definition num_gt (a b : json) : bool :=
  match num_compare a b with
  | Some Gt => true
  | _ => false
  end.

(** Whether a value can be the key of a dict. *)
Definition hashable (k : json) : bool :=
  match k with
  | JArray _ | JObject _ => false
  | _ => true
  end.

(** Whether two keys are the same key of a dict: equal strings, [None]
    twice, numbers of equal value ([True], [1] and [1.0] are one key), or
    NaN twice (the decoder returns one NaN object). *)
Definition key_eqb (a b : json) : bool :=
  match a, b with
  | JNull, JNull => true
  | JString x, JString y => str_eqb x y
  | JFloat S754_nan, JFloat S754_nan => true
  | _, _ =>
    match num_compare a b with
    | Some Eq => true
    | _ => false
    end
  end.

(** [d[k] += 1] on a [defaultdict(int)] kept in insertion order. *)
Fixpoint increment {K : Type} (eqb : K -> K -> bool) (k : K) (d : list (K * Z))
  : list (K * Z) :=
  match d with
  | [] => [(k, 1)]
  | (k', n) :: rest =>
    if eqb k' k then (k', n + 1) :: rest else (k', n) :: increment eqb k rest
  end.

(** [d[k] += 1] for a decoded key: a list or a dict cannot be a key. *)
Definition count_key (k : json) (d : list (json * Z)) : result (list (json * Z)) :=
  if hashable k then Return (increment key_eqb k d)
  else Raise (TypeError (lit "unhashable type: '" ++ Analytics.type_name k ++ lit "'")).

(** [max(d.items(), key=lambda x: x[1])[0] if d else None]: the first key
    with the largest count. *)
Fixpoint max_item {K : Type} (best : K * Z) (items : list (K * Z)) : K * Z :=
  match items with
  | [] => best
  | item :: rest =>
    if snd item >? snd best then max_item item rest else max_item best rest
  end.

Definition most_active {K : Type} (value : K -> json) (d : list (K * Z)) : json :=
  match d with
  | [] => JNull
  | item :: rest => value (fst (max_item item rest))
  end.

(** ** The requests *)

(** One call of [make_github_request]: the endpoint and the query
    parameters. *)
Record request := {
  endpoint : str;
  params : option dict
}.

Definition repo_endpoint (owner repo_name suffix : str) : str :=
  lit "repos/" ++ owner ++ lit "/" ++ repo_name ++ suffix.

(** What [fetch_commits] returns. *)
Record commit_counts := {
  total_commits : Z;
  commits_by_author : list (json * Z);
  commits_by_day : list (str * Z);
  most_active_day : json;
  most_active_author : json
}.

(** The counters of the loop of [fetch_commits]. *)
Record counters := {
  total : Z;
  by_author : list (json * Z);
  by_day : list (str * Z)
}.

(** What [fetch_issues] and [fetch_pull_requests] count. *)
Record issue_counts := {
  total_issues : Z;
  open_issues : Z;
  closed_issues : Z;
  issues_by_label : list (json * Z)
}.

Record pr_counts := {
  total_prs : Z;
  open_prs : Z;
  closed_prs : Z;
  merged_prs : Z
}.

(** [commit.get('commit', {}).get('author', {}).get(k, default)]. *)
Definition author_field (commit : json) (k : str) (dflt : json) : result json :=
  c <- Analytics.obj_get commit (lit "commit") (JObject []) ;;
  a <- Analytics.obj_get c (lit "author") (JObject []) ;;
  Analytics.obj_get a k dflt.

(** [s.split('T')[0]]: the text before the first [T]. *)
Fixpoint before_T (s : str) : str :=
  match s with
  | [] => []
  | c :: s' => if (c =? 84)%N then [] else c :: before_T s'
  end.

(** The day counted for a commit: none when the date is falsy; only a
    string has [split]. *)
Definition day_of (date_str : json) : result (option str) :=
  if truthy date_str
  then
    match date_str with
    | JString s => Return (Some (before_T s))
    | _ => Raise (AttributeError
                    (lit "'" ++ Analytics.type_name date_str
                     ++ lit "' object has no attribute 'split'"))
    end
  else Return None.

(** The body of [for commit in commits]. *)
Definition count_commit (st : counters) (commit : json) : result counters :=
  author <- author_field commit (lit "name") (JString (lit "Unknown")) ;;
  authors <- count_key author (by_author st) ;;
  date_str <- author_field commit (lit "date") (JString []) ;;
  day <- day_of date_str ;;
  Return {| total := total st + 1;
            by_author := authors;
            by_day := match day with
                      | Some d => increment str_eqb d (by_day st)
                      | None => by_day st
                      end |}.

Definition commits_request (owner repo_name since_date : str) (page : Z) : request :=
  {| endpoint := repo_endpoint owner repo_name (lit "/commits");
     params := Some [ (lit "since", JString since_date);
                      (lit "per_page", JInt 100);
                      (lit "page", JInt page) ] |}.

(** [v['key']] for a value that is a dict. *)
Definition dict_item (k : str) (d : dict) : result json :=
  match dict_get k d with
  | Some v => Return v
  | None => Raise (KeyError k)
  end.

(** ['pull_request' in issue]: a key of a dict, an item of a list, a part
    of a string. *)
Fixpoint is_substring (p s : str) : bool :=
  match strip_prefix p s with
  | Some _ => true
  | None =>
    match s with
    | [] => false
    | _ :: s' => is_substring p s'
    end
  end.

Definition is_string (k : str) (v : json) : bool :=
  match v with
  | JString s => str_eqb s k
  | _ => false
  end.

Definition contains (k : str) (v : json) : result bool :=
  match v with
  | JObject d => Return (dict_mem k d)
  | JArray items => Return (existsb (is_string k) items)
  | JString s => Return (is_substring k s)
  | _ => Raise (TypeError
                  (lit "argument of type '" ++ Analytics.type_name v
                   ++ lit "' is not iterable"))
  end.

(** The sum of integers and booleans; [None] when another value occurs. *)
Fixpoint int_sum (vs : list json) : option Z :=
  match vs with
  | [] => Some 0
  | v :: vs' =>
    match as_int v, int_sum vs' with
    | Some n, Some m => Some (n + m)
    | _, _ => None
    end
  end.

Section Service.

(** The upstream API and the interpreter: what [make_github_request]
    returns or raises for an endpoint and its parameters; the exception
    of [v['key']] on a value that is not a dict and of [d[:50]] on a dict
    (their types and messages depend on the version of the interpreter);
    and [sum] over numbers of which one at least is a float ([None] when
    it raises; its rounding depends on the version). *)
Variable github : str -> option dict -> result json.
Variable subscript_error : json -> exn.
Variable dict_slice_error : exn.
Variable float_sum : list json -> option json.

(** [v[k]] for a string [k]. *)
Definition subscript (v : json) (k : str) : result json :=
  match v with
  | JObject d => dict_item k d
  | _ => Raise (subscript_error v)
  end.

(** The loop of [fetch_commits], with the requests made so far: at most
    [remaining] more pages are requested, starting with [page]. *)
Fixpoint fetch_pages (owner repo_name since_date : str) (remaining : nat) (page : Z)
  (st : counters) (log : list request) : result counters * list request :=
  match remaining with
  | O => (Return st, log)
  | S remaining' =>
    let req := commits_request owner repo_name since_date page in
    let log' := log ++ [req] in
    match github (endpoint req) (params req) with
    | Raise e => (Raise e, log')
    | Return commits =>
      if negb (truthy commits) then (Return st, log')
      else
        match (items <- iterate commits ;;
               st' <- for_each count_commit st items ;;
               n <- py_len commits ;;
               Return (st', n)) with
        | Raise e => (Raise e, log')
        | Return (st', n) =>
          if n <? 100 then (Return st', log')
          else fetch_pages owner repo_name since_date remaining' (page + 1) st' log'
        end
    end
  end.

(** [fetch_commits(owner, repo_name, since_date)], with the requests it
    made: pages are requested from 1 while [page <= max_pages]. *)
Definition fetch_commits (owner repo_name since_date : str)
  : result commit_counts * list request :=
  match fetch_pages owner repo_name since_date 10 1
          {| total := 0; by_author := []; by_day := [] |} [] with
  | (Return st, log) =>
    (Return {| total_commits := total st;
               commits_by_author := by_author st;
               commits_by_day := by_day st;
               most_active_day := most_active JString (by_day st);
               most_active_author := most_active (fun author => author) (by_author st) |},
     log)
  | (Raise e, log) => (Raise e, log)
  end.

(** [contributors_list[:50]], as the list that the loop visits. *)
Definition first_fifty (v : json) : result (list json) :=
  match v with
  | JArray items => Return (firstn 50 items)
  | JString s => Return (map (fun c => JString [c]) (firstn 50 s))
  | JObject _ => Raise dict_slice_error
  | _ => Raise (TypeError
                  (lit "'" ++ Analytics.type_name v ++ lit "' object is not subscriptable"))
  end.

Definition contributor_entry (contributor : json) : result json :=
  login <- Analytics.obj_get contributor (lit "login") JNull ;;
  contributions <- Analytics.obj_get contributor (lit "contributions") (JInt 0) ;;
  avatar_url <- Analytics.obj_get contributor (lit "avatar_url") JNull ;;
  html_url <- Analytics.obj_get contributor (lit "html_url") JNull ;;
  Return (JObject [ (lit "login", login);
                    (lit "contributions", contributions);
                    (lit "avatar_url", avatar_url);
                    (lit "html_url", html_url) ]).

(** [fetch_contributors(owner, repo_name)]. *)
Definition fetch_contributors (owner repo_name : str)
  : result GithubService.contributors_data :=
  contributors_list <- github (repo_endpoint owner repo_name (lit "/contributors")) None ;;
  shown <- first_fifty contributors_list ;;
  contributors <- for_each (fun acc contributor =>
                              entry <- contributor_entry contributor ;;
                              Return (acc ++ [entry])) [] shown ;;
  n <- py_len contributors_list ;;
  Return {| GithubService.contributors := JArray contributors;
            GithubService.total_contributors := n |}.

(** The body of [for issue in issues]. *)
Definition count_label (d : list (json * Z)) (label : json) : result (list (json * Z)) :=
  name <- subscript label (lit "name") ;;
  count_key name d.

Definition count_issue (st : issue_counts) (issue : json) : result issue_counts :=
  is_pr <- contains (lit "pull_request") issue ;;
  if is_pr then Return st
  else
    state <- subscript issue (lit "state") ;;
    let is_open := is_string (lit "open") state in
    labels <- Analytics.obj_get issue (lit "labels") (JArray []) ;;
    label_items <- iterate labels ;;
    counted <- for_each count_label (issues_by_label st) label_items ;;
    Return {| total_issues := total_issues st + 1;
              open_issues := if is_open then open_issues st + 1 else open_issues st;
              closed_issues := if is_open then closed_issues st else closed_issues st + 1;
              issues_by_label := counted |}.

Definition no_issues : issue_counts :=
  {| total_issues := 0; open_issues := 0; closed_issues := 0; issues_by_label := [] |}.

(** [fetch_issues(owner, repo_name, since_date)]: every exception gives
    the empty statistics. *)
Definition fetch_issues (owner repo_name since_date : str) : issue_counts :=
  match attempt
          (issues <- github (repo_endpoint owner repo_name (lit "/issues"))
                       (Some [ (lit "state", JString (lit "all"));
                               (lit "since", JString since_date);
                               (lit "per_page", JInt 100) ]) ;;
           items <- iterate issues ;;
           for_each count_issue no_issues items) with
  | Some counts => counts
  | None => no_issues
  end.

(** The body of [for pr in prs]. *)
Definition count_pr (st : pr_counts) (pr : json) : result pr_counts :=
  state <- subscript pr (lit "state") ;;
  if is_string (lit "open") state
  then Return {| total_prs := total_prs st + 1;
                 open_prs := open_prs st + 1;
                 closed_prs := closed_prs st;
                 merged_prs := merged_prs st |}
  else
    merged_at <- Analytics.obj_get pr (lit "merged_at") JNull ;;
    Return {| total_prs := total_prs st + 1;
              open_prs := open_prs st;
              closed_prs := closed_prs st + 1;
              merged_prs := if truthy merged_at then merged_prs st + 1
                            else merged_prs st |}.

Definition no_prs : pr_counts :=
  {| total_prs := 0; open_prs := 0; closed_prs := 0; merged_prs := 0 |}.

(** [fetch_pull_requests(owner, repo_name, since_date)]: the date is not
    used; every exception gives the empty statistics. *)
Definition fetch_pull_requests (owner repo_name since_date : str) : pr_counts :=
  match attempt
          (prs <- github (repo_endpoint owner repo_name (lit "/pulls"))
                    (Some [ (lit "state", JString (lit "all"));
                            (lit "per_page", JInt 100) ]) ;;
           items <- iterate prs ;;
           for_each count_pr no_prs items) with
  | Some counts => counts
  | None => no_prs
  end.

(** [sum(languages.values())] when it returns. *)
Definition sum_values (vs : list json) : option json :=
  if forallb is_number vs
  then
    match int_sum vs with
    | Some n => Some (JInt n)
    | None => float_sum vs
    end
  else None.

(** [max(languages.items(), key=lambda x: x[1])[0]] over numbers: the
    first key with the largest value. *)
Fixpoint max_language (best : str * json) (items : list (str * json)) : str * json :=
  match items with
  | [] => best
  | item :: rest =>
    if num_gt (snd item) (snd best) then max_language item rest
    else max_language best rest
  end.

Definition no_languages : json :=
  JObject [ (lit "languages", JObject []);
            (lit "primary_language", JNull);
            (lit "total_bytes", JInt 0) ].

(** [fetch_languages(owner, repo_name)]: a falsy answer and every
    exception give the empty statistics. *)
Definition fetch_languages (owner repo_name : str) : json :=
  match github (repo_endpoint owner repo_name (lit "/languages")) None with
  | Return (JObject (item :: rest)) =>
    match sum_values (map snd (item :: rest)) with
    | Some total_bytes =>
      JObject [ (lit "languages", JObject (item :: rest));
                (lit "primary_language", JString (fst (max_language item rest)));
                (lit "total_bytes", total_bytes) ]
    | None => no_languages
    end
  | _ => no_languages
  end.

(** The dict that [get_repo_info] builds from the answer of GitHub. *)
Definition repo_info_of (repo_data : json) : result json :=
  let field k dflt := Analytics.obj_get repo_data k dflt in
  full_name <- subscript repo_data (lit "full_name") ;;
  owner_data <- subscript repo_data (lit "owner") ;;
  login <- subscript owner_data (lit "login") ;;
  name <- subscript repo_data (lit "name") ;;
  description <- field (lit "description") JNull ;;
  language <- field (lit "language") JNull ;;
  stargazers_count <- field (lit "stargazers_count") (JInt 0) ;;
  forks_count <- field (lit "forks_count") (JInt 0) ;;
  subscribers_count <- field (lit "subscribers_count") (JInt 0) ;;
  open_issues_count <- field (lit "open_issues_count") (JInt 0) ;;
  watchers_count <- field (lit "watchers_count") (JInt 0) ;;
  size <- field (lit "size") (JInt 0) ;;
  default_branch <- field (lit "default_branch") (JString (lit "main")) ;;
  created_at <- field (lit "created_at") JNull ;;
  updated_at <- field (lit "updated_at") JNull ;;
  pushed_at <- field (lit "pushed_at") JNull ;;
  html_url <- field (lit "html_url") JNull ;;
  topics <- field (lit "topics") (JArray []) ;;
  has_issues <- field (lit "has_issues") (JBool true) ;;
  has_projects <- field (lit "has_projects") (JBool true) ;;
  has_wiki <- field (lit "has_wiki") (JBool true) ;;
  Return (JObject [ (lit "full_name", full_name);
                    (lit "owner", login);
                    (lit "name", name);
                    (lit "description", description);
                    (lit "language", language);
                    (lit "stargazers_count", stargazers_count);
                    (lit "forks_count", forks_count);
                    (lit "subscribers_count", subscribers_count);
                    (lit "open_issues_count", open_issues_count);
                    (lit "watchers_count", watchers_count);
                    (lit "size", size);
                    (lit "default_branch", default_branch);
                    (lit "created_at", created_at);
                    (lit "updated_at", updated_at);
                    (lit "pushed_at", pushed_at);
                    (lit "html_url", html_url);
                    (lit "topics", topics);
                    (lit "has_issues", has_issues);
                    (lit "has_projects", has_projects);
                    (lit "has_wiki", has_wiki) ]).

(** [get_repo_info(owner, repo_name)], the handler of
    [GET /repo/{owner}/{repo_name}]: an [HTTPException] passes through,
    any other exception becomes a 500. *)
Definition get_repo_info (owner repo_name : str) : result dict :=
  match (repo_data <- github (repo_endpoint owner repo_name []) None ;;
         repo_info <- repo_info_of repo_data ;;
         Return [ (lit "success", JBool true); (lit "repo_info", repo_info) ]) with
  | Return r => Return r
  | Raise (HTTPException code detail) => Raise (HTTPException code detail)
  | Raise e => Raise (HTTPException 500 (exn_str e))
  end.

End Service.

End GithubApi.

(* ================================================================== *)
(** * services/api-gateway/main.py *)
(* ================================================================== *)

Module Gateway.
Import Py Json.
Local Open Scope py_scope.
Local Open Scope Z_scope.

(** What an HTTP request made with [requests] comes to: a timeout, another
    transport failure (connection refused, ...), or a response with its
    status code and its body ([None] when the body is not JSON). *)
Inductive http_outcome :=
| NetTimeout
| NetError (msg : str)
| Response (status : Z) (body : option json).

Inductive http_method := GET | POST | OTHER (name : str).

(** One outbound request, as recorded in the trace of a run. *)
Record call := {
  call_method : http_method;
  call_url : str;
  call_json : option json
}.

(** A computation that makes outbound requests: from the requests made so
    far to a result and the requests made by the end. *)
Definition io (A : Type) := list call -> result A * list call.

Definition io_ret {A} (a : A) : io A := fun log => (Return a, log).
Definition io_raise {A} (e : exn) : io A := fun log => (Raise e, log).
Definition io_bind {A B} (c : io A) (k : A -> io B) : io B :=
  fun log =>
    match c log with
    | (Return a, log') => k a log'
    | (Raise e, log') => (Raise e, log')
    end.
Definition io_lift {A} (r : result A) : io A := fun log => (r, log).

Notation "x <~ c ;; k" := (io_bind c (fun x => k))
  (at level 61, c at next level, right associativity).

Record AnalysisRequest := {
  owner : str;
  repo_name : str;
  start_date : str;
  end_date : str
}.

Definition method_name (m : http_method) : str :=
  match m with
  | GET => lit "GET"
  | POST => lit "POST"
  | OTHER name => name
  end.

(** [v.get(k, default)] on any value: only a dict has [get]. *)
Definition obj_get (v : json) (k : str) (dflt : json) : result json :=
  Analytics.obj_get v k dflt.

Section Service.

Variable GITHUB_SERVICE_URL ANALYTICS_SERVICE_URL DATABASE_SERVICE_URL : str.

(** The network: what [requests.get(url, params=...)] and
    [requests.post(url, json=...)] come to. *)
Variable requests_get : str -> option dict -> http_outcome.
Variable requests_post : str -> option json -> http_outcome.

(** The handlers of [call_service] applied to the outcome of a request. *)
Definition handle_outcome (url : str) (o : http_outcome) : result json :=
  match o with
  | NetTimeout => Raise (HTTPException 504 (lit "Service timeout: " ++ url))
  | NetError _ => Raise (HTTPException 502 (lit "Service unavailable: " ++ url))
  | Response status body =>
    if status =? 404
    then Raise (HTTPException 404 (lit "Resource not found at " ++ url))
    else if (400 <=? status) && (status <? 600)
    then Raise (HTTPException 502 (lit "Service unavailable: " ++ url))
    else
      match body with
      | Some v => Return v
      | None => Raise (HTTPException 502 (lit "Service unavailable: " ++ url))
      end
  end.

(** [call_service(url, method, json_data, params)]. *)
Definition call_service (url : str) (method : http_method)
  (json_data : option json) (params : option dict) : io json :=
  fun log =>
    match method with
    | GET =>
      (handle_outcome url (requests_get url params),
       log ++ [ {| call_method := GET; call_url := url; call_json := None |} ])
    | POST =>
      (handle_outcome url (requests_post url json_data),
       log ++ [ {| call_method := POST; call_url := url; call_json := json_data |} ])
    | OTHER name =>
      (Raise (ValueError (lit "Unsupported method: " ++ name)), log)
    end.

Definition GITHUB_ANALYZE_URL : str := GITHUB_SERVICE_URL ++ lit "/analyze".
Definition ANALYTICS_ANALYZE_URL : str := ANALYTICS_SERVICE_URL ++ lit "/analyze".
Definition DATABASE_SAVE_URL : str := DATABASE_SERVICE_URL ++ lit "/stats/save".

(** The JSON bodies of the three requests. *)
Definition github_body (request : AnalysisRequest) : json :=
  JObject [ (lit "owner", JString (owner request));
            (lit "repo_name", JString (repo_name request));
            (lit "start_date", JString (start_date request));
            (lit "end_date", JString (end_date request)) ].

Definition analytics_body (request : AnalysisRequest) (activity_data : json) : json :=
  JObject [ (lit "repo_name", JString (repo_name request));
            (lit "owner", JString (owner request));
            (lit "activity_data", activity_data) ].

Definition save_body (request : AnalysisRequest)
  (total_commits total_contributors avg period index available : json) : json :=
  JObject [ (lit "owner", JString (owner request));
            (lit "repo_name", JString (repo_name request));
            (lit "total_commits", total_commits);
            (lit "total_contributors", total_contributors);
            (lit "avg_commits_per_day", avg);
            (lit "analysis_period_days", period);
            (lit "activity_index", index);
            (lit "additional_data",
             JObject [ (lit "ai_analysis_available", available) ]) ].

(** The body of the [try] in [analyze_repository]. *)
Definition analyze_try (request : AnalysisRequest) : io dict :=
  github_response <~ call_service GITHUB_ANALYZE_URL POST
    (Some (github_body request)) None ;;
  succeeded <~ io_lift (obj_get github_response (lit "success") JNull) ;;
  if negb (truthy succeeded)
  then io_raise (HTTPException 404 (lit "GitHub data not found or analysis failed"))
  else
  let activity_data := github_response in
  analytics_response <~ call_service ANALYTICS_ANALYZE_URL POST
    (Some (analytics_body request activity_data)) None ;;
  commit_stats <~ io_lift (obj_get activity_data (lit "commit_stats") (JObject [])) ;;
  total_commits <~ io_lift (obj_get commit_stats (lit "total_commits") (JInt 0)) ;;
  total_contributors <~ io_lift (obj_get activity_data (lit "total_contributors") (JInt 0)) ;;
  avg <~ io_lift (obj_get commit_stats (lit "average_commits_per_day") (JInt 0)) ;;
  period <~ io_lift (obj_get activity_data (lit "analysis_period_days") (JInt 0)) ;;
  index <~ io_lift (obj_get activity_data (lit "activity_index") (JInt 0)) ;;
  available <~ io_lift (obj_get analytics_response (lit "success") (JBool false)) ;;
  save_response <~ call_service DATABASE_SAVE_URL POST
    (Some (save_body request total_commits total_contributors avg period index
             available)) None ;;
  let field k := obj_get activity_data k JNull in
  repo_info <~ io_lift (field (lit "repo_info")) ;;
  commit_stats_out <~ io_lift (field (lit "commit_stats")) ;;
  contributors <~ io_lift (field (lit "contributors")) ;;
  total_contributors_out <~ io_lift (field (lit "total_contributors")) ;;
  issue_stats <~ io_lift (field (lit "issue_stats")) ;;
  pr_stats <~ io_lift (field (lit "pr_stats")) ;;
  language_stats <~ io_lift (field (lit "language_stats")) ;;
  period_out <~ io_lift (field (lit "analysis_period_days")) ;;
  index_out <~ io_lift (field (lit "activity_index")) ;;
  ai_analysis <~ io_lift (obj_get analytics_response (lit "analysis") (JString [])) ;;
  ai_recommendations <~ io_lift (obj_get analytics_response (lit "recommendations") (JArray [])) ;;
  ai_insights <~ io_lift (obj_get analytics_response (lit "insights") (JObject [])) ;;
  ai_summary <~ io_lift (obj_get analytics_response (lit "summary") (JString [])) ;;
  record_id <~ io_lift (obj_get save_response (lit "record_id") JNull) ;;
  io_ret [ (lit "success", JBool true);
           (lit "repo_info", repo_info);
           (lit "commit_stats", commit_stats_out);
           (lit "contributors", contributors);
           (lit "total_contributors", total_contributors_out);
           (lit "issue_stats", issue_stats);
           (lit "pr_stats", pr_stats);
           (lit "language_stats", language_stats);
           (lit "analysis_period_days", period_out);
           (lit "activity_index", index_out);
           (lit "start_date", JString (start_date request));
           (lit "end_date", JString (end_date request));
           (lit "ai_analysis", ai_analysis);
           (lit "ai_recommendations", ai_recommendations);
           (lit "ai_insights", ai_insights);
           (lit "ai_summary", ai_summary);
           (lit "database_record_id", record_id) ].

(** [analyze_repository(request)], the handler of [POST /api/analyze]: an
    [HTTPException] passes through, any other exception becomes a 500. *)
Definition analyze_repository (request : AnalysisRequest) : io dict :=
  fun log =>
    match analyze_try request log with
    | (Return r, log') => (Return r, log')
    | (Raise (HTTPException code detail), log') =>
      (Raise (HTTPException code detail), log')
    | (Raise e, log') => (Raise (HTTPException 500 (exn_str e)), log')
    end.

(** One probe of [health_check]: [call_service(url)] inside a [try] whose
    bare [except] turns every failure into ['unhealthy']. *)
Definition probe (url : str) : io str :=
  fun log =>
    match call_service url GET None None log with
    | (Return _, log') => (Return (lit "healthy"), log')
    | (Raise _, log') => (Return (lit "unhealthy"), log')
    end.

(** [health_check()], the handler of [GET /health], run when
    [datetime.utcnow().isoformat()] gives [timestamp]. *)
Definition health_check (timestamp : str) : io dict :=
  github_service <~ probe (GITHUB_SERVICE_URL ++ lit "/health") ;;
  analytics_service <~ probe (ANALYTICS_SERVICE_URL ++ lit "/health") ;;
  database_service <~ probe (DATABASE_SERVICE_URL ++ lit "/health") ;;
  let all_healthy :=
    str_eqb github_service (lit "healthy")
    && str_eqb analytics_service (lit "healthy")
    && str_eqb database_service (lit "healthy") in
  io_ret [ (lit "status",
            JString (if all_healthy then lit "healthy" else lit "degraded"));
           (lit "service", JString (lit "api-gateway"));
           (lit "timestamp", JString timestamp);
           (lit "services",
            JObject [ (lit "github_service", JString github_service);
                      (lit "analytics_service", JString analytics_service);
                      (lit "database_service", JString database_service) ]) ].

End Service.

End Gateway.

(* ================================================================== *)
(** * services/database-service/main.py *)
(* ================================================================== *)

Module Database.
Import Py Json.
Local Open Scope Z_scope.

Record StatsSaveRequest := {
  owner : str;
  repo_name : str;
  total_commits : Z;
  total_contributors : Z;
  avg_commits_per_day : float;
  analysis_period_days : Z;
  activity_index : float;
  additional_data : option dict
}.

(** A row of [repo_stats].  A [REAL] column holds a float or [NULL]; the
    [timestamp] column holds the text of [CURRENT_TIMESTAMP]. *)
Record stats_row := {
  row_id : Z;
  row_owner : str;
  row_repo_name : str;
  row_total_commits : Z;
  row_total_contributors : Z;
  row_avg_commits_per_day : option float;
  row_analysis_period_days : Z;
  row_activity_index : option float;
  row_timestamp : str;
  row_additional_data : option str
}.

(** The database file: the rows of [repo_stats] in rowid order, and the
    largest rowid the table ever held ([sqlite_sequence], kept for an
    [AUTOINCREMENT] key). *)
Record database := {
  repo_stats : list stats_row;
  sqlite_sequence : Z
}.

Definition INT64_MAX : Z := 9223372036854775807.
Definition INT64_MIN : Z := -9223372036854775808.

Definition fits_int64 (n : Z) : bool := (INT64_MIN <=? n) && (n <=? INT64_MAX).

(** A float bound to a [REAL] column, as it is read back: SQLite stores
    NaN as [NULL], and a float whose value is a small integer as that
    integer, so that a negative zero comes back as [0.0]. *)
Definition real_column (x : float) : option float :=
  match x with
  | S754_nan => None
  | S754_zero _ => Some (S754_zero false)
  | _ => Some x
  end.

Definition max_rowid (rows : list stats_row) : Z :=
  fold_right (fun r m => Z.max (row_id r) m) 0 rows.

(** The largest rowid that [AUTOINCREMENT] takes into account: the rows
    of the table and the rows it held before. *)
Definition largest_rowid (db : database) : Z :=
  Z.max (max_rowid (repo_stats db)) (sqlite_sequence db).

(** The comparison of two [TEXT] values (binary collation). *)
Fixpoint str_compare (a b : str) : comparison :=
  match a, b with
  | [], [] => Eq
  | [], _ :: _ => Lt
  | _ :: _, [] => Gt
  | x :: a', y :: b' =>
    match (x ?= y)%N with
    | Eq => str_compare a' b'
    | c => c
    end
  end.

(** [ORDER BY timestamp DESC]: a row goes after the rows that are not
    older than it, so rows with the same timestamp stay in rowid order
    (SQL leaves their order open; this is the order SQLite produces). *)
Fixpoint insert_desc (r : stats_row) (sorted : list stats_row) : list stats_row :=
  match sorted with
  | [] => [r]
  | x :: rest =>
    match str_compare (row_timestamp x) (row_timestamp r) with
    | Lt => r :: x :: rest
    | _ => x :: insert_desc r rest
    end
  end.

Definition order_by_timestamp_desc (rows : list stats_row) : list stats_row :=
  fold_left (fun sorted r => insert_desc r sorted) rows [].

(** [LIMIT n]: a negative bound is no bound. *)
Definition sql_limit (n : Z) (rows : list stats_row) : list stats_row :=
  if n <? 0 then rows else firstn (Z.to_nat n) rows.

Definition real_json (x : option float) : json :=
  match x with
  | Some v => JFloat v
  | None => JNull
  end.

(** The dict built from one fetched row. *)
Definition history_entry (r : stats_row) : json :=
  JObject [ (lit "id", JInt (row_id r));
            (lit "owner", JString (row_owner r));
            (lit "repo_name", JString (row_repo_name r));
            (lit "total_commits", JInt (row_total_commits r));
            (lit "total_contributors", JInt (row_total_contributors r));
            (lit "avg_commits_per_day", real_json (row_avg_commits_per_day r));
            (lit "analysis_period_days", JInt (row_analysis_period_days r));
            (lit "activity_index", real_json (row_activity_index r));
            (lit "timestamp", JString (row_timestamp r)) ].

Section Service.

Variable json_dumps : json -> str.

(** The row that [INSERT INTO repo_stats] writes for a request, given the
    key and the clock. *)
Definition new_row (id : Z) (now : str) (request : StatsSaveRequest) : stats_row :=
  {| row_id := id;
     row_owner := owner request;
     row_repo_name := repo_name request;
     row_total_commits := total_commits request;
     row_total_contributors := total_contributors request;
     row_avg_commits_per_day := real_column (avg_commits_per_day request);
     row_analysis_period_days := analysis_period_days request;
     row_activity_index := real_column (activity_index request);
     row_timestamp := now;
     row_additional_data :=
       match additional_data request with
       | Some (kv :: d) => Some (json_dumps (JObject (kv :: d)))
       | _ => None
       end |}.

(** [save_statistics(request)], the handler of [POST /stats/save], run
    when [CURRENT_TIMESTAMP] reads [now]: the response and the database
    afterwards.  An integer outside 64 bits cannot be bound, and the key
    after the largest possible one cannot be assigned; both end in a 500
    without a write. *)
Definition save_statistics (now : str) (request : StatsSaveRequest)
  (db : database) : result dict * database :=
  if negb (fits_int64 (total_commits request)
           && fits_int64 (total_contributors request)
           && fits_int64 (analysis_period_days request))
  then (Raise (HTTPException 500
                 (lit "Python int too large to convert to SQLite INTEGER")), db)
  else
    let largest := largest_rowid db in
    if INT64_MAX <=? largest
    then (Raise (HTTPException 500 (lit "database or disk is full")), db)
    else
      let record_id := largest + 1 in
      (Return [ (lit "success", JBool true);
                (lit "record_id", JInt record_id);
                (lit "message", JString (lit "Statistics saved successfully")) ],
       {| repo_stats := repo_stats db ++ [new_row record_id now request];
          sqlite_sequence := record_id |}).

(** [get_repo_history(owner, repo_name, limit)], the handler of
    [GET /stats/repo/{owner}/{repo_name}]. *)
Definition get_repo_history (owner repo_name : str) (limit : Z) (db : database)
  : result dict :=
  if negb (fits_int64 limit)
  then Raise (HTTPException 500
                (lit "Python int too large to convert to SQLite INTEGER"))
  else
    let selected :=
      filter (fun r => str_eqb (row_owner r) owner
                       && str_eqb (row_repo_name r) repo_name)
             (repo_stats db) in
    let rows := sql_limit limit (order_by_timestamp_desc selected) in
    let history := map history_entry rows in
    Return [ (lit "owner", JString owner);
             (lit "repo_name", JString repo_name);
             (lit "history", JArray history);
             (lit "count", JInt (Z.of_nat (List.length history))) ].

End Service.

(** [OFFSET n]: a negative offset is no offset. *)
Definition sql_offset (n : Z) (rows : list stats_row) : list stats_row :=
  if n <? 0 then rows else skipn (Z.to_nat n) rows.

(** [get_history(limit, offset)], the handler of [GET /stats/history]. *)
Definition get_history (limit offset : Z) (db : database) : result dict :=
  if negb (fits_int64 limit && fits_int64 offset)
  then Raise (HTTPException 500
                (lit "Python int too large to convert to SQLite INTEGER"))
  else
    let rows :=
      sql_limit limit
        (sql_offset offset (order_by_timestamp_desc (repo_stats db))) in
    let history := map history_entry rows in
    Return [ (lit "history", JArray history);
             (lit "total", JInt (Z.of_nat (List.length (repo_stats db))));
             (lit "limit", JInt limit);
             (lit "offset", JInt offset) ].

(** ** The cache table *)

(** A row of [github_cache]: [cache_key] is [UNIQUE], [created_at] holds
    the text of [CURRENT_TIMESTAMP], [expires_at] the text bound by
    [set_cache]. *)
Record cache_row := {
  cache_id : Z;
  cache_key : str;
  cache_data : str;
  cache_created_at : str;
  cache_expires_at : str
}.

(** The table in rowid order, and the largest rowid it ever held. *)
Record cache_table := {
  github_cache : list cache_row;
  cache_sequence : Z
}.

Definition max_cache_id (rows : list cache_row) : Z :=
  fold_right (fun r m => Z.max (cache_id r) m) 0 rows.

Definition has_key (key : str) (r : cache_row) : bool := str_eqb (cache_key r) key.

Section Cache.

(** The clock and the library: the text of
    [datetime.fromtimestamp(datetime.utcnow().timestamp() + ttl_seconds).isoformat()]
    when [utcnow()] reads a given instant (microseconds since the epoch),
    and [datetime.fromisoformat]. *)
Variable expires_at_str : Z -> Z -> result str.
Variable fromisoformat : str -> result GithubService.datetime.

(** [set_cache(cache_key, data, ttl_seconds)], the handler of
    [POST /cache/set], run when [utcnow()] reads [utcnow] and
    [CURRENT_TIMESTAMP] reads [stamp].  [INSERT OR REPLACE] deletes the
    row that holds the key and inserts the new one under a fresh rowid. *)
Definition set_cache (utcnow : Z) (stamp : str) (key data : str) (ttl_seconds : Z)
  (c : cache_table) : result dict * cache_table :=
  match expires_at_str utcnow ttl_seconds with
  | Raise e => (Raise (HTTPException 500 (exn_str e)), c)
  | Return expires =>
    let largest := Z.max (max_cache_id (github_cache c)) (cache_sequence c) in
    if INT64_MAX <=? largest
    then (Raise (HTTPException 500 (lit "database or disk is full")), c)
    else
      let kept := filter (fun r => negb (has_key key r)) (github_cache c) in
      (Return [ (lit "success", JBool true);
                (lit "cache_key", JString key) ],
       {| github_cache :=
            kept ++ [ {| cache_id := largest + 1;
                         cache_key := key;
                         cache_data := data;
                         cache_created_at := stamp;
                         cache_expires_at := expires |} ];
          cache_sequence := largest + 1 |})
  end.

(** [get_cache(cache_key)], the handler of [GET /cache/get/{cache_key}],
    run when [utcnow()] reads [utcnow]: an entry whose expiry lies before
    the clock is deleted. *)
Definition get_cache (utcnow : Z) (key : str) (c : cache_table)
  : result dict * cache_table :=
  match find (has_key key) (github_cache c) with
  | None => (Return [ (lit "found", JBool false) ], c)
  | Some row =>
    match fromisoformat (cache_expires_at row) with
    | Raise e => (Raise (HTTPException 500 (exn_str e)), c)
    | Return expires_at =>
      if GithubService.aware expires_at
      then (Raise (HTTPException 500
                     (lit "can't compare offset-naive and offset-aware datetimes")), c)
      else if GithubService.instant expires_at <? utcnow
      then (Return [ (lit "found", JBool false); (lit "expired", JBool true) ],
            {| github_cache :=
                 filter (fun r => negb (has_key key r)) (github_cache c);
               cache_sequence := cache_sequence c |})
      else (Return [ (lit "found", JBool true);
                     (lit "data", JString (cache_data row));
                     (lit "cache_key", JString key) ], c)
    end
  end.

End Cache.

(** [clear_cache()], the handler of [DELETE /cache/clear]. *)
Definition clear_cache (c : cache_table) : result dict * cache_table :=
  (Return [ (lit "success", JBool true);
            (lit "deleted_records", JInt (Z.of_nat (List.length (github_cache c)))) ],
   {| github_cache := []; cache_sequence := cache_sequence c |}).

End Database.

(* ================================================================== *)
(** * clients/web-client/main.py *)
(* ================================================================== *)

Module WebClient.
Import Py Json.
Local Open Scope py_scope.
Local Open Scope Z_scope.

(** What a handler answers: a template with its context, or the error
    page with its message.  The rendering of the template is not
    modelled. *)
Inductive response :=
| HistoryPage (statistics : json) (current_page : Z) (total_pages : json)
| ErrorPage (error_msg : str).

(** The endpoint that [history_page] calls for a page. *)
Definition history_endpoint (page : Z) : str :=
  lit "/api/history?limit=20&offset=" ++ str_of_int ((page - 1) * 20).

Section Client.

(** The gateway and the interpreter: [call_api(endpoint)] with the
    default method, and [(x + 19) // 20] on a float. *)
Variable call_api : str -> result json.
Variable float_pages : float -> result json.

(** [(history_data.get('total', 0) + 19) // 20]. *)
Definition total_pages_of (total : json) : result json :=
  match total with
  | JInt n => Return (JInt ((n + 19) / 20))
  | JBool b => Return (JInt (((if b then 1 else 0) + 19) / 20))
  | JFloat x => float_pages x
  | _ => Raise (TypeError (lit "unsupported operand type(s) for +"))
  end.

(** [history_page(request, page)], the handler of [GET /history]: every
    exception gives the error page. *)
Definition history_page (page : Z) : response :=
  match (history_data <- call_api (history_endpoint page) ;;
         statistics <- Analytics.obj_get history_data (lit "history") (JArray []) ;;
         total <- Analytics.obj_get history_data (lit "total") (JInt 0) ;;
         total_pages <- total_pages_of total ;;
         Return (HistoryPage statistics page total_pages)) with
  | Return answer => answer
  | Raise _ => ErrorPage (lit "Ошибка истории")
  end.

End Client.

End WebClient.

(* ================================================================== *)
(** * clients/telegram-bot/main.py *)
(* ================================================================== *)

Module TelegramBot.
Import Py Json.
Local Open Scope py_scope.
Local Open Scope Z_scope.

(** [[A-Za-z0-9_]], the ASCII part of [\w]. *)
Definition ascii_word (c : N) : bool :=
  ((48 <=? c) && (c <=? 57) || (65 <=? c) && (c <=? 90)
   || (97 <=? c) && (c <=? 122) || (c =? 95))%N.

(** [s.split('/')]. *)
Fixpoint split_slash (s : str) : list str :=
  match s with
  | [] => [[]]
  | c :: s' =>
    if (c =? 47)%N then [] :: split_slash s'
    else
      match split_slash s' with
      | part :: parts => (c :: part) :: parts
      | [] => [[c]]
      end
  end.

(** The length of the parts into which [receive_period] cuts a long
    message, and the length from which it cuts. *)
Definition PART : nat := 4000.
Definition LIMIT : Z := 4096.

(** [res[i:i+4000] for i in range(0, len(res), 4000)]. *)
Fixpoint parts_of (fuel : nat) (res : str) : list str :=
  match fuel with
  | O => []
  | S fuel' =>
    match res with
    | [] => []
    | _ :: _ => firstn PART res :: parts_of fuel' (skipn PART res)
    end
  end.

(** Lines 194-198 of [receive_period]: the texts passed to [reply_text],
    in order. *)
Definition reply_texts (res : str) : list str :=
  if LIMIT <? Z.of_nat (List.length res) then parts_of (List.length res) res
  else [res].


Section Bot.

(** The Unicode database: whether a character beyond ASCII is
    alphanumeric ([\w] matches those and the underscore). *)
Variable unicode_alnum : N -> bool.

Definition is_word (c : N) : bool :=
  if (c <? 128)%N then ascii_word c else unicode_alnum c.

(** A character of the class [[\w\-\.]]. *)
Definition repo_char (c : N) : bool := is_word c || (c =? 45)%N || (c =? 46)%N.

(** The longest run of characters of the class at the head of a text,
    and the rest. *)
Fixpoint span_repo_chars (s : str) : str * str :=
  match s with
  | [] => ([], [])
  | c :: s' =>
    if repo_char c
    then let (run, rest) := span_repo_chars s' in (c :: run, rest)
    else ([], s)
  end.

(** [re.match(r'^[\w\-\.]+/[\w\-\.]+$', s)]: a run of the class, a
    slash, a run of the class, and the end of the text or a line feed
    that ends it. *)
Definition matches_repo (s : str) : bool :=
  match span_repo_chars s with
  | (_ :: _, c :: rest) =>
    (c =? 47)%N &&
    match span_repo_chars rest with
    | (_ :: _, []) => true
    | (_ :: _, [d]) => (d =? 10)%N
    | _ => false
    end
  | _ => false
  end.

(** Lines 122-126 of [receive_repo]: [None] when the format is refused,
    the owner and the repository otherwise; unpacking anything but two
    parts raises. *)
Definition repo_parts (repo_input : str) : result (option (str * str)) :=
  if negb (matches_repo repo_input) then Return None
  else
    match split_slash repo_input with
    | [owner; repo] => Return (Some (owner, repo))
    | [] | [_] => Raise (ValueError (lit "not enough values to unpack"))
    | _ => Raise (ValueError (lit "too many values to unpack (expected 2)"))
    end.

End Bot.

End TelegramBot.

(* ================================================================== *)
(** * Notions used by the statements *)
(* ================================================================== *)

Module Notions.
Import Py Json.

(** The JSON object that the normaliser finds in a response: the span
    from the first opening to the last closing brace of the text without
    fences, when [json.loads] accepts it. *)
Definition extract_object (interpreter : limits) (text : str) : option dict :=
  match search_braces (strip (sub_fences text)) with
  | Some json_str =>
    match json_loads interpreter json_str with
    | Return (JObject data) => Some data
    | _ => None
    end
  | None => None
  end.

(** A payload between the markers of a markdown code block. *)
Definition code_fence (payload : str) : str :=
  FENCE_JSON ++ [10%N] ++ payload ++ [10%N] ++ FENCE.

(** Whether three backquotes occur somewhere in the text. *)
Fixpoint has_fence (s : str) : bool :=
  match s with
  | [] => false
  | _ :: s' =>
    match strip_prefix FENCE s with
    | Some _ => true
    | None => has_fence s'
    end
  end.

(** A value of the requested type, or the default in its place. *)
Definition or_default (is_type : json -> bool) (dflt : json) (v : option json) : json :=
  match v with
  | Some x => if is_type x then x else dflt
  | None => dflt
  end.

(** ** The gateway

    The status code that the gateway answers when the request to the
    GitHub service comes to [o], or [None] when that stage succeeds: a
    timeout is a 504, another transport failure or an error status a 502,
    a 404 stays a 404, a body that is not a JSON object a 502 or a 500,
    and an object without a true [success] a 404. *)
Definition fetch_status (o : Gateway.http_outcome) : option Z :=
  match o with
  | Gateway.NetTimeout => Some 504%Z
  | Gateway.NetError _ => Some 502%Z
  | Gateway.Response status body =>
    if (status =? 404)%Z then Some 404%Z
    else if ((400 <=? status) && (status <? 600))%Z then Some 502%Z
    else
      match body with
      | None => Some 502%Z
      | Some (JObject gh) =>
        if truthy (dict_get_default (lit "success") JNull gh) then None
        else Some 404%Z
      | Some _ => Some 500%Z
      end
  end.

(** A computation that only adds requests to the trace. *)
Definition extends_trace (A : Type) (c : Gateway.io A) : Prop :=
  forall log, exists rest, snd (c log) = log ++ rest.

(** The analytics service behind its URL: the body is validated against
    [AnalyticsRequest] (a 422 when it does not fit), the handler runs, and
    the dict it returns is the body of a 200 response. *)
Definition analytics_endpoint (MISTRAL_API_KEY : str) (py_str json_dumps : json -> str)
  (call_mistral_api : str -> result str) (interpreter : limits) (body : option json)
  : Gateway.http_outcome :=
  match body with
  | Some b =>
    match Analytics.parse_request b with
    | Some request =>
      Gateway.Response 200
        (Some (JObject (Analytics.analyze_with_ai MISTRAL_API_KEY py_str json_dumps
                          call_mistral_api interpreter request)))
    | None => Gateway.Response 422 (Some (JObject [ (lit "detail", JArray []) ]))
    end
  | None => Gateway.Response 422 (Some (JObject [ (lit "detail", JArray []) ]))
  end.

(** ** The metrics, in the words of the specification *)




(** ** Scanners

    A scanner reads a value at the head of a text and returns it with the
    rest of the text. *)

Definition all_ws (w : str) : Prop := Forall (fun c => is_json_ws c = true) w.

Definition all_space (w : str) : Prop := Forall (fun c => is_space c = true) w.

(** [f] reads [a] from [s] and leaves [r]: it consumed a non-empty part
    of [s], and reads the same value when the text ends anywhere in
    [r]. *)
Definition local (A : Type) (f : str -> option (A * str)) (s : str) (a : A) (r : str) : Prop :=
  exists c, s = c ++ r /\ c <> [] /\
    forall y z, r = y ++ z -> f (c ++ y) = Some (a, y).

(** [f] fails on every text that [r] starts with. *)
Definition fails_on_prefixes (A : Type) (f : str -> option (A * str)) (r : str) : Prop :=
  forall y z, r = y ++ z -> f y = None.

(** The same for a scanner with fuel: twice the length of what it
    consumes, plus [extra], is fuel enough. *)
Definition consumes (A : Type) (F : nat -> str -> result (A * str)) (extra : nat)
  (s : str) (a : A) (r : str) : Prop :=
  exists c, s = c ++ r /\ c <> [] /\
    forall y z m, r = y ++ z -> 2 * List.length c + extra <= m ->
                  F m (c ++ y) = Return (a, y).

(** ** Characters of a JSON document *)

(** A character that a string literal holds as it is. *)
Definition ordinary (c : N) : bool :=
  negb (c =? 34)%N && negb (c =? 92)%N && negb (c <? 32)%N.

(** A character that ends a number or a constant inside a document. *)
Definition is_delim (c : N) : bool :=
  is_json_ws c || (c =? 44)%N || (c =? 93)%N || (c =? 125)%N.

Definition delim_start (r : str) : Prop :=
  match r with
  | [] => True
  | d :: _ => is_delim d = true
  end.

(** A character of a number or of a constant. *)
Definition scalar_char (c : N) : bool :=
  negb (c =? 96)%N && negb (is_delim c).

Section AnalyticsEnvironment.

Variable MISTRAL_API_KEY : str.
Variable py_str : json -> str.
Variable json_dumps : json -> str.
Variable call_mistral_api : str -> result str.

(** The completion endpoint answers [text] to the prompt built for the
    request: the key is configured, the summary of the activity data is
    built and the exchange returns. *)
Definition endpoint_answers (request : Analytics.AnalyticsRequest) (text : str) : Prop :=
  MISTRAL_API_KEY <> [] /\
  exists activity_summary,
    Analytics.prepare_activity_summary py_str json_dumps
      (Analytics.activity_data request) = Return activity_summary /\
    call_mistral_api
      (Analytics.create_analysis_prompt (Analytics.owner request)
         (Analytics.repo_name request) activity_summary)
      = Return text.

End AnalyticsEnvironment.

(** ** The store *)

(** The [history] array of an answer of the database service. *)
Definition history_of (r : result dict) : option (list json) :=
  match r with
  | Return d =>
    match dict_get (lit "history") d with
    | Some (JArray h) => Some h
    | _ => None
    end
  | Raise _ => None
  end.

(** Newest first: no row is older than a row listed after it. *)
Definition not_older (x y : Database.stats_row) : Prop :=
  Database.str_compare (Database.row_timestamp x) (Database.row_timestamp y) <> Lt.

Definition newest_first (rows : list Database.stats_row) : Prop :=
  StronglySorted not_older rows.

Definition of_repo (o r : str) (x : Database.stats_row) : Prop :=
  Database.row_owner x = o /\ Database.row_repo_name x = r.

(** The states of [repo_stats]: the empty table, and what a call of
    [save_statistics] makes of a state. *)
Inductive reachable (json_dumps : json -> str) : Database.database -> Prop :=
| reachable_empty :
    reachable json_dumps {| Database.repo_stats := []; Database.sqlite_sequence := 0 |}
| reachable_save now request db :
    reachable json_dumps db ->
    reachable json_dumps (snd (Database.save_statistics json_dumps now request db)).

(** ** Texts *)

(** A character that no fence marker holds. *)
Definition outside_fences (c : N) : bool :=
  negb ((c =? 96) || (c =? 106) || (c =? 115) || (c =? 111) || (c =? 110))%N.

(** A text without the character [c]. *)
Definition without (c : N) (s : str) : Prop := Forall (fun a => a <> c) s.

(** ** The gateway: health *)

(** Whether [call_service(url)] returns for the answer of the network. *)
Definition service_answers (requests_get : str -> option dict -> Gateway.http_outcome)
  (url : str) : bool :=
  match Gateway.handle_outcome url (requests_get url None) with
  | Return _ => true
  | Raise _ => false
  end.

Import GithubApi.
Local Open Scope Z_scope.

(** ** The requests to the GitHub API *)

(** The requests for the first [n] pages of commits. *)
Definition pages_requested (owner repo_name since_date : str) (n : nat) : list request :=
  map (fun p => commits_request owner repo_name since_date (Z.of_nat p)) (seq 1 n).

(** Page [p] of a list served a hundred items at a time. *)
Definition page_of (all : list json) (p : Z) : list json :=
  firstn 100 (skipn (100 * Z.to_nat (p - 1)) all).

(** A commit whose author name and date, read as [fetch_commits] reads
    them, are strings. *)
Definition readable_commit (commit : json) : Prop :=
  exists name date,
    author_field commit (lit "name") (JString (lit "Unknown")) = Return (JString name) /\
    author_field commit (lit "date") (JString []) = Return (JString date).

(** The sum of the counts of a counter. *)
Definition count_sum {K : Type} (d : list (K * Z)) : Z :=
  fold_right (fun kv s => snd kv + s) 0 d.


(** An entry that holds a [state]. *)
Definition has_state (v : json) : bool :=
  match v with
  | JObject d => dict_mem (lit "state") d
  | _ => false
  end.

(** A label that holds a name that can be counted. *)
Definition countable_label (label : json) : bool :=
  match label with
  | JObject d =>
    match dict_get (lit "name") d with
    | Some name => hashable name
    | None => false
    end
  | _ => false
  end.

(** The labels of an issue, when they come as a list. *)
Definition labels_of (d : dict) : list json :=
  match dict_get_default (lit "labels") (JArray []) d with
  | JArray labels => labels
  | _ => []
  end.

(** An entry of the issues endpoint as GitHub sends it: a pull request
    (marked by its key), or an issue with a state and a list of labels
    that have names. *)
Definition issue_entry (v : json) : bool :=
  match v with
  | JObject d =>
    dict_mem (lit "pull_request") d
    || (dict_mem (lit "state") d
        && is_list (dict_get_default (lit "labels") (JArray []) d)
        && forallb countable_label (labels_of d))
  | _ => false
  end.

Definition is_issue (v : json) : bool :=
  match v with
  | JObject d => negb (dict_mem (lit "pull_request") d)
  | _ => false
  end.

Definition is_open_issue (v : json) : bool :=
  match v with
  | JObject d =>
    negb (dict_mem (lit "pull_request") d)
    && is_string (lit "open") (dict_get_default (lit "state") JNull d)
  | _ => false
  end.

Definition issue_labels (v : json) : list json :=
  match v with
  | JObject d => if dict_mem (lit "pull_request") d then [] else labels_of d
  | _ => []
  end.

(** The counters agree with the number of commits counted. *)
Definition consistent (st : counters) : Prop :=
  count_sum (by_author st) = total st /\
  count_sum (by_day st) <= total st /\
  Forall (fun kv => 0 < snd kv) (by_author st).

(** The integers under the keys of a dict of integers. *)
Definition int_values (ns : list (str * Z)) : dict :=
  map (fun kn => (fst kn, JInt (snd kn))) ns.


(** ** The gateway: the later stages *)

(** The status code that [call_service] raises for the outcome of a
    request, or [None] when it returns the decoded body. *)
Definition call_status (o : Gateway.http_outcome) : option Z :=
  match o with
  | Gateway.NetTimeout => Some 504
  | Gateway.NetError _ => Some 502
  | Gateway.Response status body =>
    if status =? 404 then Some 404
    else if (400 <=? status) && (status <? 600) then Some 502
    else
      match body with
      | None => Some 502
      | Some _ => None
      end
  end.

(** ** The clients *)

(** The rows that a page of the history shows. *)
Definition page_statistics (r : WebClient.response) : list json :=
  match r with
  | WebClient.HistoryPage (JArray h) _ _ => h
  | _ => []
  end.

(** What the gateway answers to the request of the web client for a page
    of the history when it passes on the answer of the database
    service. *)
Definition history_answer (db : Database.database) (page : Z) : result json :=
  match Database.get_history 20 ((page - 1) * 20) db with
  | Return d => Return (JObject d)
  | Raise e => Raise e
  end.


End Notions.

(* ================================================================== *)
(** * Sample runs *)
(* ================================================================== *)

Module Samples.
Import Py Json.
Local Open Scope Z_scope.

(** An analytics service with a configured key whose completion endpoint
    answers [text] to every prompt. *)
Definition sample_key : str := lit "key".
Definition sample_str (v : json) : str := [].
Definition sample_dumps (v : json) : str := [].
Definition answering (text : str) (prompt : str) : result str := Return text.
Definition refusing (prompt : str) : result str :=
  Raise (RequestException (lit "Connection refused")).

Definition sample_request : Analytics.AnalyticsRequest :=
  {| Analytics.repo_name := lit "repo";
     Analytics.owner := lit "octocat";
     Analytics.activity_data := [] |}.

(** An interpreter with its default limits, a recursion limit of 1000 and
    4300 digits, in which a hundred calls are on the stack where the
    decoder is called; and one that is two calls away from its recursion
    limit. *)
Definition sample_interpreter : limits :=
  {| recursion_remaining := 900; int_max_str_digits := 4300 |}.

Definition shallow_interpreter : limits :=
  {| recursion_remaining := 2; int_max_str_digits := 4300 |}.

Definition sample_analyze (text : str) : dict :=
  Analytics.analyze_with_ai sample_key sample_str sample_dumps (answering text)
    sample_interpreter sample_request.

(** A response without [summary], with a well-formed [insights]. *)
Definition text_without_summary : str :=
  qlit "{'analysis': 'a', 'insights': {'health_score': '9'}, 'recommendations': ['r']}".

(** A response that matches the schema, with a fence inside a string. *)
Definition text_with_inner_fence : str :=
  qlit "{'summary': 'run ```make``` first', 'analysis': 'a', 'insights': {}, 'recommendations': []}".

(** A response that matches the schema. *)
Definition text_clean : str :=
  qlit "{'summary': 's', 'analysis': 'a', 'insights': {'health_score': '9'}, 'recommendations': ['r']}".

(** A response that matches the schema, with arrays inside an array
    inside the record of [insights]. *)
Definition text_nested : str :=
  qlit "{'summary': 's', 'analysis': 'a', 'insights': {'trends': [['x']]}, 'recommendations': []}".

(** A response that matches the schema, with an integer of 4301 digits
    inside the record of [insights]. *)
Definition text_long_int : str :=
  qlit "{'summary': 's', 'analysis': 'a', 'insights': {'n': "
  ++ repeat 49%N 4301
  ++ qlit "}, 'recommendations': []}".

(** A response that lacks [recommendations] and has a string under
    [insights]. *)
Definition text_partial : str :=
  qlit "Here you are: {'summary': 's', 'analysis': 'a', 'insights': 'none'} Bye.".

(** A network in which the GitHub service and the database service
    answer and the analytics service runs [analyze_with_ai] with a
    completion endpoint that refuses the connection. *)
Definition sample_gh : dict :=
  [ (lit "success", JBool true);
    (lit "commit_stats", JObject [ (lit "total_commits", JInt 120) ]);
    (lit "activity_index", JFloat (float_of_int 300)) ].

Definition sample_saved : dict :=
  [ (lit "success", JBool true); (lit "record_id", JInt 7) ].

Definition sample_gateway_request : Gateway.AnalysisRequest :=
  {| Gateway.owner := lit "octocat";
     Gateway.repo_name := lit "repo";
     Gateway.start_date := lit "2024-01-01T00:00:00Z";
     Gateway.end_date := lit "2024-01-30T23:59:59Z" |}.

Definition sample_get (url : str) (params : option dict) : Gateway.http_outcome :=
  Gateway.NetError (lit "unused").

Definition sample_post (url : str) (body : option json) : Gateway.http_outcome :=
  if str_eqb url (lit "http://github/analyze")
  then Gateway.Response 200 (Some (JObject sample_gh))
  else if str_eqb url (lit "http://analytics/analyze")
  then Notions.analytics_endpoint sample_key sample_str sample_dumps refusing
         sample_interpreter body
  else Gateway.Response 200 (Some (JObject sample_saved)).

(** A network in which no service is reachable. *)
Definition dead_post (url : str) (body : option json) : Gateway.http_outcome :=
  Gateway.NetError (lit "Connection refused").

(** A [fromisoformat] for the form [YYYY-MM-DDTHH:MM:SS+00:00] only. *)
Definition two_digits (a b : N) : Z := (Z.of_N a - 48) * 10 + (Z.of_N b - 48).

Definition days_from_civil (y m d : Z) : Z :=
  let y' := if m <=? 2 then y - 1 else y in
  let era := y' / 400 in
  let yoe := y' - era * 400 in
  let mp := (m + 9) mod 12 in
  let doy := (153 * mp + 2) / 5 + d - 1 in
  let doe := yoe * 365 + yoe / 4 - yoe / 100 + doy in
  era * 146097 + doe - 719468.

Definition sample_fromisoformat (s : str) : result GithubService.datetime :=
  match s with
  | y1 :: y2 :: y3 :: y4 :: _ :: m1 :: m2 :: _ :: d1 :: d2 :: _
      :: h1 :: h2 :: _ :: n1 :: n2 :: _ :: s1 :: s2 :: _ =>
    let year := two_digits y1 y2 * 100 + two_digits y3 y4 in
    let seconds :=
      days_from_civil year (two_digits m1 m2) (two_digits d1 d2) * 86400
      + two_digits h1 h2 * 3600 + two_digits n1 n2 * 60 + two_digits s1 s2 in
    Return {| GithubService.instant := seconds * 1000000;
              GithubService.aware := true |}
  | _ => Raise (ValueError (lit "Invalid isoformat string"))
  end%Z.

(** A GitHub API that reports 40 subscribers and 120 commits. *)
Definition sample_repo_info (owner repo_name : str) : result dict :=
  Return [ (lit "success", JBool true);
           (lit "repo_info", JObject [ (lit "subscribers_count", JInt 40) ]) ].

Definition sample_commits (owner repo_name since : str)
  : result GithubService.commits_data :=
  Return {| GithubService.total_commits := 120;
            GithubService.commits_by_author := JObject [];
            GithubService.commits_by_day := JObject [];
            GithubService.most_active_day := JNull;
            GithubService.most_active_author := JNull |}.

Definition sample_contributors (owner repo_name : str)
  : result GithubService.contributors_data :=
  Return {| GithubService.contributors := JArray [];
            GithubService.total_contributors := 0 |}.

Definition sample_github_analyze (start finish : str) : result dict :=
  GithubService.analyze_repository sample_fromisoformat sample_repo_info
    sample_commits sample_contributors
    (fun _ _ _ => JObject []) (fun _ _ _ => JObject []) (fun _ _ => JObject [])
    {| GithubService.owner := lit "octocat";
       GithubService.repo_name := lit "repo";
       GithubService.start_date := start;
       GithubService.end_date := finish |}.

(** A database that holds one analysis of [octocat/repo], and a request
    to save another one. *)
Definition stored_row : Database.stats_row :=
  {| Database.row_id := 1;
     Database.row_owner := lit "octocat";
     Database.row_repo_name := lit "repo";
     Database.row_total_commits := 1;
     Database.row_total_contributors := 1;
     Database.row_avg_commits_per_day := Some (float_of_int 1);
     Database.row_analysis_period_days := 1;
     Database.row_activity_index := Some (float_of_int 100);
     Database.row_timestamp := lit "2024-01-01 00:00:00";
     Database.row_additional_data := None |}.


Definition sample_save : Database.StatsSaveRequest :=
  {| Database.owner := lit "octocat";
     Database.repo_name := lit "repo";
     Database.total_commits := 120;
     Database.total_contributors := 3;
     Database.avg_commits_per_day := float_of_int 4;
     Database.analysis_period_days := 30;
     Database.activity_index := float_of_int 300;
     Database.additional_data := None |}.


(** A table with three analyses, the two of [octocat/repo] made in the same
    second. *)
Definition later_row : Database.stats_row :=
  {| Database.row_id := 2;
     Database.row_owner := lit "octocat";
     Database.row_repo_name := lit "repo";
     Database.row_total_commits := 5;
     Database.row_total_contributors := 2;
     Database.row_avg_commits_per_day := Some (float_of_int 1);
     Database.row_analysis_period_days := 5;
     Database.row_activity_index := Some (float_of_int 50);
     Database.row_timestamp := lit "2024-01-01 00:00:00";
     Database.row_additional_data := None |}.

Definition other_row : Database.stats_row :=
  {| Database.row_id := 3;
     Database.row_owner := lit "python";
     Database.row_repo_name := lit "cpython";
     Database.row_total_commits := 900;
     Database.row_total_contributors := 40;
     Database.row_avg_commits_per_day := Some (float_of_int 30);
     Database.row_analysis_period_days := 30;
     Database.row_activity_index := Some (float_of_int 60);
     Database.row_timestamp := lit "2024-02-01 12:00:00";
     Database.row_additional_data := None |}.

Definition three_rows : Database.database :=
  {| Database.repo_stats := [stored_row; later_row; other_row]; Database.sqlite_sequence := 3 |}.

(** A clock for the cache: every entry expires at one o'clock on the first
    of January 2024, and [fromisoformat] reads texts without an offset. *)
Definition sample_expires_at_str (utcnow ttl_seconds : Z) : result str :=
  Return (lit "2024-01-01T01:00:00").

Definition naive_fromisoformat (s : str) : result GithubService.datetime :=
  match sample_fromisoformat s with
  | Return d =>
    Return {| GithubService.instant := GithubService.instant d;
              GithubService.aware := false |}
  | Raise e => Raise e
  end.

Definition midnight : Z := 1704067200000000.

Definition cached_row : Database.cache_row :=
  {| Database.cache_id := 1;
     Database.cache_key := lit "octocat/repo";
     Database.cache_data := lit "{}";
     Database.cache_created_at := lit "2023-12-31 23:00:00";
     Database.cache_expires_at := lit "2024-01-01T00:00:00" |}.

Definition sample_cache : Database.cache_table :=
  {| Database.github_cache := [cached_row]; Database.cache_sequence := 1 |}.

(** A network in which the analytics service is down and the two others
    answer their health. *)
Definition health_get (url : str) (params : option dict) : Gateway.http_outcome :=
  if str_eqb url (lit "http://analytics/health")
  then Gateway.NetError (lit "Connection refused")
  else Gateway.Response 200 (Some (JObject [ (lit "status", JString (lit "healthy")) ])).

(** A response with prose around the object. *)
Definition prose_before : str := lit "Here is the report: ".
Definition prose_after : str := lit " Let me know if anything is unclear.".

Import Notions GithubApi.

(** A GitHub API for [octocat/repo]: 250 commits by one author on one
    day, served a hundred to a page; 60 contributors; three pull requests;
    two issues and a pull request on the issues endpoint; two languages. *)
Definition one_commit : json :=
  JObject [ (lit "sha", JString (lit "abc"));
            (lit "commit",
             JObject [ (lit "author",
                        JObject [ (lit "name", JString (lit "Mona"));
                                  (lit "date", JString (lit "2024-01-02T03:04:05Z")) ]) ]) ].

Definition many_commits : list json := repeat one_commit 250.

Definition one_contributor : json :=
  JObject [ (lit "login", JString (lit "mona")); (lit "contributions", JInt 7) ].

Definition some_pulls : list json :=
  [ JObject [ (lit "state", JString (lit "open")) ];
    JObject [ (lit "state", JString (lit "closed"));
              (lit "merged_at", JString (lit "2024-01-03T00:00:00Z")) ];
    JObject [ (lit "state", JString (lit "closed")); (lit "merged_at", JNull) ] ].

Definition broken_pulls : list json :=
  [ JObject [ (lit "state", JString (lit "open")) ]; JObject [ (lit "title", JString []) ] ].

Definition some_issues : list json :=
  [ JObject [ (lit "state", JString (lit "open"));
              (lit "labels", JArray [ JObject [ (lit "name", JString (lit "bug")) ] ]) ];
    JObject [ (lit "state", JString (lit "closed"));
              (lit "labels", JArray [ JObject [ (lit "name", JString (lit "bug")) ];
                                      JObject [ (lit "name", JString (lit "docs")) ] ]) ];
    JObject [ (lit "state", JString (lit "open"));
              (lit "pull_request", JObject []);
              (lit "labels", JArray []) ] ].

Definition some_languages : list (str * Z) :=
  [ (lit "Shell", 300); (lit "Python", 700); (lit "Rocq", 700) ].

Definition page_param (params : option dict) : Z :=
  match params with
  | Some p =>
    match dict_get (lit "page") p with
    | Some (JInt n) => n
    | _ => 1
    end
  | None => 1
  end.

Definition sample_github (endpoint : str) (params : option dict) : result json :=
  if str_eqb endpoint (lit "repos/octocat/repo/commits")
  then Return (JArray (page_of many_commits (page_param params)))
  else if str_eqb endpoint (lit "repos/octocat/repo/contributors")
  then Return (JArray (repeat one_contributor 60))
  else if str_eqb endpoint (lit "repos/octocat/repo/pulls")
  then Return (JArray some_pulls)
  else if str_eqb endpoint (lit "repos/octocat/broken/pulls")
  then Return (JArray broken_pulls)
  else if str_eqb endpoint (lit "repos/octocat/repo/issues")
  then Return (JArray some_issues)
  else if str_eqb endpoint (lit "repos/octocat/repo/languages")
  then Return (JObject (int_values some_languages))
  else Raise (HTTPException 404 (lit "Repository not found")).

Definition sample_subscript_error (v : json) : exn :=
  TypeError (lit "object is not subscriptable").

Definition sample_slice_error : exn := TypeError (lit "unhashable type: 'slice'").

Definition sample_float_sum (vs : list json) : option json := None.


(** Networks in which the GitHub service answers and a later stage
    fails: the analytics service times out, or it answers and the
    database service returns an error status. *)
Definition analytics_down_post (url : str) (body : option json) : Gateway.http_outcome :=
  if str_eqb url (lit "http://github/analyze")
  then Gateway.Response 200 (Some (JObject sample_gh))
  else Gateway.NetTimeout.

Definition database_down_post (url : str) (body : option json) : Gateway.http_outcome :=
  if str_eqb url (lit "http://github/analyze")
  then Gateway.Response 200 (Some (JObject sample_gh))
  else if str_eqb url (lit "http://analytics/analyze")
  then Notions.analytics_endpoint sample_key sample_str
         sample_dumps refusing sample_interpreter body
  else Gateway.Response 500 None.

(** A table of 45 analyses and a gateway that passes on the answers of
    the database service for its three pages. *)
Definition many_rows : Database.database :=
  {| Database.repo_stats := repeat stored_row 45;
     Database.sqlite_sequence := 45 |}.

Definition sample_call_api (endpoint : str) : result json :=
  if str_eqb endpoint (WebClient.history_endpoint 1) then history_answer many_rows 1
  else if str_eqb endpoint (WebClient.history_endpoint 2) then history_answer many_rows 2
  else if str_eqb endpoint (WebClient.history_endpoint 3) then history_answer many_rows 3
  else Raise (HTTPException 502 (lit "API unavailable")).

Definition sample_float_pages (x : float) : result json :=
  Raise (TypeError (lit "unused")).

(** Every character beyond ASCII counts as a letter. *)
Definition sample_alnum (c : N) : bool := true.


End Samples.

(* ================================================================== *)
(** * Facts about strings and dicts *)
(* ================================================================== *)

Import Py Json.

Lemma str_eqb_eq (a b : str) : str_eqb a b = true <-> a = b.
Proof.
  revert b; induction a as [|x a IH]; intros [|y b]; simpl; split; intro H;
    try reflexivity; try discriminate.
  - apply andb_true_iff in H as [Hxy Hab].
    apply N.eqb_eq in Hxy. apply IH in Hab. congruence.
  - injection H as -> ->. rewrite N.eqb_refl. simpl. now apply IH.
Qed.

Lemma str_eqb_refl (a : str) : str_eqb a a = true.
Proof. now apply str_eqb_eq. Qed.

Lemma str_eqb_neq (a b : str) : str_eqb a b = false <-> a <> b.
Proof.
  split; intro H.
  - intro E. apply str_eqb_eq in E. congruence.
  - destruct (str_eqb a b) eqn:E; [|reflexivity].
    apply str_eqb_eq in E. contradiction.
Qed.

Lemma dict_get_set_same (k : str) (v : json) (d : dict) :
  dict_get k (dict_set k v d) = Some v.
Proof.
  induction d as [|[k' v'] d IH]; simpl.
  - now rewrite str_eqb_refl.
  - destruct (str_eqb k k') eqn:E; simpl; rewrite E; auto.
Qed.

Lemma dict_get_set_other (k k' : str) (v : json) (d : dict) :
  k <> k' -> dict_get k' (dict_set k v d) = dict_get k' d.
Proof.
  intro Hne. induction d as [|[k0 v0] d IH]; simpl.
  - destruct (str_eqb k' k) eqn:E; [|reflexivity].
    apply str_eqb_eq in E. congruence.
  - destruct (str_eqb k k0) eqn:E; simpl.
    + apply str_eqb_eq in E. subst k0.
      destruct (str_eqb k' k) eqn:E'; [|reflexivity].
      apply str_eqb_eq in E'. congruence.
    + now rewrite IH.
Qed.

(* ================================================================== *)
(** * Facts about the decoder *)
(* ================================================================== *)

Import Notions.


Lemma skip_ws_split (s : str) :
  exists w, s = w ++ skip_ws s /\ all_ws w.
Proof.
  induction s as [|c s (w & Hs & Hw)]; simpl.
  - exists []. split; [reflexivity | constructor].
  - destruct (is_json_ws c) eqn:E.
    + exists (c :: w). split; [simpl; congruence | constructor; assumption].
    + exists []. split; [reflexivity | constructor].
Qed.

Lemma skip_ws_length (s : str) : List.length (skip_ws s) <= List.length s.
Proof.
  destruct (skip_ws_split s) as (w & Hs & _).
  rewrite Hs at 2. rewrite length_app. lia.
Qed.

Lemma skip_ws_shorter (s : str) (d : N) (r : str) :
  skip_ws s = d :: r -> List.length r < List.length s.
Proof.
  intro H. pose proof (skip_ws_length s) as Hl. rewrite H in Hl. simpl in Hl. lia.
Qed.

Lemma skip_ws_app (w x : str) : all_ws w -> skip_ws (w ++ x) = skip_ws x.
Proof.
  induction 1 as [|c w Hc _ IH]; simpl; [reflexivity|]. now rewrite Hc.
Qed.

Lemma skip_ws_head (s : str) (d : N) (r : str) :
  skip_ws s = d :: r -> is_json_ws d = false.
Proof.
  induction s as [|c s IH]; simpl; [discriminate|].
  destruct (is_json_ws c) eqn:E; [assumption|].
  intros [= -> _]. assumption.
Qed.

Lemma skip_ws_stop (d : N) (x : str) :
  is_json_ws d = false -> skip_ws (d :: x) = d :: x.
Proof. intro H. simpl. now rewrite H. Qed.

Lemma skip_ws_all (w : str) : all_ws w -> skip_ws w = [].
Proof. intro H. rewrite <- (app_nil_r w). now rewrite skip_ws_app. Qed.

Lemma skip_ws_nil_all (s : str) : skip_ws s = [] -> all_ws s.
Proof.
  intro H. destruct (skip_ws_split s) as (w & Hs & Hw).
  rewrite H, app_nil_r in Hs. now subst.
Qed.

(** What follows a run of whitespace is found again after truncation. *)
Lemma skip_ws_found (s : str) (d : N) (r : str) :
  skip_ws s = d :: r ->
  exists w, s = w ++ d :: r /\ forall x, skip_ws (w ++ d :: x) = d :: x.
Proof.
  intro H. destruct (skip_ws_split s) as (w & Hs & Hw).
  exists w. rewrite H in Hs. split; [assumption|].
  intro x. rewrite skip_ws_app by assumption.
  apply skip_ws_stop. eapply skip_ws_head; eassumption.
Qed.

Lemma strip_prefix_app (p s r : str) :
  strip_prefix p s = Some r -> s = p ++ r.
Proof.
  revert s; induction p as [|a p IH]; intros [|b s]; simpl; try discriminate.
  - now intros [= <-].
  - now intros [= <-].
  - destruct (a =? b)%N eqn:E; [|discriminate].
    apply N.eqb_eq in E. subst. intro H. f_equal. now apply IH.
Qed.

Lemma strip_prefix_refl (p r : str) : strip_prefix p (p ++ r) = Some r.
Proof.
  induction p as [|a p IH]; simpl; [reflexivity|]. now rewrite N.eqb_refl.
Qed.

Lemma strip_prefix_extend (p q z r : str) :
  strip_prefix p q = Some r -> strip_prefix p (q ++ z) = Some (r ++ z).
Proof.
  intro H. apply strip_prefix_app in H. subst.
  rewrite <- app_assoc. apply strip_prefix_refl.
Qed.

Lemma strip_prefix_truncate (p q z : str) :
  strip_prefix p (q ++ z) = None -> strip_prefix p q = None.
Proof.
  intro H. destruct (strip_prefix p q) as [r|] eqn:E; [|reflexivity].
  apply strip_prefix_extend with (z := z) in E. congruence.
Qed.

Lemma app_prefix_cases (A : Type) (y z : list A) (c : A) (s : list A) :
  c :: s = y ++ z -> y = [] \/ exists y', y = c :: y' /\ s = y' ++ z.
Proof.
  destruct y as [|c' y']; simpl; [now left|].
  intros [= <- ->]. right. eauto.
Qed.

Lemma span_digits_spec (s ds r : str) :
  span_digits s = (ds, r) ->
  s = ds ++ r /\ forall y z, r = y ++ z -> span_digits (ds ++ y) = (ds, y).
Proof.
  revert ds r; induction s as [|c s IH]; intros ds r; simpl.
  - intros [= <- <-]. split; [reflexivity|].
    intros y z H. symmetry in H. apply app_eq_nil in H as [-> _]. reflexivity.
  - destruct (is_digit c) eqn:E.
    + destruct (span_digits s) as [ds' r'] eqn:Es. intros [= <- <-].
      destruct (IH _ _ eq_refl) as [-> Hy]. split; [reflexivity|].
      intros y z H. simpl. rewrite E, (Hy y z H). reflexivity.
    + intros [= <- <-]. split; [reflexivity|].
      intros y z H. apply app_prefix_cases in H as [->|(y' & -> & _)]; simpl.
      * reflexivity.
      * now rewrite E.
Qed.

Lemma span_digits_none (r r' : str) :
  span_digits r = ([], r') -> forall y z, r = y ++ z -> span_digits y = ([], y).
Proof.
  intros H y z Hr. apply span_digits_spec in H as [E H]. simpl in E. subst r'.
  exact (H y z Hr).
Qed.

Lemma scan_int_part_spec (s ds r : str) :
  scan_int_part s = Some (ds, r) ->
  s = ds ++ r /\ ds <> [] /\
  forall y z, r = y ++ z -> scan_int_part (ds ++ y) = Some (ds, y).
Proof.
  destruct s as [|c s]; simpl; [discriminate|].
  destruct (c =? 48)%N eqn:E0.
  - intros [= <- <-]. repeat split; [discriminate|].
    intros y z _. simpl. now rewrite E0.
  - destruct (is_digit c) eqn:Ed; [|discriminate].
    destruct (span_digits s) as [ds' r'] eqn:Es. intros [= <- <-].
    apply span_digits_spec in Es as [-> Hy].
    repeat split; [discriminate|].
    intros y z H. simpl. rewrite E0, Ed, (Hy y z H). reflexivity.
Qed.

Lemma scan_int_part_truncate (q z : str) :
  q <> [] -> scan_int_part (q ++ z) = None -> scan_int_part q = None.
Proof.
  destruct q as [|c q]; [congruence|]. intros _. simpl.
  destruct (c =? 48)%N; [discriminate|].
  destruct (is_digit c); [|reflexivity].
  destruct (span_digits (q ++ z)). discriminate.
Qed.

Lemma scan_frac_spec (s ds r : str) :
  scan_frac s = Some (ds, r) ->
  exists c, s = c ++ r /\ forall y z, r = y ++ z -> scan_frac (c ++ y) = Some (ds, y).
Proof.
  destruct s as [|c s]; simpl; [discriminate|].
  destruct (c =? 46)%N eqn:E; [|discriminate].
  destruct (span_digits s) as [[|d ds'] r'] eqn:Es; [discriminate|].
  intros [= <- <-]. apply span_digits_spec in Es as [-> Hy].
  exists (c :: d :: ds'). split; [reflexivity|].
  intros y z H. simpl app. cbn [scan_frac]. rewrite E.
  change (d :: ds' ++ y) with ((d :: ds') ++ y). rewrite (Hy y z H). reflexivity.
Qed.

Lemma scan_frac_fails (r : str) :
  scan_frac r = None -> fails_on_prefixes scan_frac r.
Proof.
  intros H y z Hr. destruct r as [|c s].
  - symmetry in Hr. apply app_eq_nil in Hr as [-> _]. reflexivity.
  - apply app_prefix_cases in Hr as [->|(y' & -> & Hs)]; [reflexivity|].
    simpl in *. destruct (c =? 46)%N; [|reflexivity].
    destruct (span_digits s) as [[|d ds'] r'] eqn:Es; [|discriminate].
    now rewrite (span_digits_none Es y' z Hs).
Qed.

Lemma scan_exp_spec (s : str) (e : Z) (r : str) :
  scan_exp s = Some (e, r) ->
  exists c, s = c ++ r /\ forall y z, r = y ++ z -> scan_exp (c ++ y) = Some (e, y).
Proof.
  destruct s as [|c s]; simpl; [discriminate|].
  destruct ((c =? 101) || (c =? 69))%N eqn:E; [|discriminate].
  destruct (scan_sign s) as [neg s2] eqn:Esg.
  destruct (span_digits s2) as [[|d ds'] r'] eqn:Es; [discriminate|].
  intros [= <- <-]. apply span_digits_spec in Es as [Hs2 Hy].
  assert (Hsign : exists cs, s = cs ++ s2 /\
            forall x, scan_sign (cs ++ d :: x) = (neg, d :: x)).
  { unfold scan_sign in Esg. destruct s as [|c1 s1].
    - injection Esg as <- <-. discriminate.
    - destruct (c1 =? 45)%N eqn:E45.
      + injection Esg as <- <-. exists [c1]. split; [reflexivity|].
        intro x. simpl. now rewrite E45.
      + destruct (c1 =? 43)%N eqn:E43.
        * injection Esg as <- <-. exists [c1]. split; [reflexivity|].
          intro x. simpl. now rewrite E45, E43.
        * injection Esg as <- <-. exists []. split; [reflexivity|].
          intro x. injection Hs2 as -> _. simpl. now rewrite E45, E43. }
  destruct Hsign as (cs & -> & Hsg). subst s2.
  exists (c :: cs ++ d :: ds'). split.
  { simpl. now rewrite <- app_assoc. }
  intros y z H. simpl app. cbn [scan_exp]. rewrite E.
  rewrite <- app_assoc. simpl app. rewrite (Hsg (ds' ++ y)).
  change (d :: ds' ++ y) with ((d :: ds') ++ y).
  rewrite (Hy y z H). reflexivity.
Qed.

Lemma scan_exp_fails (r : str) :
  scan_exp r = None -> fails_on_prefixes scan_exp r.
Proof.
  intros H y z Hr. destruct r as [|c s].
  - symmetry in Hr. apply app_eq_nil in Hr as [-> _]. reflexivity.
  - apply app_prefix_cases in Hr as [->|(y' & -> & Hs)]; [reflexivity|].
    simpl in *. destruct ((c =? 101) || (c =? 69))%N; [|reflexivity].
    destruct (scan_sign s) as [neg s2] eqn:Esg.
    destruct (span_digits s2) as [[|d ds'] r'] eqn:Es; [|discriminate].
    assert (Hy : exists neg' y2 z2, scan_sign y' = (neg', y2) /\ s2 = y2 ++ z2).
    { unfold scan_sign in *. destruct y' as [|c1 y1].
      - exists false, [], s2. split; reflexivity.
      - simpl in Hs. subst s.
        destruct (c1 =? 45)%N.
        + injection Esg as <- <-. exists true, y1, z. split; reflexivity.
        + destruct (c1 =? 43)%N.
          * injection Esg as <- <-. exists false, y1, z. split; reflexivity.
          * injection Esg as <- <-. exists false, (c1 :: y1), z. split; reflexivity. }
    destruct Hy as (neg' & y2 & z2 & -> & Hs2).
    now rewrite (span_digits_none Es y2 z2 Hs2).
Qed.

Lemma scan_minus_spec (s : str) (neg : bool) (s1 : str) :
  scan_minus s = (neg, s1) ->
  exists cm, s = cm ++ s1 /\
    forall x, x <> [] -> hd_error x = hd_error s1 -> scan_minus (cm ++ x) = (neg, x).
Proof.
  unfold scan_minus. destruct s as [|c s'].
  - intros [= <- <-]. exists []. split; [reflexivity|].
    intros [|a x] Hx Hh; [congruence | discriminate].
  - destruct (c =? 45)%N eqn:E.
    + intros [= <- <-]. exists [c]. split; [reflexivity|].
      intros x _ _. simpl. now rewrite E.
    + intros [= <- <-]. exists []. split; [reflexivity|].
      intros [|a x] Hx Hh; [congruence|]. simpl in *.
      injection Hh as ->. now rewrite E.
Qed.

Section Scanners.

Variable max_digits : nat.

Lemma match_number_local (s : str) (v : result json) (r : str) :
  match_number max_digits s = Some (v, r) -> local (match_number max_digits) s v r.
Proof.
  unfold match_number.
  destruct (scan_minus s) as [neg s1] eqn:Em.
  destruct (scan_int_part s1) as [[ids r1]|] eqn:Ei; [|discriminate].
  apply scan_minus_spec in Em as (cm & -> & Hm).
  apply scan_int_part_spec in Ei as (-> & Hne & Hi).
  assert (Hm' : forall x, scan_minus (cm ++ ids ++ x) = (neg, ids ++ x)).
  { intro x. apply Hm.
    - destruct ids; [congruence | discriminate].
    - destruct ids; [congruence | reflexivity]. }
  assert (Hc : forall c', cm ++ ids ++ c' <> []).
  { intros c' H. apply app_eq_nil in H as [_ H].
    apply app_eq_nil in H as [H _]. congruence. }
  destruct (scan_frac r1) as [[fds r2]|] eqn:Ef.
  - apply scan_frac_spec in Ef as (cf & -> & Hf).
    destruct (scan_exp r2) as [[e r3]|] eqn:Ee.
    + apply scan_exp_spec in Ee as (ce & -> & He).
      intros [= <- <-]. exists (cm ++ ids ++ cf ++ ce).
      split; [now rewrite <- !app_assoc|]. split.
      { apply (Hc (cf ++ ce)). }
      intros y z Hr. rewrite <- !app_assoc. rewrite Hm'.
      rewrite (Hi (cf ++ ce ++ y) z) by (rewrite Hr, <- !app_assoc; reflexivity).
      rewrite (Hf (ce ++ y) z) by (rewrite Hr, <- !app_assoc; reflexivity).
      rewrite (He y z Hr). reflexivity.
    + intros [= <- <-]. exists (cm ++ ids ++ cf).
      split; [now rewrite <- !app_assoc|]. split.
      { apply (Hc cf). }
      intros y z Hr. rewrite <- !app_assoc. rewrite Hm'.
      rewrite (Hi (cf ++ y) z) by (rewrite Hr, <- !app_assoc; reflexivity).
      rewrite (Hf y z Hr).
      rewrite (scan_exp_fails Ee y z Hr). reflexivity.
  - destruct (scan_exp r1) as [[e r3]|] eqn:Ee.
    + pose proof Ee as Ee'.
      apply scan_exp_spec in Ee as (ce & -> & He).
      intros [= <- <-]. exists (cm ++ ids ++ ce).
      split; [now rewrite <- !app_assoc|]. split.
      { apply (Hc ce). }
      intros y z Hr. rewrite <- !app_assoc. rewrite Hm'.
      rewrite (Hi (ce ++ y) z) by (rewrite Hr, <- !app_assoc; reflexivity).
      rewrite (scan_frac_fails Ef (ce ++ y) z)
        by (rewrite Hr, <- !app_assoc; reflexivity).
      rewrite (He y z Hr). reflexivity.
    + intros [= <- <-]. exists (cm ++ ids).
      split; [now rewrite <- !app_assoc|]. split.
      { specialize (Hc []). now rewrite app_nil_r in Hc. }
      intros y z Hr. rewrite <- !app_assoc. rewrite Hm'.
      rewrite (Hi y z Hr).
      rewrite (scan_frac_fails Ef y z Hr), (scan_exp_fails Ee y z Hr).
      reflexivity.
Qed.

Lemma match_number_truncate (q z : str) :
  q <> [] -> match_number max_digits (q ++ z) = None -> match_number max_digits q = None.
Proof.
  intros Hq. unfold match_number, scan_minus.
  destruct q as [|c q]; [congruence|]. simpl.
  destruct (c =? 45)%N.
  - destruct (scan_int_part (q ++ z)) as [[ids r1]|] eqn:Ei.
    { destruct (scan_frac r1) as [[]|]; destruct (scan_exp _) as [[]|]; discriminate. }
    intros _. destruct q as [|c' q]; [reflexivity|].
    rewrite (@scan_int_part_truncate (c' :: q) z); [reflexivity|discriminate|assumption].
  - change (c :: q ++ z) with ((c :: q) ++ z).
    destruct (scan_int_part ((c :: q) ++ z)) as [[ids r1]|] eqn:Ei.
    { destruct (scan_frac r1) as [[]|]; destruct (scan_exp _) as [[]|]; discriminate. }
    intros _.
    rewrite (@scan_int_part_truncate (c :: q) z); [reflexivity|discriminate|assumption].
Qed.

Lemma scan_scalar_local (s : str) (v : result json) (r : str) :
  scan_scalar max_digits s = Some (v, r) -> local (scan_scalar max_digits) s v r.
Proof.
  unfold scan_scalar.
  destruct (strip_prefix NULL s) as [r0|] eqn:E1.
  { intros [= <- <-]. apply strip_prefix_app in E1 as ->.
    exists NULL. split; [reflexivity|]. split; [discriminate|].
    intros y z _. now rewrite strip_prefix_refl. }
  destruct (strip_prefix TRUE s) as [r0|] eqn:E2.
  { intros [= <- <-]. apply strip_prefix_app in E2 as ->.
    exists TRUE. split; [reflexivity|]. split; [discriminate|].
    intros y z _. now rewrite strip_prefix_refl. }
  destruct (strip_prefix FALSE s) as [r0|] eqn:E3.
  { intros [= <- <-]. apply strip_prefix_app in E3 as ->.
    exists FALSE. split; [reflexivity|]. split; [discriminate|].
    intros y z _. now rewrite strip_prefix_refl. }
  destruct (match_number max_digits s) as [[v0 r0]|] eqn:E4.
  { intros [= <- <-]. apply match_number_local in E4 as (c & -> & Hc & Hy).
    exists c. split; [reflexivity|]. split; [assumption|].
    intros y z Hr. subst r0. rewrite app_assoc in E1, E2, E3.
    rewrite (strip_prefix_truncate _ _ _ E1), (strip_prefix_truncate _ _ _ E2),
      (strip_prefix_truncate _ _ _ E3), (Hy y z eq_refl). reflexivity. }
  destruct (strip_prefix NAN s) as [r0|] eqn:E5.
  { intros [= <- <-]. apply strip_prefix_app in E5 as ->.
    exists NAN. split; [reflexivity|]. split; [discriminate|].
    intros y z ->. rewrite app_assoc in E1, E2, E3, E4.
    rewrite (strip_prefix_truncate _ _ _ E1), (strip_prefix_truncate _ _ _ E2),
      (strip_prefix_truncate _ _ _ E3).
    rewrite (@match_number_truncate (NAN ++ y) z) by (assumption || discriminate).
    now rewrite strip_prefix_refl. }
  destruct (strip_prefix INFINITY s) as [r0|] eqn:E6.
  { intros [= <- <-]. apply strip_prefix_app in E6 as ->.
    exists INFINITY. split; [reflexivity|]. split; [discriminate|].
    intros y z ->. rewrite app_assoc in E1, E2, E3, E4, E5.
    rewrite (strip_prefix_truncate _ _ _ E1), (strip_prefix_truncate _ _ _ E2),
      (strip_prefix_truncate _ _ _ E3), (strip_prefix_truncate _ _ _ E5).
    rewrite (@match_number_truncate (INFINITY ++ y) z) by (assumption || discriminate).
    now rewrite strip_prefix_refl. }
  destruct (strip_prefix NEG_INFINITY s) as [r0|] eqn:E7; [|discriminate].
  intros [= <- <-]. apply strip_prefix_app in E7 as ->.
  exists NEG_INFINITY. split; [reflexivity|]. split; [discriminate|].
  intros y z ->. rewrite app_assoc in E1, E2, E3, E4, E5, E6.
  rewrite (strip_prefix_truncate _ _ _ E1), (strip_prefix_truncate _ _ _ E2),
    (strip_prefix_truncate _ _ _ E3), (strip_prefix_truncate _ _ _ E5),
    (strip_prefix_truncate _ _ _ E6).
  rewrite (@match_number_truncate (NEG_INFINITY ++ y) z) by (assumption || discriminate).
  now rewrite strip_prefix_refl.
Qed.

Lemma scan_scalar_not_object (s : str) (d : dict) (r : str) :
  scan_scalar max_digits s <> Some (Return (JObject d), r).
Proof.
  unfold scan_scalar, match_number, int_of_digits.
  repeat match goal with
  | |- context [if too_many_digits ?m ?ds then _ else _] =>
      destruct (too_many_digits m ds)
  | |- context [match strip_prefix ?p ?s with _ => _ end] =>
      destruct (strip_prefix p s)
  | |- context [let (_, _) := scan_minus ?s in _] => destruct (scan_minus s)
  | |- context [match scan_int_part ?s with _ => _ end] =>
      destruct (scan_int_part s) as [[]|]
  | |- context [match scan_frac ?s with _ => _ end] =>
      destruct (scan_frac s) as [[]|]
  | |- context [match scan_exp ?s with _ => _ end] =>
      destruct (scan_exp s) as [[]|]
  end; discriminate.
Qed.

Lemma push_some (u : unit) (o : option (list unit * str)) (us : list unit) (r : str) :
  push u o = Some (us, r) -> exists us', o = Some (us', r) /\ us = u :: us'.
Proof.
  destruct o as [[us' r']|]; simpl; [|discriminate].
  intros [= <- <-]. eauto.
Qed.

Lemma scan_units_local_len (n : nat) (s : str) (us : list unit) (r : str) :
  List.length s <= n ->
  scan_units s = Some (us, r) -> local scan_units s us r.
Proof.
  revert s us r. induction n as [|n IH]; intros s us r Hlen.
  { destruct s; [discriminate | simpl in Hlen; lia]. }
  destruct s as [|c s']; [discriminate|]. simpl in Hlen. cbn [scan_units].
  destruct (c =? 34)%N eqn:E34.
  { intros [= <- <-]. exists [c]. split; [reflexivity|]. split; [discriminate|].
    intros y z _. simpl. now rewrite E34. }
  destruct (c =? 92)%N eqn:E92.
  - destruct s' as [|e s'']; [discriminate|]. simpl in Hlen.
    destruct (e =? 117)%N eqn:Eu.
    + destruct s'' as [|h1 [|h2 [|h3 [|h4 r0]]]]; try discriminate.
      simpl in Hlen.
      destruct (hex4 h1 h2 h3 h4) as [uni|] eqn:Eh; [|discriminate].
      intro H. apply push_some in H as (us' & H & ->).
      apply IH in H as (c0 & -> & _ & Hy); [|lia].
      exists (c :: e :: h1 :: h2 :: h3 :: h4 :: c0).
      split; [reflexivity|]. split; [discriminate|].
      intros y z Hr. simpl app. cbn [scan_units].
      rewrite E34, E92, Eu, Eh, (Hy y z Hr). reflexivity.
    + destruct (simple_escape e) as [chr|] eqn:Ee; [|discriminate].
      intro H. apply push_some in H as (us' & H & ->).
      apply IH in H as (c0 & -> & _ & Hy); [|lia].
      exists (c :: e :: c0).
      split; [reflexivity|]. split; [discriminate|].
      intros y z Hr. simpl app. cbn [scan_units].
      rewrite E34, E92, Eu, Ee, (Hy y z Hr). reflexivity.
  - destruct (c <? 32)%N eqn:Ec; [discriminate|].
    intro H. apply push_some in H as (us' & H & ->).
    apply IH in H as (c0 & -> & _ & Hy); [|lia].
    exists (c :: c0).
    split; [reflexivity|]. split; [discriminate|].
    intros y z Hr. simpl app. cbn [scan_units].
    rewrite E34, E92, Ec, (Hy y z Hr). reflexivity.
Qed.

Lemma scanstring_local (s body r : str) :
  scanstring s = Some (body, r) -> local scanstring s body r.
Proof.
  unfold scanstring.
  destruct (scan_units s) as [[us r']|] eqn:E; [|discriminate].
  intros [= <- <-].
  apply (@scan_units_local_len (List.length s)) in E as (c & -> & Hc & Hy); [|lia].
  exists c. split; [reflexivity|]. split; [assumption|].
  intros y z Hr. now rewrite (Hy y z Hr).
Qed.


Lemma skip_ws_resume (s c r : str) :
  skip_ws s = c ++ r -> c <> [] ->
  exists w, s = w ++ c ++ r /\ forall x, skip_ws (w ++ c ++ x) = c ++ x.
Proof.
  intros H Hc. destruct c as [|d c']; [congruence|].
  simpl in H. apply skip_ws_found in H as (w & -> & Hw).
  exists w. split; [reflexivity|]. intro x. simpl. apply Hw.
Qed.

Lemma local_head (A : Type) (f : str -> option (A * str)) (c0 : N) (s' : str)
  (a : A) (r : str) :
  local f (c0 :: s') a r ->
  exists c', c0 :: s' = (c0 :: c') ++ r /\
    forall y z, r = y ++ z -> f (c0 :: c' ++ y) = Some (a, y).
Proof.
  intros (c & Hs & Hc & Hy). destruct c as [|x c']; [congruence|].
  simpl in Hs. injection Hs as <- ->.
  exists c'. split; [reflexivity|]. exact Hy.
Qed.

Ltac norm_length H :=
  repeat (progress (rewrite ?length_app in H; simpl in H)).

Ltac norm_app := repeat (progress (rewrite <- ?app_assoc; cbn [app])).

Ltac fuel_step m :=
  match goal with
  | H : _ <= m |- _ =>
    destruct m as [|m]; [simpl in H; lia|]
  end.

Lemma scan_consumes (n : nat) :
  (forall depth s v r, scan_once max_digits depth n s = Return (v, r) ->
     consumes (scan_once max_digits depth) 0 s v r) /\
  (forall depth s vs r, scan_items max_digits depth n s = Return (vs, r) ->
     consumes (scan_items max_digits depth) 1 s vs r) /\
  (forall depth s ms r, scan_members max_digits depth n s = Return (ms, r) ->
     consumes (scan_members max_digits depth) 1 s ms r).
Proof.
  induction n as [|n (IHv & IHi & IHm)].
  { repeat split; intros; discriminate. }
  split; [|split].
  - (* scan_once *)
    intros depth s v r. destruct s as [|c s']; [discriminate|]. cbn [scan_once].
    destruct (c =? 34)%N eqn:E34.
    { destruct (scanstring s') as [[body r0]|] eqn:Es; [|discriminate].
      intros [= <- <-]. apply scanstring_local in Es as (c0 & -> & _ & Hy).
      exists (c :: c0). split; [reflexivity|]. split; [discriminate|].
      intros y z m Hr Hm. fuel_step m. simpl app. cbn [scan_once].
      rewrite E34, (Hy y z Hr). reflexivity. }
    destruct (c =? 123)%N eqn:E123.
    { destruct depth as [|inner]; [discriminate|].
      destruct (skip_ws s') as [|d s''] eqn:Ew; [discriminate|].
      destruct (d =? 125)%N eqn:E125.
      - intros [= <- <-]. apply skip_ws_found in Ew as (w & -> & Hw).
        exists (c :: w ++ [d]). split; [norm_app; reflexivity|].
        split; [discriminate|].
        intros y z m Hr Hm. fuel_step m. simpl app. cbn [scan_once].
        rewrite E34, E123. rewrite <- app_assoc. simpl app.
        rewrite Hw, E125. reflexivity.
      - destruct (scan_members max_digits inner n (d :: s'')) as [[ms r0]|] eqn:Em;
          [|discriminate].
        intros [= <- <-]. apply IHm in Em as (cm & Hs & Hcm & Hy).
        rewrite Hs in Ew. apply skip_ws_resume in Ew as (w & -> & Hw); [|assumption].
        exists (c :: w ++ cm). split; [norm_app; reflexivity|].
        split; [discriminate|].
        intros y z m Hr Hm. fuel_step m. simpl app. cbn [scan_once].
        rewrite E34, E123. norm_app. rewrite Hw.
        destruct cm as [|d' cm']; [congruence|]. simpl in Hs. injection Hs as <- Hs.
        cbn [app]. cbv iota. rewrite E125.
        assert (Hfuel : 2 * List.length (d :: cm') + 1 <= m).
        { simpl in Hm. rewrite length_app in Hm. simpl in *. lia. }
        specialize (Hy y z m Hr Hfuel). cbn [app] in Hy. rewrite Hy. reflexivity. }
    destruct (c =? 91)%N eqn:E91.
    { destruct depth as [|inner]; [discriminate|].
      destruct (skip_ws s') as [|d s''] eqn:Ew; [discriminate|].
      destruct (d =? 93)%N eqn:E93.
      - intros [= <- <-]. apply skip_ws_found in Ew as (w & -> & Hw).
        exists (c :: w ++ [d]). split; [norm_app; reflexivity|].
        split; [discriminate|].
        intros y z m Hr Hm. fuel_step m. simpl app. cbn [scan_once].
        rewrite E34, E123, E91. rewrite <- app_assoc. simpl app.
        rewrite Hw, E93. reflexivity.
      - destruct (scan_items max_digits inner n (d :: s'')) as [[vs r0]|] eqn:Em;
          [|discriminate].
        intros [= <- <-]. apply IHi in Em as (cm & Hs & Hcm & Hy).
        rewrite Hs in Ew. apply skip_ws_resume in Ew as (w & -> & Hw); [|assumption].
        exists (c :: w ++ cm). split; [norm_app; reflexivity|].
        split; [discriminate|].
        intros y z m Hr Hm. fuel_step m. simpl app. cbn [scan_once].
        rewrite E34, E123, E91. norm_app. rewrite Hw.
        destruct cm as [|d' cm']; [congruence|]. simpl in Hs. injection Hs as <- Hs.
        cbn [app]. cbv iota. rewrite E93.
        assert (Hfuel : 2 * List.length (d :: cm') + 1 <= m).
        { simpl in Hm. rewrite length_app in Hm. simpl in *. lia. }
        specialize (Hy y z m Hr Hfuel). cbn [app] in Hy. rewrite Hy. reflexivity. }
    destruct (scan_scalar max_digits (c :: s')) as [[[v0|e0] r0]|] eqn:Es;
      try discriminate.
    intros [= <- <-].
    apply scan_scalar_local in Es. apply local_head in Es as (c' & Hs & Hy).
    exists (c :: c'). split; [assumption|]. split; [discriminate|].
    intros y z m Hr Hm. fuel_step m. simpl app. cbn [scan_once].
    rewrite E34, E123, E91, (Hy y z Hr). reflexivity.
  - (* scan_items *)
    intros depth s vs r. cbn [scan_items].
    destruct (scan_once max_digits depth n s) as [[v r1]|] eqn:Ev; [|discriminate].
    apply IHv in Ev as (c1 & -> & Hc1 & Hy1).
    destruct (skip_ws r1) as [|d r'] eqn:Ew; [discriminate|].
    apply skip_ws_found in Ew as (w & -> & Hw).
    destruct (d =? 93)%N eqn:E93.
    + intros [= <- <-]. exists (c1 ++ w ++ [d]).
      split; [norm_app; reflexivity|].
      split; [intro H; apply app_eq_nil in H as [H _]; congruence|].
      intros y z m Hr Hm. fuel_step m. cbn [scan_items].
      norm_app.
      rewrite (Hy1 (w ++ d :: y) z m); [| rewrite Hr; norm_app; reflexivity|].
      * rewrite Hw, E93. reflexivity.
      * norm_length Hm. lia.
    + destruct (d =? 44)%N eqn:E44; [|discriminate].
      destruct (scan_items max_digits depth n (skip_ws r')) as [[vs' r'']|] eqn:Ei;
        [|discriminate].
      intros [= <- <-]. apply IHi in Ei as (c2 & Hs2 & Hc2 & Hy2).
      apply skip_ws_resume in Hs2 as (w' & -> & Hw'); [|assumption].
      exists (c1 ++ w ++ [d] ++ w' ++ c2).
      split; [norm_app; reflexivity|].
      split; [intro H; apply app_eq_nil in H as [H _]; congruence|].
      intros y z m Hr Hm. fuel_step m. cbn [scan_items].
      norm_app.
      rewrite (Hy1 (w ++ d :: w' ++ c2 ++ y) z m);
        [| rewrite Hr; norm_app; reflexivity |].
      * rewrite Hw, E93, E44, Hw'.
        rewrite (Hy2 y z m Hr); [reflexivity|].
        norm_length Hm. lia.
      * norm_length Hm. lia.
  - (* scan_members *)
    intros depth s ms r. destruct s as [|q s1]; [discriminate|]. cbn [scan_members].
    destruct (q =? 34)%N eqn:E34; [|discriminate].
    destruct (scanstring s1) as [[key r1]|] eqn:Ek; [|discriminate].
    apply scanstring_local in Ek as (ck & -> & _ & Hyk).
    destruct (skip_ws r1) as [|colon r2] eqn:Ew1; [discriminate|].
    apply skip_ws_found in Ew1 as (w1 & -> & Hw1).
    destruct (colon =? 58)%N eqn:E58; [|discriminate].
    destruct (scan_once max_digits depth n (skip_ws r2)) as [[v r3]|] eqn:Ev;
      [|discriminate].
    apply IHv in Ev as (cv & Hs2 & Hcv & Hyv).
    apply skip_ws_resume in Hs2 as (w2 & -> & Hw2); [|assumption].
    destruct (skip_ws r3) as [|d r4] eqn:Ew3; [discriminate|].
    apply skip_ws_found in Ew3 as (w3 & -> & Hw3).
    destruct (d =? 125)%N eqn:E125.
    + intros [= <- <-].
      exists (q :: ck ++ w1 ++ [colon] ++ w2 ++ cv ++ w3 ++ [d]).
      split; [norm_app; reflexivity|].
      split; [discriminate|].
      intros y z m Hr Hm. fuel_step m. simpl app. cbn [scan_members].
      rewrite E34. norm_app.
      rewrite (Hyk (w1 ++ colon :: w2 ++ cv ++ w3 ++ d :: y) z);
        [| rewrite Hr; norm_app; reflexivity ].
      rewrite Hw1, E58, Hw2.
      rewrite (Hyv (w3 ++ d :: y) z m);
        [| rewrite Hr; norm_app; reflexivity |].
      * rewrite Hw3, E125. reflexivity.
      * norm_length Hm. lia.
    + destruct (d =? 44)%N eqn:E44; [|discriminate].
      destruct (scan_members max_digits depth n (skip_ws r4)) as [[ms' r5]|] eqn:Em;
        [|discriminate].
      intros [= <- <-]. apply IHm in Em as (c5 & Hs5 & Hc5 & Hy5).
      apply skip_ws_resume in Hs5 as (w4 & -> & Hw4); [|assumption].
      exists (q :: ck ++ w1 ++ [colon] ++ w2 ++ cv ++ w3 ++ [d] ++ w4 ++ c5).
      split; [norm_app; reflexivity|].
      split; [discriminate|].
      intros y z m Hr Hm. fuel_step m. simpl app. cbn [scan_members].
      rewrite E34. norm_app.
      rewrite (Hyk (w1 ++ colon :: w2 ++ cv ++ w3 ++ d :: w4 ++ c5 ++ y) z);
        [| rewrite Hr; norm_app; reflexivity ].
      rewrite Hw1, E58, Hw2.
      rewrite (Hyv (w3 ++ d :: w4 ++ c5 ++ y) z m);
        [| rewrite Hr; norm_app; reflexivity |].
      * rewrite Hw3, E125, E44, Hw4.
        rewrite (Hy5 y z m Hr); [reflexivity|].
        norm_length Hm. lia.
      * norm_length Hm. lia.
Qed.

Lemma scan_once_suffix (depth n : nat) (s : str) (v : json) (r : str) :
  scan_once max_digits depth n s = Return (v, r) -> exists c, s = c ++ r.
Proof.
  intro H. apply (proj1 (scan_consumes n)) in H as (c & Hs & _). eauto.
Qed.

Lemma scan_members_closing (depth n : nat) (s : str) (ms : list (str * json))
  (r : str) :
  scan_members max_digits depth n s = Return (ms, r) -> exists c, s = c ++ RBRACE :: r.
Proof.
  revert s ms r. induction n as [|n IH]; intros s ms r; [discriminate|].
  destruct s as [|q s1]; [discriminate|]. cbn [scan_members].
  destruct (q =? 34)%N; [|discriminate].
  destruct (scanstring s1) as [[key r1]|] eqn:Ek; [|discriminate].
  apply scanstring_local in Ek as (ck & -> & _).
  destruct (skip_ws r1) as [|colon r2] eqn:Ew1; [discriminate|].
  apply skip_ws_found in Ew1 as (w1 & -> & _).
  destruct (colon =? 58)%N; [|discriminate].
  destruct (scan_once max_digits depth n (skip_ws r2)) as [[v r3]|] eqn:Ev;
    [|discriminate].
  apply scan_once_suffix in Ev as (cv & Hcv).
  destruct (skip_ws_split r2) as (w2 & Hr2 & _). rewrite Hcv in Hr2. subst r2.
  destruct (skip_ws r3) as [|d r4] eqn:Ew3; [discriminate|].
  apply skip_ws_found in Ew3 as (w3 & -> & _).
  destruct (d =? 125)%N eqn:E125.
  - intros [= <- <-]. apply N.eqb_eq in E125. subst d.
    exists (q :: ck ++ w1 ++ colon :: w2 ++ cv ++ w3).
    norm_app. reflexivity.
  - destruct (d =? 44)%N; [|discriminate].
    destruct (scan_members max_digits depth n (skip_ws r4)) as [[ms' r5]|] eqn:Em;
      [|discriminate].
    intros [= <- <-]. apply IH in Em as (c5 & Hc5).
    destruct (skip_ws_split r4) as (w4 & Hr4 & _). rewrite Hc5 in Hr4. subst r4.
    exists (q :: ck ++ w1 ++ colon :: w2 ++ cv ++ w3 ++ d :: w4 ++ c5).
    norm_app. reflexivity.
Qed.

(** A text that [scan_once] decodes to an object starts with an opening
    brace, and what it consumes ends with a closing brace. *)
Lemma scan_once_object_shape (depth n : nat) (s : str) (d : dict) (r : str) :
  scan_once max_digits depth n s = Return (JObject d, r) ->
  exists body, s = (LBRACE :: body ++ [RBRACE]) ++ r.
Proof.
  destruct n as [|n]; [discriminate|].
  destruct s as [|c s']; [discriminate|]. cbn [scan_once].
  destruct (c =? 34)%N.
  { destruct (scanstring s') as [[]|]; discriminate. }
  destruct (c =? 123)%N eqn:E123.
  - apply N.eqb_eq in E123. subst c.
    destruct depth as [|inner]; [discriminate|].
    destruct (skip_ws s') as [|d0 s''] eqn:Ew; [discriminate|].
    apply skip_ws_found in Ew as (w & -> & _).
    destruct (d0 =? 125)%N eqn:E125.
    + intros [= <- <-]. apply N.eqb_eq in E125. subst d0.
      exists w. norm_app. reflexivity.
    + destruct (scan_members max_digits inner n (d0 :: s'')) as [[ms r0]|] eqn:Em;
        [|discriminate].
      intros [= _ <-]. apply scan_members_closing in Em as (c5 & ->).
      exists (w ++ c5). norm_app. reflexivity.
  - destruct (c =? 91)%N.
    + destruct depth as [|inner]; [discriminate|].
      destruct (skip_ws s') as [|d0 s'']; [discriminate|].
      destruct (d0 =? 93)%N; [discriminate|].
      destruct (scan_items max_digits inner n (d0 :: s'')) as [[]|]; discriminate.
    + destruct (scan_scalar max_digits (c :: s')) as [[[v0|e0] r0]|] eqn:Es;
        try discriminate.
      intros [= -> <-]. now apply scan_scalar_not_object in Es.
Qed.

(** ** The fuel

    A scanner that returns has consumed a part of the text, so that the
    fuel needed is bounded by the length of the text: beyond that bound
    the fuel does not change what a scanner returns or raises. *)

Lemma scan_once_shorter (depth n : nat) (s : str) (v : json) (r : str) :
  scan_once max_digits depth n s = Return (v, r) -> List.length r < List.length s.
Proof.
  intro H. apply (proj1 (scan_consumes n)) in H as (c & -> & Hc & _).
  rewrite length_app. destruct c; [congruence|]. simpl. lia.
Qed.

Lemma scanstring_shorter (s key r : str) :
  scanstring s = Some (key, r) -> List.length r < List.length s.
Proof.
  intro H. apply scanstring_local in H as (c & -> & Hc & _).
  rewrite length_app. destruct c; [congruence|]. simpl. lia.
Qed.

Lemma scan_fuel (n : nat) :
  (forall depth s m, 2 * List.length s + 1 <= n -> n <= m ->
     scan_once max_digits depth m s = scan_once max_digits depth n s) /\
  (forall depth s m, 2 * List.length s + 2 <= n -> n <= m ->
     scan_items max_digits depth m s = scan_items max_digits depth n s) /\
  (forall depth s m, 2 * List.length s + 1 <= n -> n <= m ->
     scan_members max_digits depth m s = scan_members max_digits depth n s).
Proof.
  induction n as [|n (IHv & IHi & IHm)].
  { repeat split; intros; lia. }
  split; [|split].
  - intros depth s m Hn Hm. destruct m as [|m]; [lia|].
    destruct s as [|c s']; [reflexivity|]. cbn [scan_once]. cbn [List.length] in Hn.
    destruct (c =? 34)%N; [reflexivity|].
    destruct (c =? 123)%N.
    { destruct depth as [|inner]; [reflexivity|].
      destruct (skip_ws s') as [|d s''] eqn:Ew; [reflexivity|].
      destruct (d =? 125)%N; [reflexivity|].
      apply skip_ws_shorter in Ew.
      rewrite (IHm inner (d :: s'') m); [reflexivity| cbn [List.length]; lia | lia]. }
    destruct (c =? 91)%N; [|reflexivity].
    destruct depth as [|inner]; [reflexivity|].
    destruct (skip_ws s') as [|d s''] eqn:Ew; [reflexivity|].
    destruct (d =? 93)%N; [reflexivity|].
    apply skip_ws_shorter in Ew.
    rewrite (IHi inner (d :: s'') m); [reflexivity| cbn [List.length]; lia | lia].
  - intros depth s m Hn Hm. destruct m as [|m]; [lia|]. cbn [scan_items].
    rewrite (IHv depth s m) by lia.
    destruct (scan_once max_digits depth n s) as [[v r1]|e] eqn:Ev; [|reflexivity].
    apply scan_once_shorter in Ev.
    destruct (skip_ws r1) as [|d r'] eqn:Ew; [reflexivity|].
    apply skip_ws_shorter in Ew.
    destruct (d =? 93)%N; [reflexivity|]. destruct (d =? 44)%N; [|reflexivity].
    pose proof (skip_ws_length r') as Hl.
    rewrite (IHi depth (skip_ws r') m); [reflexivity| lia | lia].
  - intros depth s m Hn Hm. destruct m as [|m]; [lia|].
    destruct s as [|q s1]; [reflexivity|]. cbn [scan_members]. cbn [List.length] in Hn.
    destruct (q =? 34)%N; [|reflexivity].
    destruct (scanstring s1) as [[key r1]|] eqn:Ek; [|reflexivity].
    apply scanstring_shorter in Ek.
    destruct (skip_ws r1) as [|colon r2] eqn:Ew1; [reflexivity|].
    apply skip_ws_shorter in Ew1.
    destruct (colon =? 58)%N; [|reflexivity].
    pose proof (skip_ws_length r2) as Hl2.
    rewrite (IHv depth (skip_ws r2) m) by lia.
    destruct (scan_once max_digits depth n (skip_ws r2)) as [[v r3]|e] eqn:Ev;
      [|reflexivity].
    apply scan_once_shorter in Ev.
    destruct (skip_ws r3) as [|d r4] eqn:Ew3; [reflexivity|].
    apply skip_ws_shorter in Ew3.
    destruct (d =? 125)%N; [reflexivity|]. destruct (d =? 44)%N; [|reflexivity].
    pose proof (skip_ws_length r4) as Hl4.
    rewrite (IHm depth (skip_ws r4) m); [reflexivity| lia | lia].
Qed.

End Scanners.

(** More fuel than [loads_fuel] does not change what the decoder returns
    or raises: the fuel of [json_loads] never runs out. *)
Lemma loads_fuel_enough (interpreter : limits) (s : str) (m : nat) :
  loads_fuel s <= m ->
  scan_once (int_max_str_digits interpreter) (recursion_remaining interpreter)
    m (skip_ws s)
  = scan_once (int_max_str_digits interpreter) (recursion_remaining interpreter)
      (loads_fuel s) (skip_ws s).
Proof.
  intro Hm. apply (proj1 (scan_fuel _ (loads_fuel s))); [|exact Hm].
  pose proof (skip_ws_length s). unfold loads_fuel. lia.
Qed.

Lemma json_loads_inv (interpreter : limits) (t : str) (v : json) :
  json_loads interpreter t = Return v ->
  exists r, scan_once (int_max_str_digits interpreter)
              (recursion_remaining interpreter) (loads_fuel t) (skip_ws t)
            = Return (v, r) /\ all_ws r.
Proof.
  unfold json_loads. destruct (starts_with_bom t); [discriminate|].
  destruct (scan_once _ _ (loads_fuel t) (skip_ws t)) as [[v0 r]|]; [|discriminate].
  destruct (skip_ws r) eqn:Er; [|discriminate].
  intros [= <-]. exists r. split; [reflexivity|]. now apply skip_ws_nil_all.
Qed.

(** The decoder on an object written with surrounding whitespace: the
    text is whitespace, a span from an opening to a closing brace, and
    whitespace, and the span alone decodes to the same object. *)
Lemma json_loads_object_span (interpreter : limits) (t : str) (d : dict) :
  json_loads interpreter t = Return (JObject d) ->
  exists w1 body w2,
    t = w1 ++ (LBRACE :: body ++ [RBRACE]) ++ w2 /\ all_ws w1 /\ all_ws w2 /\
    json_loads interpreter (LBRACE :: body ++ [RBRACE]) = Return (JObject d).
Proof.
  intro H. apply json_loads_inv in H as (r & Hscan & Hr).
  destruct (skip_ws_split t) as (w1 & Ht & Hw1).
  pose proof (scan_once_object_shape _ _ _ _ Hscan) as (body & Hshape).
  apply (proj1 (scan_consumes _ _)) in Hscan as (c & Hc & _ & Hy).
  assert (c = LBRACE :: body ++ [RBRACE]).
  { rewrite Hc in Hshape. now apply app_inv_tail in Hshape. }
  subst c. exists w1, body, r. split; [congruence|]. split; [assumption|].
  split; [assumption|].
  specialize (Hy [] r (loads_fuel (LBRACE :: body ++ [RBRACE])) eq_refl).
  rewrite app_nil_r in Hy.
  unfold json_loads.
  change (starts_with_bom (LBRACE :: body ++ [RBRACE])) with false.
  change (skip_ws (LBRACE :: body ++ [RBRACE])) with (LBRACE :: body ++ [RBRACE]).
  cbv iota. rewrite Hy; [reflexivity|]. unfold loads_fuel. lia.
Qed.

(* ================================================================== *)
(** * Facts about the text operations *)
(* ================================================================== *)


Lemma json_ws_is_space (c : N) : is_json_ws c = true -> is_space c = true.
Proof.
  unfold is_json_ws. intro H.
  repeat (apply orb_true_iff in H as [H|H]);
    apply N.eqb_eq in H; subst c; reflexivity.
Qed.

Lemma all_ws_space (w : str) : all_ws w -> all_space w.
Proof. intro H. eapply Forall_impl; [|exact H]. apply json_ws_is_space. Qed.

Lemma lstrip_app (w x : str) : all_space w -> lstrip (w ++ x) = lstrip x.
Proof. induction 1 as [|c w Hc _ IH]; simpl; [reflexivity|]. now rewrite Hc. Qed.

Lemma lstrip_cases (x t : str) :
  lstrip (x ++ t) = match lstrip x with [] => lstrip t | _ :: _ => lstrip x ++ t end.
Proof.
  induction x as [|c x IH]; simpl; [now destruct (lstrip t)|].
  destruct (is_space c); [assumption | reflexivity].
Qed.

Lemma rstrip_app (x w : str) : all_space w -> rstrip (x ++ w) = rstrip x.
Proof.
  intro H. unfold rstrip. rewrite rev_app_distr, lstrip_app; [reflexivity|].
  now apply Forall_rev.
Qed.

Lemma rstrip_stop (x : str) (b : N) : is_space b = false -> rstrip (x ++ [b]) = x ++ [b].
Proof.
  intro H. unfold rstrip. rewrite rev_app_distr. simpl. rewrite H.
  change (b :: rev x) with (rev [b] ++ rev x). now rewrite <- rev_app_distr, rev_involutive.
Qed.

Lemma strip_core (w1 w2 mid : str) (a b : N) :
  all_space w1 -> all_space w2 -> is_space a = false -> is_space b = false ->
  strip (w1 ++ (a :: mid ++ [b]) ++ w2) = a :: mid ++ [b].
Proof.
  intros H1 H2 Ha Hb. unfold strip. rewrite lstrip_app by assumption.
  simpl. rewrite Ha.
  change (a :: (mid ++ [b]) ++ w2) with ((a :: mid ++ [b]) ++ w2).
  rewrite rstrip_app by assumption.
  change (a :: mid ++ [b]) with ((a :: mid) ++ [b]). now apply rstrip_stop.
Qed.

(** Line feeds around a text do not change what [strip] returns. *)
Lemma strip_line_feeds (x : str) : strip ([10%N] ++ x ++ [10%N]) = strip x.
Proof.
  unfold strip. simpl. rewrite lstrip_cases.
  destruct (lstrip x) as [|c l] eqn:E; [reflexivity|].
  apply rstrip_app. repeat constructor.
Qed.

Lemma up_to_last_end (c : N) (b : str) : up_to_last c (b ++ [c]) = Some (b ++ [c]).
Proof.
  induction b as [|x b IH]; simpl.
  - now rewrite N.eqb_refl.
  - now rewrite IH.
Qed.

Lemma search_braces_span (body : str) :
  search_braces (LBRACE :: body ++ [RBRACE]) = Some (LBRACE :: body ++ [RBRACE]).
Proof.
  unfold search_braces. cbn [drop_until]. rewrite N.eqb_refl.
  now rewrite up_to_last_end.
Qed.

(** A fence with a line feed after it does not reach over the line
    feed. *)
Lemma strip_prefix_line_feed (f p x r : str) :
  Forall (fun c => c <> 10%N) f ->
  strip_prefix f (p ++ 10%N :: x) = Some r ->
  exists r', strip_prefix f p = Some r' /\ List.length f <= List.length p.
Proof.
  intro Hf. revert p r. induction Hf as [|a f Ha _ IH]; intros p r; simpl.
  - intros _. exists p. split; [now destruct p | lia].
  - destruct p as [|b p]; simpl.
    + destruct (a =? 10)%N eqn:E; [|discriminate].
      apply N.eqb_eq in E. contradiction.
    + destruct (a =? b)%N; [|discriminate].
      intro H. apply IH in H as (r' & H & Hlen). exists r'. split; [assumption|lia].
Qed.

Lemma fence_no_line_feed : Forall (fun c => c <> 10%N) FENCE.
Proof. repeat constructor; discriminate. Qed.

Lemma fence_json_no_line_feed : Forall (fun c => c <> 10%N) FENCE_JSON.
Proof. repeat constructor; discriminate. Qed.

Lemma sub_fences_aux_before_line_feed (p : str) (k : nat) :
  k <= List.length p ->
  sub_fences_aux k (p ++ 10%N :: FENCE) = sub_fences_aux k p ++ [10%N].
Proof.
  revert k. induction p as [|c p IH]; intros k Hk.
  - simpl in Hk. assert (k = 0) by lia. subst k. reflexivity.
  - simpl in Hk. change ((c :: p) ++ 10%N :: FENCE) with (c :: p ++ 10%N :: FENCE).
    cbn [sub_fences_aux].
    destruct k as [|k]; [|apply IH; lia].
    change (c :: p ++ 10%N :: FENCE) with ((c :: p) ++ 10%N :: FENCE).
    destruct (strip_prefix FENCE_JSON ((c :: p) ++ 10%N :: FENCE)) as [r|] eqn:E1.
    { apply strip_prefix_line_feed in E1 as (r' & -> & Hlen);
        [|apply fence_json_no_line_feed].
      apply IH. simpl in Hlen. lia. }
    rewrite (strip_prefix_truncate _ _ _ E1).
    destruct (strip_prefix FENCE ((c :: p) ++ 10%N :: FENCE)) as [r|] eqn:E2.
    { apply strip_prefix_line_feed in E2 as (r' & -> & Hlen);
        [|apply fence_no_line_feed].
      apply IH. simpl in Hlen. lia. }
    rewrite (strip_prefix_truncate _ _ _ E2).
    simpl. f_equal. apply IH. lia.
Qed.

Lemma sub_fences_code_fence (p : str) :
  sub_fences (code_fence p) = [10%N] ++ sub_fences p ++ [10%N].
Proof.
  unfold sub_fences, code_fence.
  change (sub_fences_aux 0 (FENCE_JSON ++ [10%N] ++ p ++ [10%N] ++ FENCE))
    with (10%N :: sub_fences_aux 0 (p ++ 10%N :: FENCE)).
  rewrite sub_fences_aux_before_line_feed by lia. reflexivity.
Qed.

Lemma has_fence_false_sub (s : str) : has_fence s = false -> sub_fences s = s.
Proof.
  unfold sub_fences. induction s as [|c s IH]; [reflexivity|].
  cbn [has_fence sub_fences_aux].
  destruct (strip_prefix FENCE (c :: s)) as [r|] eqn:E; [discriminate|].
  intro H.
  destruct (strip_prefix FENCE_JSON (c :: s)) as [r|] eqn:E'.
  - apply strip_prefix_app in E'.
    change FENCE_JSON with (FENCE ++ lit "json") in E'.
    rewrite <- app_assoc in E'. rewrite E', strip_prefix_refl in E. discriminate.
  - f_equal. now apply IH.
Qed.

Lemma clean_code_fence (p : str) :
  strip (sub_fences (code_fence p)) = strip (sub_fences p).
Proof. rewrite sub_fences_code_fence. apply strip_line_feeds. Qed.

Lemma extract_object_code_fence (interpreter : limits) (p : str) :
  extract_object interpreter (code_fence p) = extract_object interpreter p.
Proof. unfold extract_object. now rewrite clean_code_fence. Qed.

Lemma extract_object_plain (interpreter : limits) (t : str) (d : dict) :
  has_fence t = false ->
  json_loads interpreter t = Return (JObject d) ->
  extract_object interpreter t = Some d.
Proof.
  intros Hf Hl. unfold extract_object. rewrite (has_fence_false_sub _ Hf).
  apply json_loads_object_span in Hl as (w1 & body & w2 & -> & H1 & H2 & Hcore).
  rewrite strip_core; try (now apply all_ws_space); try reflexivity.
  now rewrite search_braces_span, Hcore.
Qed.

(* ================================================================== *)
(** * The decoder on a text without its fences *)
(* ================================================================== *)


Lemma sub_fences_aux_skipn (s : str) (k : nat) :
  sub_fences_aux k s = sub_fences (skipn k s).
Proof.
  revert k. induction s as [|c s IH]; intros [|k]; try reflexivity.
  simpl. apply IH.
Qed.

Lemma sub_fences_at_fence_json (s r : str) :
  strip_prefix FENCE_JSON s = Some r -> sub_fences s = sub_fences r.
Proof.
  intro H. pose proof (@strip_prefix_app _ _ _ H) as ->.
  unfold sub_fences at 1. change (FENCE_JSON ++ r) with (96%N :: (skipn 1 FENCE_JSON ++ r)).
  cbn [sub_fences_aux].
  change (96%N :: skipn 1 FENCE_JSON ++ r) with (FENCE_JSON ++ r).
  rewrite strip_prefix_refl. rewrite sub_fences_aux_skipn. reflexivity.
Qed.

Lemma sub_fences_at_fence (s r : str) :
  strip_prefix FENCE_JSON s = None ->
  strip_prefix FENCE s = Some r -> sub_fences s = sub_fences r.
Proof.
  intros H0 H. pose proof (@strip_prefix_app _ _ _ H) as ->.
  unfold sub_fences at 1. change (FENCE ++ r) with (96%N :: (skipn 1 FENCE ++ r)).
  cbn [sub_fences_aux].
  change (96%N :: skipn 1 FENCE ++ r) with (FENCE ++ r).
  rewrite H0, strip_prefix_refl. rewrite sub_fences_aux_skipn. reflexivity.
Qed.

Lemma sub_fences_no_fence (c : N) (s : str) :
  strip_prefix FENCE_JSON (c :: s) = None ->
  strip_prefix FENCE (c :: s) = None ->
  sub_fences (c :: s) = c :: sub_fences s.
Proof. intros H1 H2. unfold sub_fences. cbn [sub_fences_aux]. now rewrite H1, H2. Qed.

Lemma sub_fences_cons (c : N) (s : str) :
  (c =? 96)%N = false -> sub_fences (c :: s) = c :: sub_fences s.
Proof.
  intro H.
  apply sub_fences_no_fence; unfold FENCE_JSON, FENCE; cbn [strip_prefix];
    rewrite N.eqb_sym, H; reflexivity.
Qed.

Lemma sub_fences_app (c s : str) :
  Forall (fun x => (x =? 96)%N = false) c ->
  sub_fences (c ++ s) = c ++ sub_fences s.
Proof.
  induction 1 as [|x c Hx _ IH]; [reflexivity|].
  simpl. rewrite sub_fences_cons by assumption. now rewrite IH.
Qed.

Lemma ws_not_backquote (c : N) : is_json_ws c = true -> (c =? 96)%N = false.
Proof.
  unfold is_json_ws. intro H.
  repeat (apply orb_true_iff in H as [H|H]); apply N.eqb_eq in H; subst; reflexivity.
Qed.

Lemma sub_fences_ws (w s : str) : all_ws w -> sub_fences (w ++ s) = w ++ sub_fences s.
Proof.
  intro H. apply sub_fences_app. eapply Forall_impl; [|exact H].
  apply ws_not_backquote.
Qed.

Lemma sub_fences_all_ws (w : str) : all_ws w -> sub_fences w = w.
Proof.
  intro H. rewrite <- (app_nil_r w) at 1. rewrite sub_fences_ws by assumption.
  now rewrite app_nil_r.
Qed.

(** ** Strings *)

Lemma scan_units_ordinary (f x : str) (us : list unit) (r : str) :
  Forall (fun c => ordinary c = true) f ->
  scan_units (f ++ x) = Some (us, r) ->
  exists us', scan_units x = Some (us', r).
Proof.
  intro Hf. revert us. induction Hf as [|c f Hc _ IH]; intros us; [eauto|].
  simpl app. cbn [scan_units]. unfold ordinary in Hc.
  apply andb_true_iff in Hc as [Hc H32]. apply andb_true_iff in Hc as [H34 H92].
  apply negb_true_iff in H34, H92, H32. rewrite H34, H92, H32.
  intro H. apply push_some in H as (us' & H & _). eauto.
Qed.

Lemma hex_value_not_backquote (h : N) (v : N) :
  hex_value h = Some v -> (h =? 96)%N = false.
Proof.
  intro H. destruct (h =? 96)%N eqn:E; [|reflexivity].
  apply N.eqb_eq in E. subst. discriminate.
Qed.

Lemma hex4_not_backquote (h1 h2 h3 h4 u : N) :
  hex4 h1 h2 h3 h4 = Some u ->
  (h1 =? 96)%N = false /\ (h2 =? 96)%N = false /\
  (h3 =? 96)%N = false /\ (h4 =? 96)%N = false.
Proof.
  unfold hex4.
  destruct (hex_value h1) eqn:E1; [|discriminate].
  destruct (hex_value h2) eqn:E2; [|discriminate].
  destruct (hex_value h3) eqn:E3; [|discriminate].
  destruct (hex_value h4) eqn:E4; [|discriminate].
  intros _. repeat split; eapply hex_value_not_backquote; eassumption.
Qed.

Lemma simple_escape_not_backquote (e v : N) :
  simple_escape e = Some v -> (e =? 96)%N = false.
Proof.
  intro H. destruct (e =? 96)%N eqn:E; [|reflexivity].
  apply N.eqb_eq in E. subst. discriminate.
Qed.

Lemma scan_units_sub_fences (n : nat) (s : str) (us : list unit) (r : str) :
  List.length s <= n ->
  scan_units s = Some (us, r) ->
  exists us', scan_units (sub_fences s) = Some (us', sub_fences r).
Proof.
  revert s us r. induction n as [|n IH]; intros s us r Hlen Hscan.
  { destruct s; [discriminate | simpl in Hlen; lia]. }
  destruct s as [|c s']; [discriminate|]. simpl in Hlen.
  destruct (strip_prefix FENCE_JSON (c :: s')) as [r7|] eqn:E7.
  { rewrite (@sub_fences_at_fence_json _ _ E7).
    pose proof (@strip_prefix_app _ _ _ E7) as Hs. rewrite Hs in Hscan.
    apply scan_units_ordinary in Hscan as (us' & Hscan);
      [|repeat constructor].
    apply (IH _ _ _) in Hscan; [exact Hscan|].
    apply (f_equal (@List.length N)) in Hs. rewrite length_app in Hs.
    simpl in Hs. lia. }
  destruct (strip_prefix FENCE (c :: s')) as [r3|] eqn:E3.
  { rewrite (@sub_fences_at_fence _ _ E7 E3).
    pose proof (@strip_prefix_app _ _ _ E3) as Hs. rewrite Hs in Hscan.
    apply scan_units_ordinary in Hscan as (us' & Hscan);
      [|repeat constructor].
    apply (IH _ _ _) in Hscan; [exact Hscan|].
    apply (f_equal (@List.length N)) in Hs. rewrite length_app in Hs.
    simpl in Hs. lia. }
  rewrite (@sub_fences_no_fence _ _ E7 E3).
  cbn [scan_units] in *.
  destruct (c =? 34)%N eqn:E34.
  { injection Hscan as <- <-. eauto. }
  destruct (c =? 92)%N eqn:E92.
  - destruct s' as [|e s'']; [discriminate|]. simpl in Hlen.
    destruct (e =? 117)%N eqn:Eu.
    + destruct s'' as [|h1 [|h2 [|h3 [|h4 r0]]]]; try discriminate.
      simpl in Hlen.
      destruct (hex4 h1 h2 h3 h4) as [uni|] eqn:Eh; [|discriminate].
      apply push_some in Hscan as (us' & Hscan & ->).
      apply IH in Hscan as (us'' & Hscan); [|lia].
      destruct (@hex4_not_backquote _ _ _ _ _ Eh) as (B1 & B2 & B3 & B4).
      assert (Be : (e =? 96)%N = false).
      { apply N.eqb_eq in Eu. subst. reflexivity. }
      rewrite !sub_fences_cons by assumption.
      rewrite Eu, Eh, Hscan. simpl. eauto.
    + destruct (simple_escape e) as [chr|] eqn:Ee; [|discriminate].
      apply push_some in Hscan as (us' & Hscan & ->).
      apply IH in Hscan as (us'' & Hscan); [|lia].
      rewrite (@sub_fences_cons _ _ (@simple_escape_not_backquote _ _ Ee)).
      rewrite Eu, Ee, Hscan. simpl. eauto.
  - destruct (c <? 32)%N eqn:Ec; [discriminate|].
    apply push_some in Hscan as (us' & Hscan & ->).
    apply IH in Hscan as (us'' & Hscan); [|lia].
    rewrite Hscan. simpl. eauto.
Qed.

Lemma scanstring_sub_fences (s body r : str) :
  scanstring s = Some (body, r) ->
  exists body', scanstring (sub_fences s) = Some (body', sub_fences r).
Proof.
  unfold scanstring.
  destruct (scan_units s) as [[us r']|] eqn:E; [|discriminate].
  intros [= _ <-].
  apply (@scan_units_sub_fences (List.length s)) in E as (us' & ->); [|lia].
  eauto.
Qed.

(** ** Numbers and constants *)

Lemma span_digits_digits (s ds r : str) :
  span_digits s = (ds, r) -> Forall (fun c => is_digit c = true) ds.
Proof.
  revert ds r. induction s as [|c s IH]; intros ds r; simpl.
  - intros [= <- _]. constructor.
  - destruct (is_digit c) eqn:E.
    + destruct (span_digits s) as [ds' r'] eqn:Es. intros [= <- _].
      constructor; [assumption|]. eapply IH. reflexivity.
    + intros [= <- _]. constructor.
Qed.

Lemma digit_scalar (c : N) : is_digit c = true -> scalar_char c = true.
Proof.
  unfold is_digit. intro H. apply andb_true_iff in H as [Hlo Hhi].
  apply N.leb_le in Hlo, Hhi.
  unfold scalar_char, is_delim, is_json_ws.
  repeat match goal with
  | |- context [(c =? ?k)%N] =>
    let E := fresh in destruct (c =? k)%N eqn:E; [apply N.eqb_eq in E; lia|]
  end. reflexivity.
Qed.

Lemma digits_scalar (ds : str) :
  Forall (fun c => is_digit c = true) ds -> Forall (fun c => scalar_char c = true) ds.
Proof. intro H. eapply Forall_impl; [|exact H]. apply digit_scalar. Qed.

Section ScannersWithoutFences.

Variable max_digits : nat.

Lemma match_number_chars (s : str) (v : result json) (r : str) :
  match_number max_digits s = Some (v, r) ->
  exists c, s = c ++ r /\ Forall (fun x => scalar_char x = true) c.
Proof.
  unfold match_number, scan_minus.
  assert (Hint : forall s1 ids r1, scan_int_part s1 = Some (ids, r1) ->
            s1 = ids ++ r1 /\ Forall (fun x => scalar_char x = true) ids).
  { intros s1 ids r1. unfold scan_int_part. destruct s1 as [|c s1]; [discriminate|].
    destruct (c =? 48)%N eqn:E0.
    - intros [= <- <-]. apply N.eqb_eq in E0. subst. split; [reflexivity|].
      repeat constructor.
    - destruct (is_digit c) eqn:Ed; [|discriminate].
      destruct (span_digits s1) as [ds r'] eqn:Es. intros [= <- <-].
      pose proof (@span_digits_digits _ _ _ Es) as Hd.
      apply span_digits_spec in Es as [-> _]. split; [reflexivity|].
      constructor; [now apply digit_scalar | now apply digits_scalar]. }
  assert (Hfrac : forall s1 fds r1, scan_frac s1 = Some (fds, r1) ->
            exists c, s1 = c ++ r1 /\ Forall (fun x => scalar_char x = true) c).
  { intros s1 fds r1. unfold scan_frac. destruct s1 as [|c s1]; [discriminate|].
    destruct (c =? 46)%N eqn:E; [|discriminate].
    destruct (span_digits s1) as [[|d ds] r'] eqn:Es; [discriminate|].
    intros [= <- <-]. pose proof (@span_digits_digits _ _ _ Es) as Hd.
    apply span_digits_spec in Es as [-> _]. apply N.eqb_eq in E. subst c.
    exists (46%N :: d :: ds). split; [reflexivity|].
    constructor; [reflexivity | now apply digits_scalar]. }
  assert (Hexp : forall s1 e r1, scan_exp s1 = Some (e, r1) ->
            exists c, s1 = c ++ r1 /\ Forall (fun x => scalar_char x = true) c).
  { intros s1 e r1. unfold scan_exp, scan_sign. destruct s1 as [|c s1]; [discriminate|].
    destruct ((c =? 101) || (c =? 69))%N eqn:E; [|discriminate].
    assert (Hc : scalar_char c = true).
    { apply orb_true_iff in E as [E|E]; apply N.eqb_eq in E; subst; reflexivity. }
    destruct s1 as [|c1 s2].
    { discriminate. }
    destruct (c1 =? 45)%N eqn:E45.
    { destruct (span_digits s2) as [[|d ds] r'] eqn:Es; [discriminate|].
      intros [= _ <-]. pose proof (@span_digits_digits _ _ _ Es) as Hd.
      apply span_digits_spec in Es as [-> _]. apply N.eqb_eq in E45. subst c1.
      exists (c :: 45%N :: d :: ds). split; [reflexivity|].
      constructor; [assumption|]. constructor; [reflexivity | now apply digits_scalar]. }
    destruct (c1 =? 43)%N eqn:E43.
    { destruct (span_digits s2) as [[|d ds] r'] eqn:Es; [discriminate|].
      intros [= _ <-]. pose proof (@span_digits_digits _ _ _ Es) as Hd.
      apply span_digits_spec in Es as [-> _]. apply N.eqb_eq in E43. subst c1.
      exists (c :: 43%N :: d :: ds). split; [reflexivity|].
      constructor; [assumption|]. constructor; [reflexivity | now apply digits_scalar]. }
    destruct (span_digits (c1 :: s2)) as [[|d ds] r'] eqn:Es; [discriminate|].
    intros [= _ <-]. pose proof (@span_digits_digits _ _ _ Es) as Hd.
    apply span_digits_spec in Es as [Heq _].
    exists (c :: d :: ds). split; [simpl; now rewrite Heq|].
    constructor; [assumption | now apply digits_scalar]. }
  assert (Hmain : forall s1, 
            match scan_int_part s1 with
            | Some (ids, r1) =>
              match scan_frac r1 with
              | Some (fds, r2) =>
                match scan_exp r2 with
                | Some (e, r3) => Some (r3)
                | None => Some r2
                end
              | None =>
                match scan_exp r1 with
                | Some (e, r3) => Some r3
                | None => Some r1
                end
              end
            | None => None
            end = Some r ->
            exists c, s1 = c ++ r /\ Forall (fun x => scalar_char x = true) c).
  { intros s1.
    destruct (scan_int_part s1) as [[ids r1]|] eqn:Ei; [|discriminate].
    apply Hint in Ei as [-> Hids].
    destruct (scan_frac r1) as [[fds r2]|] eqn:Ef.
    - apply Hfrac in Ef as (cf & -> & Hcf).
      destruct (scan_exp r2) as [[e r3]|] eqn:Ee.
      + apply Hexp in Ee as (ce & -> & Hce). intros [= <-].
        exists (ids ++ cf ++ ce). split; [now rewrite <- !app_assoc|].
        repeat (apply Forall_app; split); assumption.
      + intros [= <-]. exists (ids ++ cf). split; [now rewrite <- !app_assoc|].
        apply Forall_app; split; assumption.
    - destruct (scan_exp r1) as [[e r3]|] eqn:Ee.
      + apply Hexp in Ee as (ce & -> & Hce). intros [= <-].
        exists (ids ++ ce). split; [now rewrite <- !app_assoc|].
        apply Forall_app; split; assumption.
      + intros [= <-]. exists ids. split; [reflexivity | assumption]. }
  destruct s as [|c0 s0].
  - intro H. destruct (Hmain []) as (c & Hc & Hf).
    + destruct (scan_int_part []) as [[ids r1]|]; [|discriminate].
      destruct (scan_frac r1) as [[fds r2]|]; destruct (scan_exp _) as [[e r3]|];
        injection H as _ <-; reflexivity.
    + eauto.
  - destruct (c0 =? 45)%N eqn:E45.
    + intro H. destruct (Hmain s0) as (c & Hc & Hf).
      * destruct (scan_int_part s0) as [[ids r1]|]; [|discriminate].
        destruct (scan_frac r1) as [[fds r2]|]; destruct (scan_exp _) as [[e r3]|];
          injection H as _ <-; reflexivity.
      * apply N.eqb_eq in E45. subst c0. exists (45%N :: c).
        split; [simpl; now rewrite Hc|]. constructor; [reflexivity | assumption].
    + intro H. destruct (Hmain (c0 :: s0)) as (c & Hc & Hf).
      * destruct (scan_int_part (c0 :: s0)) as [[ids r1]|]; [|discriminate].
        destruct (scan_frac r1) as [[fds r2]|]; destruct (scan_exp _) as [[e r3]|];
          injection H as _ <-; reflexivity.
      * eauto.
Qed.

Lemma scan_scalar_chars (s : str) (v : result json) (r : str) :
  scan_scalar max_digits s = Some (v, r) ->
  exists c, s = c ++ r /\ Forall (fun x => scalar_char x = true) c.
Proof.
  unfold scan_scalar.
  repeat match goal with
  | |- context [match strip_prefix ?p s with _ => _ end] =>
    let E := fresh "E" in
    destruct (strip_prefix p s) eqn:E;
    [ intros [= _ <-]; apply strip_prefix_app in E as ->;
      eexists; split; [reflexivity | repeat constructor] |]
  | |- context [match match_number max_digits s with _ => _ end] =>
    let E := fresh "E" in
    destruct (match_number max_digits s) as [[v0 r0]|] eqn:E;
    [ intros [= _ <-]; now apply match_number_chars in E |]
  end.
  discriminate.
Qed.

Lemma scan_scalar_truncate (q z : str) :
  q <> [] -> scan_scalar max_digits (q ++ z) = None -> scan_scalar max_digits q = None.
Proof.
  intros Hq. unfold scan_scalar.
  repeat match goal with
  | |- context [match strip_prefix ?p (q ++ z) with _ => _ end] =>
    let E := fresh "E" in
    destruct (strip_prefix p (q ++ z)) eqn:E; [discriminate|];
    rewrite (@strip_prefix_truncate _ _ _ E)
  | |- context [match match_number max_digits (q ++ z) with _ => _ end] =>
    let E := fresh "E" in
    destruct (match_number max_digits (q ++ z)) as [[v0 r0]|] eqn:E; [discriminate|];
    rewrite (@match_number_truncate max_digits _ _ Hq E)
  end.
  reflexivity.
Qed.

Lemma prefix_compare (c c2 x r2 : str) (d : N) :
  c ++ d :: x = c2 ++ r2 ->
  Forall (fun a => scalar_char a = true) c2 -> scalar_char d = false ->
  exists t, c = c2 ++ t.
Proof.
  intros H Hc2 Hd. revert c H. induction Hc2 as [|a c2 Ha _ IH]; intros c H.
  - exists c. reflexivity.
  - destruct c as [|a' c']; simpl in H.
    + injection H as -> _. congruence.
    + injection H as -> H. apply IH in H as (t & ->). exists t. reflexivity.
Qed.

Lemma delim_not_scalar (d : N) : is_delim d = true -> scalar_char d = false.
Proof. unfold scalar_char. intros ->. apply andb_false_r. Qed.

Lemma delim_not_backquote (d : N) : is_delim d = true -> (d =? 96)%N = false.
Proof.
  intro H. destruct (d =? 96)%N eqn:E; [|reflexivity].
  apply N.eqb_eq in E. subst. discriminate.
Qed.

(** What follows the delimiter after a number or a constant does not
    matter. *)
Lemma scan_scalar_after_delim (c : str) (d : N) (x0 x : str) (v : result json) :
  is_delim d = true ->
  scan_scalar max_digits (c ++ d :: x0) = Some (v, d :: x0) ->
  scan_scalar max_digits (c ++ d :: x) = Some (v, d :: x).
Proof.
  intros Hd H0.
  pose proof (@scan_scalar_local _ _ _ _ H0) as (c0 & Hc0 & Hne & Hy0).
  apply app_inv_tail in Hc0. subst c0.
  pose proof (Hy0 [d] x0 eq_refl) as Hcd.
  destruct (scan_scalar max_digits (c ++ d :: x)) as [[v2 r2]|] eqn:E.
  - pose proof (@scan_scalar_chars _ _ _ E) as (c2 & Hs2 & Hc2).
    pose proof (@scan_scalar_local _ _ _ _ E) as (c2' & Hs2' & _ & Hy2).
    assert (c2' = c2) by (rewrite Hs2 in Hs2'; now apply app_inv_tail in Hs2').
    subst c2'.
    destruct (@prefix_compare c c2 x r2 d Hs2 Hc2 (@delim_not_scalar d Hd)) as (t & ->).
    rewrite <- app_assoc in Hs2. apply app_inv_head in Hs2. subst r2.
    specialize (Hy2 (t ++ [d]) x). rewrite <- app_assoc in Hy2.
    specialize (Hy2 eq_refl). rewrite app_assoc in Hy2.
    rewrite Hy2 in Hcd. injection Hcd as -> Ht.
    assert (t = []).
    { destruct t as [|a t]; [reflexivity|].
      apply (f_equal (@List.length N)) in Ht. simpl in Ht.
      rewrite length_app in Ht. simpl in Ht. lia. }
    subst t. reflexivity.
  - change (c ++ d :: x) with (c ++ [d] ++ x) in E. rewrite app_assoc in E.
    apply scan_scalar_truncate in E; [congruence|].
    intro H. apply app_eq_nil in H as [_ H]. discriminate.
Qed.

Lemma scan_scalar_sub_fences (s : str) (v : result json) (r : str) :
  scan_scalar max_digits s = Some (v, r) -> delim_start r ->
  scan_scalar max_digits (sub_fences s) = Some (v, sub_fences r).
Proof.
  intros H Hr.
  pose proof (@scan_scalar_chars _ _ _ H) as (c & -> & Hc).
  assert (Hb : Forall (fun x => (x =? 96)%N = false) c).
  { eapply Forall_impl; [|exact Hc]. intros a Ha. unfold scalar_char in Ha.
    apply andb_true_iff in Ha as [Ha _]. now apply negb_true_iff in Ha. }
  rewrite (@sub_fences_app _ _ Hb).
  destruct r as [|d r'].
  - exact H.
  - simpl in Hr. rewrite (@sub_fences_cons d r' (@delim_not_backquote _ Hr)).
    eapply scan_scalar_after_delim; eassumption.
Qed.

(** ** Values *)

Lemma skip_ws_sub_fences (s : str) (d : N) (r : str) :
  skip_ws s = d :: r -> (d =? 96)%N = false ->
  skip_ws (sub_fences s) = d :: sub_fences r.
Proof.
  intros H Hd. pose proof (@skip_ws_head _ _ _ H) as Hws.
  destruct (skip_ws_split s) as (w & Hs & Hw). rewrite H in Hs. subst s.
  rewrite (@sub_fences_ws _ _ Hw), (@sub_fences_cons _ _ Hd), (@skip_ws_app _ _ Hw).
  now apply skip_ws_stop.
Qed.

Lemma skip_ws_sub_fences_whole (s : str) (d : N) (r : str) :
  skip_ws s = d :: r -> (d =? 96)%N = false ->
  skip_ws (sub_fences s) = sub_fences (d :: r).
Proof.
  intros H Hd. rewrite (@sub_fences_cons _ _ Hd). now apply skip_ws_sub_fences.
Qed.

Lemma skip_ws_delim (r : str) (d : N) (r' : str) :
  skip_ws r = d :: r' -> is_delim d = true -> delim_start r.
Proof.
  destruct r as [|c r0]; [discriminate|]. simpl.
  destruct (is_json_ws c) eqn:E.
  - intros _ _. unfold is_delim. now rewrite E.
  - intros [= -> _]. trivial.
Qed.

Lemma scan_scalar_head (d : N) (s : str) (v : result json) (r : str) :
  scan_scalar max_digits (d :: s) = Some (v, r) -> (d =? 96)%N = false.
Proof.
  intro H. pose proof (@scan_scalar_chars _ _ _ H) as (c & Hs & Hc).
  pose proof (@scan_scalar_local _ _ _ _ H) as (c' & Hs' & Hne & _).
  assert (c' = c) by (rewrite Hs in Hs'; now apply app_inv_tail in Hs').
  subst c'. destruct c as [|a c]; [congruence|].
  injection Hs as <- _. apply Forall_inv in Hc. unfold scalar_char in Hc.
  apply andb_true_iff in Hc as [Hc _]. now apply negb_true_iff in Hc.
Qed.

Lemma scan_once_head (depth n : nat) (d : N) (s : str) (v : json) (r : str) :
  scan_once max_digits depth n (d :: s) = Return (v, r) -> (d =? 96)%N = false.
Proof.
  destruct n as [|n]; [discriminate|]. cbn [scan_once].
  destruct (d =? 34)%N eqn:E34.
  { intros _. apply N.eqb_eq in E34. now subst. }
  destruct (d =? 123)%N eqn:E123.
  { intros _. apply N.eqb_eq in E123. now subst. }
  destruct (d =? 91)%N eqn:E91.
  { intros _. apply N.eqb_eq in E91. now subst. }
  destruct (scan_scalar max_digits (d :: s)) as [[v0 r0]|] eqn:Es; [|discriminate].
  intros _. eapply scan_scalar_head; eassumption.
Qed.

Lemma scan_once_nil (depth n : nat) :
  scan_once max_digits depth n [] = Raise JSONDecodeError.
Proof. now destruct n. Qed.

Lemma scan_items_head (depth n : nat) (s : str) (vs : list json) (r : str) :
  scan_items max_digits depth n s = Return (vs, r) ->
  exists d s', s = d :: s' /\ (d =? 96)%N = false.
Proof.
  destruct n as [|n]; [discriminate|]. cbn [scan_items].
  destruct (scan_once max_digits depth n s) as [[v r1]|] eqn:E; [|discriminate].
  intros _.
  destruct s as [|d s']; [now rewrite scan_once_nil in E|].
  exists d, s'. split; [reflexivity|]. eapply scan_once_head; eassumption.
Qed.

Lemma scan_members_head (depth n : nat) (s : str) (ms : list (str * json)) (r : str) :
  scan_members max_digits depth n s = Return (ms, r) ->
  exists d s', s = d :: s' /\ (d =? 96)%N = false.
Proof.
  destruct n as [|n]; [discriminate|]. destruct s as [|q s1]; [discriminate|].
  cbn [scan_members]. destruct (q =? 34)%N eqn:E; [|discriminate]. intros _.
  exists q, s1. split; [reflexivity|]. apply N.eqb_eq in E. now subst.
Qed.

Lemma eqb_not_backquote (d k : N) :
  (d =? k)%N = true -> (k =? 96)%N = false -> (d =? 96)%N = false.
Proof. intros H. apply N.eqb_eq in H. now subst. Qed.

Lemma scan_sub_fences (n : nat) :
  (forall depth s v r, scan_once max_digits depth n s = Return (v, r) -> delim_start r ->
     exists v', scan_once max_digits depth n (sub_fences s) = Return (v', sub_fences r) /\
                (is_dict v = true -> is_dict v' = true)) /\
  (forall depth s vs r, scan_items max_digits depth n s = Return (vs, r) ->
     exists vs', scan_items max_digits depth n (sub_fences s)
                 = Return (vs', sub_fences r)) /\
  (forall depth s ms r, scan_members max_digits depth n s = Return (ms, r) ->
     exists ms', scan_members max_digits depth n (sub_fences s)
                 = Return (ms', sub_fences r)).
Proof.
  induction n as [|n (IHv & IHi & IHm)].
  { repeat split; intros; discriminate. }
  split; [|split].
  - (* scan_once *)
    intros depth s v r Hscan Hr. destruct s as [|c s']; [discriminate|].
    pose proof (@scan_once_head _ _ _ _ _ _ Hscan) as Hc.
    rewrite (@sub_fences_cons _ _ Hc). cbn [scan_once] in *.
    destruct (c =? 34)%N eqn:E34.
    { destruct (scanstring s') as [[body r0]|] eqn:Es; [|discriminate].
      injection Hscan as <- <-.
      apply scanstring_sub_fences in Es as (body' & ->).
      eexists. split; [reflexivity | discriminate]. }
    destruct (c =? 123)%N eqn:E123.
    { destruct depth as [|inner]; [discriminate|].
      destruct (skip_ws s') as [|d s''] eqn:Ew; [discriminate|].
      destruct (d =? 125)%N eqn:E125.
      - injection Hscan as <- <-.
        rewrite (@skip_ws_sub_fences _ _ _ Ew (@eqb_not_backquote _ _ E125 eq_refl)), E125.
        eexists. split; reflexivity.
      - destruct (scan_members max_digits inner n (d :: s'')) as [[ms r0]|] eqn:Em; [|discriminate].
        injection Hscan as <- <-.
        pose proof (@scan_members_head _ _ _ _ _ Em) as (d' & t & [= <- <-] & Hd).
        apply IHm in Em as (ms' & Em).
        rewrite (@skip_ws_sub_fences _ _ _ Ew Hd), E125.
        rewrite (@sub_fences_cons _ _ Hd) in Em. rewrite Em.
        eexists. split; reflexivity. }
    destruct (c =? 91)%N eqn:E91.
    { destruct depth as [|inner]; [discriminate|].
      destruct (skip_ws s') as [|d s''] eqn:Ew; [discriminate|].
      destruct (d =? 93)%N eqn:E93.
      - injection Hscan as <- <-.
        rewrite (@skip_ws_sub_fences _ _ _ Ew (@eqb_not_backquote _ _ E93 eq_refl)), E93.
        eexists. split; [reflexivity | discriminate].
      - destruct (scan_items max_digits inner n (d :: s'')) as [[vs r0]|] eqn:Em; [|discriminate].
        injection Hscan as <- <-.
        pose proof (@scan_items_head _ _ _ _ _ Em) as (d' & t & [= <- <-] & Hd).
        apply IHi in Em as (vs' & Em).
        rewrite (@skip_ws_sub_fences _ _ _ Ew Hd), E93.
        rewrite (@sub_fences_cons _ _ Hd) in Em. rewrite Em.
        eexists. split; [reflexivity | discriminate]. }
    destruct (scan_scalar max_digits (c :: s')) as [[[v0|e0] r0]|] eqn:Es;
      try discriminate.
    injection Hscan as <- <-.
    apply scan_scalar_sub_fences in Es; [|assumption].
    rewrite (@sub_fences_cons _ _ Hc) in Es. rewrite Es.
    eexists. split; [reflexivity | trivial].
  - (* scan_items *)
    intros depth s vs r. cbn [scan_items].
    destruct (scan_once max_digits depth n s) as [[v r1]|] eqn:Ev; [|discriminate].
    destruct (skip_ws r1) as [|d r'] eqn:Ew; [discriminate|].
    destruct (d =? 93)%N eqn:E93.
    + intros [= <- <-].
      apply IHv in Ev as (v' & -> & _);
        [| eapply skip_ws_delim; [eassumption|];
           apply N.eqb_eq in E93; subst; reflexivity ].
      rewrite (@skip_ws_sub_fences _ _ _ Ew (@eqb_not_backquote _ _ E93 eq_refl)), E93.
      eauto.
    + destruct (d =? 44)%N eqn:E44; [|discriminate].
      destruct (scan_items max_digits depth n (skip_ws r')) as [[vs' r'']|] eqn:Ei; [|discriminate].
      intros [= <- <-].
      apply IHv in Ev as (v' & -> & _);
        [| eapply skip_ws_delim; [eassumption|];
           apply N.eqb_eq in E44; subst; reflexivity ].
      rewrite (@skip_ws_sub_fences _ _ _ Ew (@eqb_not_backquote _ _ E44 eq_refl)), E93, E44.
      pose proof (@scan_items_head _ _ _ _ _ Ei) as (d2 & t & Hx & Hd2).
      apply IHi in Ei as (vs'' & Ei).
      rewrite (@skip_ws_sub_fences_whole _ _ _ Hx Hd2), <- Hx, Ei. eauto.
  - (* scan_members *)
    intros depth s ms r Hscan.
    pose proof (@scan_members_head _ _ _ _ _ Hscan) as (q & s1 & -> & Hq).
    rewrite (@sub_fences_cons _ _ Hq). cbn [scan_members] in *.
    destruct (q =? 34)%N eqn:E34; [|discriminate].
    destruct (scanstring s1) as [[key r1]|] eqn:Ek; [|discriminate].
    apply scanstring_sub_fences in Ek as (key' & ->).
    destruct (skip_ws r1) as [|colon r2] eqn:Ew1; [discriminate|].
    destruct (colon =? 58)%N eqn:E58; [|discriminate].
    rewrite (@skip_ws_sub_fences _ _ _ Ew1 (@eqb_not_backquote _ _ E58 eq_refl)), E58.
    destruct (scan_once max_digits depth n (skip_ws r2)) as [[v r3]|] eqn:Ev; [|discriminate].
    destruct (skip_ws r2) as [|d2 x2] eqn:Ew2; [now rewrite scan_once_nil in Ev|].
    pose proof (@scan_once_head _ _ _ _ _ _ Ev) as Hd2.
    rewrite (@skip_ws_sub_fences_whole _ _ _ Ew2 Hd2).
    destruct (skip_ws r3) as [|d r4] eqn:Ew3; [discriminate|].
    destruct (d =? 125)%N eqn:E125.
    + injection Hscan as <- <-.
      apply IHv in Ev as (v' & -> & _);
        [| eapply skip_ws_delim; [eassumption|];
           apply N.eqb_eq in E125; subst; reflexivity ].
      rewrite (@skip_ws_sub_fences _ _ _ Ew3 (@eqb_not_backquote _ _ E125 eq_refl)), E125.
      eauto.
    + destruct (d =? 44)%N eqn:E44; [|discriminate].
      destruct (scan_members max_digits depth n (skip_ws r4)) as [[ms' r5]|] eqn:Em; [|discriminate].
      injection Hscan as <- <-.
      apply IHv in Ev as (v' & -> & _);
        [| eapply skip_ws_delim; [eassumption|];
           apply N.eqb_eq in E44; subst; reflexivity ].
      rewrite (@skip_ws_sub_fences _ _ _ Ew3 (@eqb_not_backquote _ _ E44 eq_refl)), E125, E44.
      pose proof (@scan_members_head _ _ _ _ _ Em) as (d4 & t & Hx & Hd4).
      apply IHm in Em as (ms'' & Em).
      rewrite (@skip_ws_sub_fences_whole _ _ _ Hx Hd4), <- Hx, Em. eauto.
Qed.

End ScannersWithoutFences.

Lemma all_ws_delim_start (r : str) : all_ws r -> delim_start r.
Proof.
  intros [|c r' Hc _]; simpl; [trivial|]. unfold is_delim. now rewrite Hc.
Qed.

Lemma starts_with_bom_object (w body : str) :
  all_ws w -> starts_with_bom (w ++ LBRACE :: body) = false.
Proof.
  intros [|c w' Hc _]; [reflexivity|]. simpl.
  destruct (c =? 65279)%N eqn:E; [|reflexivity].
  apply N.eqb_eq in E. subst. discriminate.
Qed.

(** Deleting the fences of a text that decodes to an object leaves a text
    that decodes to an object. *)
Lemma json_loads_sub_fences (interpreter : limits) (p : str) (d : dict) :
  json_loads interpreter p = Return (JObject d) ->
  exists d', json_loads interpreter (sub_fences p) = Return (JObject d').
Proof.
  intro H. apply json_loads_inv in H as (r & Hscan & Hr).
  destruct (skip_ws p) as [|d0 x] eqn:Ew; [now rewrite scan_once_nil in Hscan|].
  pose proof (@scan_once_head _ _ _ _ _ _ _ Hscan) as Hd0.
  apply (proj1 (scan_sub_fences _ _)) in Hscan as (v' & Hscan & Hv);
    [|now apply all_ws_delim_start].
  specialize (Hv eq_refl). destruct v' as [| | | | | |d']; try discriminate.
  exists d'.
  rewrite (sub_fences_all_ws Hr) in Hscan.
  rewrite <- (@skip_ws_sub_fences_whole _ _ _ Ew Hd0) in Hscan.
  pose proof (@scan_once_object_shape _ _ _ _ _ _ Hscan) as (body & Hshape).
  apply (proj1 (scan_consumes _ _)) in Hscan as (c & Hc & _ & Hy).
  destruct (skip_ws_split (sub_fences p)) as (w & Hp & Hw).
  unfold json_loads.
  replace (starts_with_bom (sub_fences p)) with false.
  2:{ rewrite Hp, Hshape. simpl app. symmetry. now apply starts_with_bom_object. }
  rewrite Hc.
  rewrite (Hy r [] (loads_fuel (sub_fences p))).
  - now rewrite (skip_ws_all Hr).
  - now rewrite app_nil_r.
  - pose proof (skip_ws_length (sub_fences p)) as Hl. rewrite Hc in Hl.
    rewrite length_app in Hl. unfold loads_fuel. lia.
Qed.

Lemma extract_object_clean (interpreter : limits) (t : str) (d : dict) :
  json_loads interpreter (sub_fences t) = Return (JObject d) ->
  extract_object interpreter t = Some d.
Proof.
  intro Hl. unfold extract_object.
  apply json_loads_object_span in Hl as (w1 & body & w2 & -> & H1 & H2 & Hcore).
  rewrite strip_core; try (now apply all_ws_space); try reflexivity.
  now rewrite search_braces_span, Hcore.
Qed.

Lemma extract_object_valid (interpreter : limits) (p : str) (d : dict) :
  json_loads interpreter p = Return (JObject d) ->
  exists d', extract_object interpreter p = Some d'.
Proof.
  intro H. apply json_loads_sub_fences in H as (d' & H).
  exists d'. now apply extract_object_clean.
Qed.

(* ================================================================== *)
(** * The normaliser of the analytics service *)
(* ================================================================== *)

Import Analytics Notions Samples.

Lemma parse_ai_response_cases (interpreter : limits) (text : str) :
  parse_ai_response interpreter text =
  match extract_object interpreter text with
  | Some data => repair data
  | None => default_res text
  end.
Proof.
  unfold parse_ai_response, extract_object.
  destruct (search_braces (strip (sub_fences text))) as [span|]; [|reflexivity].
  destruct (json_loads interpreter span) as [[]|]; reflexivity.
Qed.

Lemma keys_distinct :
  K_INSIGHTS <> K_RECOMMENDATIONS /\ K_INSIGHTS <> K_SUMMARY /\
  K_INSIGHTS <> K_ANALYSIS /\ K_RECOMMENDATIONS <> K_SUMMARY /\
  K_RECOMMENDATIONS <> K_ANALYSIS /\ K_SUMMARY <> K_ANALYSIS.
Proof. repeat split; discriminate. Qed.

Lemma repair_insights (data : dict) :
  dict_get K_INSIGHTS (repair data) =
  Some (or_default is_dict DEFAULT_INSIGHTS (dict_get K_INSIGHTS data)).
Proof.
  destruct keys_distinct as (Hir & _).
  assert (Hri : K_RECOMMENDATIONS <> K_INSIGHTS) by congruence.
  unfold repair, lacks, or_default.
  destruct (dict_get K_INSIGHTS data) as [v|] eqn:Hi.
  - destruct (is_dict v) eqn:Hv; simpl.
    + destruct (dict_get K_RECOMMENDATIONS data) as [w|]; [destruct (is_list w)|]; simpl;
        rewrite ?(dict_get_set_other _ _ Hri); rewrite Hi; reflexivity.
    + destruct (match dict_get K_RECOMMENDATIONS (dict_set K_INSIGHTS DEFAULT_INSIGHTS data)
                with Some v0 => negb (is_list v0) | None => true end);
        rewrite ?(dict_get_set_other _ _ Hri); apply dict_get_set_same.
  - simpl.
    destruct (match dict_get K_RECOMMENDATIONS (dict_set K_INSIGHTS DEFAULT_INSIGHTS data)
              with Some v0 => negb (is_list v0) | None => true end);
      rewrite ?(dict_get_set_other _ _ Hri); apply dict_get_set_same.
Qed.

Lemma repair_recommendations (data : dict) :
  dict_get K_RECOMMENDATIONS (repair data) =
  Some (or_default is_list DEFAULT_RECOMMENDATIONS (dict_get K_RECOMMENDATIONS data)).
Proof.
  destruct keys_distinct as (Hir & _).
  unfold repair, lacks, or_default.
  set (data1 := if match dict_get K_INSIGHTS data with
                   | Some v => negb (is_dict v) | None => true end
                then dict_set K_INSIGHTS DEFAULT_INSIGHTS data else data).
  assert (H1 : dict_get K_RECOMMENDATIONS data1 = dict_get K_RECOMMENDATIONS data).
  { unfold data1.
    destruct (match dict_get K_INSIGHTS data with
              | Some v => negb (is_dict v) | None => true end);
      [apply dict_get_set_other; assumption | reflexivity]. }
  rewrite H1.
  destruct (dict_get K_RECOMMENDATIONS data) as [w|] eqn:Hr.
  - destruct (is_list w); simpl; [congruence | apply dict_get_set_same].
  - simpl. apply dict_get_set_same.
Qed.

Lemma repair_other (k : str) (data : dict) :
  k <> K_INSIGHTS -> k <> K_RECOMMENDATIONS ->
  dict_get k (repair data) = dict_get k data.
Proof.
  intros Hi Hr. unfold repair.
  destruct (lacks is_dict K_INSIGHTS data);
    match goal with |- context [lacks is_list K_RECOMMENDATIONS ?d] =>
      destruct (lacks is_list K_RECOMMENDATIONS d) end;
    rewrite ?dict_get_set_other by congruence; reflexivity.
Qed.

Lemma or_default_typed (is_type : json -> bool) (dflt : json) (v : option json) :
  is_type dflt = true -> is_type (or_default is_type dflt v) = true.
Proof.
  intro Hd. unfold or_default.
  destruct v as [x|]; [destruct (is_type x) eqn:E|]; assumption.
Qed.

(** What [parse_ai_response] returns always holds a record under
    [insights] and a list under [recommendations]. *)
Lemma parse_ai_response_shape (interpreter : limits) (text : str) :
  (exists i, dict_get K_INSIGHTS (parse_ai_response interpreter text)
             = Some (JObject i)) /\
  (exists r, dict_get K_RECOMMENDATIONS (parse_ai_response interpreter text)
             = Some (JArray r)).
Proof.
  rewrite parse_ai_response_cases.
  destruct (extract_object interpreter text) as [data|].
  - rewrite repair_insights, repair_recommendations. split.
    + pose proof (or_default_typed is_dict DEFAULT_INSIGHTS
                    (dict_get K_INSIGHTS data) eq_refl) as H.
      destruct (or_default is_dict DEFAULT_INSIGHTS (dict_get K_INSIGHTS data));
        try discriminate. eauto.
    + pose proof (or_default_typed is_list DEFAULT_RECOMMENDATIONS
                    (dict_get K_RECOMMENDATIONS data) eq_refl) as H.
      destruct (or_default is_list DEFAULT_RECOMMENDATIONS
                  (dict_get K_RECOMMENDATIONS data)); try discriminate. eauto.
  - split; eexists; reflexivity.
Qed.

Section AnalyticsService.

Variable MISTRAL_API_KEY : str.
Variable py_str : json -> str.
Variable json_dumps : json -> str.
Variable call_mistral_api : str -> result str.
Variable interpreter : limits.

Local Abbreviation analyze :=
  (analyze_with_ai MISTRAL_API_KEY py_str json_dumps call_mistral_api interpreter).
Local Abbreviation endpoint_answers :=
  (endpoint_answers MISTRAL_API_KEY py_str json_dumps call_mistral_api).

Lemma analyze_answered (request : AnalyticsRequest) (text : str) :
  endpoint_answers request text ->
  analyze request =
  match
    (analysis <- getitem K_ANALYSIS (parse_ai_response interpreter text) ;;
     recommendations <- getitem K_RECOMMENDATIONS (parse_ai_response interpreter text) ;;
     insights <- getitem K_INSIGHTS (parse_ai_response interpreter text) ;;
     summary <- getitem K_SUMMARY (parse_ai_response interpreter text) ;;
     Return [ (K_SUCCESS, JBool true); (K_ANALYSIS, analysis);
              (K_RECOMMENDATIONS, recommendations); (K_INSIGHTS, insights);
              (K_SUMMARY, summary) ])%py
  with
  | Return response => response
  | Raise e =>
    [ (K_SUCCESS, JBool false);
      (K_ERROR, JString (exn_str e));
      (K_ANALYSIS, JString (generate_fallback_analysis py_str (activity_data request)));
      (K_RECOMMENDATIONS, generate_fallback_recommendations (activity_data request));
      (K_INSIGHTS, empty_insights (lit "0"));
      (K_SUMMARY, JString SUMMARY_ERROR) ]
  end.
Proof.
  intros (Hkey & s & Hs & Hc).
  unfold analyze, analyze_with_ai, analyze_try.
  destruct MISTRAL_API_KEY; [congruence|].
  rewrite Hs. simpl bind. rewrite Hc. reflexivity.
Qed.

(** C3.  When the completion endpoint answers a text in which the
    normaliser finds no JSON object (no brace span, or a span that
    [json.loads] refuses), [analyze_with_ai] returns a dict, not an
    exception: it reports success, [analysis] is the raw text, and
    [insights], [recommendations] and [summary] are the defaults of
    [parse_ai_response]. *)
Theorem analyze_non_json_text (request : AnalyticsRequest) (text : str) :
  endpoint_answers request text ->
  extract_object interpreter text = None ->
  analyze request =
  [ (K_SUCCESS, JBool true);
    (K_ANALYSIS, JString text);
    (K_RECOMMENDATIONS, DEFAULT_RECOMMENDATIONS);
    (K_INSIGHTS, DEFAULT_INSIGHTS);
    (K_SUMMARY, JString DEFAULT_SUMMARY) ].
Proof.
  intros Hans Hnone.
  rewrite (analyze_answered Hans), parse_ai_response_cases, Hnone.
  reflexivity.
Qed.

(** C5.  Whatever the key, the activity data, the outcome of the exchange
    with the completion endpoint and the text it answers, the dict that
    [analyze_with_ai] returns holds a record under [insights] and a list
    under [recommendations]. *)
Theorem analyze_always_shaped (request : AnalyticsRequest) :
  (exists i, dict_get K_INSIGHTS (analyze request) = Some (JObject i)) /\
  (exists r, dict_get K_RECOMMENDATIONS (analyze request) = Some (JArray r)).
Proof.
  unfold analyze, analyze_with_ai.
  destruct MISTRAL_API_KEY as [|c key].
  { split; eexists; reflexivity. }
  destruct (analyze_try py_str json_dumps call_mistral_api interpreter request)
    as [response|e] eqn:Htry.
  2:{ split; eexists; reflexivity. }
  unfold analyze_try in Htry.
  destruct (prepare_activity_summary py_str json_dumps (activity_data request))
    as [s|]; simpl in Htry; [|discriminate].
  destruct (call_mistral_api _) as [text|]; simpl in Htry; [|discriminate].
  destruct (parse_ai_response_shape interpreter text) as ((i & Hi) & (r & Hr)).
  unfold getitem in Htry. rewrite Hi, Hr in Htry.
  destruct (dict_get K_ANALYSIS (parse_ai_response interpreter text)); simpl in Htry; [|discriminate].
  destruct (dict_get K_SUMMARY (parse_ai_response interpreter text)); simpl in Htry; [|discriminate].
  injection Htry as <-. split; eexists; reflexivity.
Qed.

(** C1, as the code has it.  When the completion endpoint answers a text
    in which the normaliser finds a JSON object that holds [summary] and
    [analysis], [analyze_with_ai] reports success; [insights] is the
    decoded value when that is a record and the default record otherwise
    (absent or of another type), [recommendations] is the decoded value
    when that is a list and the default list otherwise, and [summary] and
    [analysis] are the decoded values, of whatever type. *)
Theorem analyze_partial_repair (request : AnalyticsRequest) (text : str)
  (data : dict) (summary analysis : json) :
  endpoint_answers request text ->
  extract_object interpreter text = Some data ->
  dict_get K_SUMMARY data = Some summary ->
  dict_get K_ANALYSIS data = Some analysis ->
  analyze request =
  [ (K_SUCCESS, JBool true);
    (K_ANALYSIS, analysis);
    (K_RECOMMENDATIONS,
     or_default is_list DEFAULT_RECOMMENDATIONS (dict_get K_RECOMMENDATIONS data));
    (K_INSIGHTS, or_default is_dict DEFAULT_INSIGHTS (dict_get K_INSIGHTS data));
    (K_SUMMARY, summary) ].
Proof.
  intros Hans Hobj Hs Ha.
  destruct keys_distinct as (Hir & His & Hia & Hrs & Hra & Hsa).
  rewrite (analyze_answered Hans), parse_ai_response_cases, Hobj.
  unfold getitem.
  rewrite repair_insights, repair_recommendations.
  rewrite !repair_other by congruence.
  rewrite Hs, Ha. reflexivity.
Qed.

(** C2, as the code has it.  When the completion endpoint answers a text
    without three backquotes in a row that [json.loads] decodes, within
    the limits of the interpreter on nesting and on the digits of an
    integer, to an object with a string under [summary], a string under
    [analysis], a record under [insights] and a list under
    [recommendations], [analyze_with_ai] reports success and returns
    exactly these four decoded values. *)
Theorem analyze_round_trip (request : AnalyticsRequest) (text : str)
  (data : dict) (summary analysis : str) (insights : dict)
  (recommendations : list json) :
  endpoint_answers request text ->
  has_fence text = false ->
  json_loads interpreter text = Return (JObject data) ->
  dict_get K_SUMMARY data = Some (JString summary) ->
  dict_get K_ANALYSIS data = Some (JString analysis) ->
  dict_get K_INSIGHTS data = Some (JObject insights) ->
  dict_get K_RECOMMENDATIONS data = Some (JArray recommendations) ->
  analyze request =
  [ (K_SUCCESS, JBool true);
    (K_ANALYSIS, JString analysis);
    (K_RECOMMENDATIONS, JArray recommendations);
    (K_INSIGHTS, JObject insights);
    (K_SUMMARY, JString summary) ].
Proof.
  intros Hans Hfence Hloads Hs Ha Hi Hr.
  destruct keys_distinct as (Hir & His & Hia & Hrs & Hra & Hsa).
  rewrite (analyze_answered Hans), parse_ai_response_cases.
  rewrite (extract_object_plain _ _ Hfence Hloads).
  unfold getitem.
  rewrite repair_insights, repair_recommendations.
  rewrite !repair_other by congruence.
  rewrite Hs, Ha, Hi, Hr. reflexivity.
Qed.

End AnalyticsService.

Lemma sample_answers (text : str) :
  endpoint_answers sample_key sample_str sample_dumps (answering text)
    sample_request text.
Proof.
  split; [discriminate|].
  eexists. split; reflexivity.
Qed.

Lemma analyze_non_json_text_witness :
  sample_analyze (lit "I cannot answer that.") =
  [ (K_SUCCESS, JBool true);
    (K_ANALYSIS, JString (lit "I cannot answer that."));
    (K_RECOMMENDATIONS, DEFAULT_RECOMMENDATIONS);
    (K_INSIGHTS, DEFAULT_INSIGHTS);
    (K_SUMMARY, JString DEFAULT_SUMMARY) ].
Proof.
  apply (@analyze_non_json_text sample_key sample_str sample_dumps
           (answering (lit "I cannot answer that.")) sample_interpreter sample_request).
  - apply sample_answers.
  - vm_compute. reflexivity.
Defined.

Lemma analyze_partial_repair_witness :
  sample_analyze text_partial =
  [ (K_SUCCESS, JBool true);
    (K_ANALYSIS, JString (lit "a"));
    (K_RECOMMENDATIONS, DEFAULT_RECOMMENDATIONS);
    (K_INSIGHTS, DEFAULT_INSIGHTS);
    (K_SUMMARY, JString (lit "s")) ].
Proof.
  apply (@analyze_partial_repair sample_key sample_str sample_dumps
           (answering text_partial) sample_interpreter sample_request text_partial
           [ (K_SUMMARY, JString (lit "s")); (K_ANALYSIS, JString (lit "a"));
             (K_INSIGHTS, JString (lit "none")) ]).
  - apply sample_answers.
  - vm_compute. reflexivity.
  - reflexivity.
  - reflexivity.
Defined.

(** C1 as stated fails: the answer below decodes to an object whose
    [insights] is a well-formed record and whose [summary] is absent; the
    result does not keep that record (every field is the error
    fallback). *)
Lemma partial_repair_drops_parsed_fields :
  exists data insights,
    extract_object sample_interpreter text_without_summary = Some data /\
    dict_get K_SUMMARY data = None /\
    dict_get K_INSIGHTS data = Some (JObject insights) /\
    dict_get K_INSIGHTS (sample_analyze text_without_summary)
      <> Some (JObject insights) /\
    dict_get K_SUCCESS (sample_analyze text_without_summary) = Some (JBool false).
Proof.
  eexists. eexists.
  split; [vm_compute; reflexivity|].
  split; [reflexivity|].
  split; [reflexivity|].
  split; [vm_compute; discriminate | vm_compute; reflexivity].
Qed.

Lemma parse_ai_response_code_fence_found (interpreter : limits) (payload : str)
  (data : dict) :
  extract_object interpreter payload = Some data ->
  parse_ai_response interpreter (code_fence payload)
  = parse_ai_response interpreter payload.
Proof.
  intro H. rewrite !parse_ai_response_cases, extract_object_code_fence, H.
  reflexivity.
Qed.

(** C4, as the code has it.  For a payload that [json.loads] decodes to
    an object, within the limits of the interpreter on nesting and on the
    digits of an integer, [parse_ai_response] returns the same dict
    whether the payload comes bare or between the markers of a code
    block. *)
Theorem parse_ai_response_code_fence (interpreter : limits) (payload : str)
  (data : dict) :
  json_loads interpreter payload = Return (JObject data) ->
  parse_ai_response interpreter (code_fence payload)
  = parse_ai_response interpreter payload.
Proof.
  intro H. apply extract_object_valid in H as (data' & H).
  rewrite !parse_ai_response_cases, extract_object_code_fence, H.
  reflexivity.
Qed.

Lemma parse_ai_response_code_fence_witness :
  parse_ai_response sample_interpreter (code_fence text_clean)
  = parse_ai_response sample_interpreter text_clean.
Proof.
  apply (@parse_ai_response_code_fence sample_interpreter text_clean
           [ (K_SUMMARY, JString (lit "s")); (K_ANALYSIS, JString (lit "a"));
             (K_INSIGHTS, JObject [ (lit "health_score", JString (lit "9")) ]);
             (K_RECOMMENDATIONS, JArray [ JString (lit "r") ]) ]).
  vm_compute. reflexivity.
Defined.

(** C4 as stated fails: the payload below is valid JSON and not an
    object; the normaliser finds no object in it and returns the raw text
    under [analysis], which holds the markers in one case and not in the
    other. *)
Lemma code_fence_without_object :
  json_loads sample_interpreter (lit "[1, 2]") = Return (JArray [JInt 1; JInt 2]) /\
  dict_get K_ANALYSIS (parse_ai_response sample_interpreter (lit "[1, 2]"))
    = Some (JString (lit "[1, 2]")) /\
  dict_get K_ANALYSIS (parse_ai_response sample_interpreter (code_fence (lit "[1, 2]")))
    = Some (JString (code_fence (lit "[1, 2]"))) /\
  parse_ai_response sample_interpreter (code_fence (lit "[1, 2]"))
    <> parse_ai_response sample_interpreter (lit "[1, 2]").
Proof.
  split; [vm_compute; reflexivity|].
  split; [vm_compute; reflexivity|].
  split; [vm_compute; reflexivity|].
  vm_compute. discriminate.
Qed.

Lemma analyze_round_trip_witness :
  sample_analyze text_clean =
  [ (K_SUCCESS, JBool true);
    (K_ANALYSIS, JString (lit "a"));
    (K_RECOMMENDATIONS, JArray [ JString (lit "r") ]);
    (K_INSIGHTS, JObject [ (lit "health_score", JString (lit "9")) ]);
    (K_SUMMARY, JString (lit "s")) ].
Proof.
  apply (@analyze_round_trip sample_key sample_str sample_dumps
           (answering text_clean) sample_interpreter sample_request text_clean
           [ (K_SUMMARY, JString (lit "s")); (K_ANALYSIS, JString (lit "a"));
             (K_INSIGHTS, JObject [ (lit "health_score", JString (lit "9")) ]);
             (K_RECOMMENDATIONS, JArray [ JString (lit "r") ]) ]).
  - apply sample_answers.
  - vm_compute. reflexivity.
  - vm_compute. reflexivity.
  - reflexivity.
  - reflexivity.
  - reflexivity.
  - reflexivity.
Defined.

(** C2 as stated fails: the answer below is valid JSON that matches the
    schema, and the [summary] that [analyze_with_ai] returns is not the
    decoded one (the backquotes inside the string are deleted). *)
Lemma round_trip_loses_inner_fence :
  exists data summary analysis insights recommendations,
    json_loads sample_interpreter text_with_inner_fence = Return (JObject data) /\
    dict_get K_SUMMARY data = Some (JString summary) /\
    dict_get K_ANALYSIS data = Some (JString analysis) /\
    dict_get K_INSIGHTS data = Some (JObject insights) /\
    dict_get K_RECOMMENDATIONS data = Some (JArray recommendations) /\
    dict_get K_SUCCESS (sample_analyze text_with_inner_fence) = Some (JBool true) /\
    dict_get K_SUMMARY (sample_analyze text_with_inner_fence)
      = Some (JString (lit "run make first")) /\
    JString (lit "run make first") <> JString summary.
Proof.
  do 5 eexists.
  split; [vm_compute; reflexivity|].
  repeat (split; [reflexivity|]).
  discriminate.
Qed.

(** The limits of the interpreter at work.  The first answer is valid
    JSON that matches the schema; an interpreter with room for 900 nested
    values decodes it, and in one that is two calls away from its
    recursion limit [json.loads] raises [RecursionError], so that
    [parse_ai_response] returns its defaults with the raw text.  In the
    second answer an integer of 4301 digits makes [json.loads] raise
    [ValueError], to the same effect. *)
Example parse_beyond_recursion_limit :
  (exists data, json_loads sample_interpreter text_nested = Return (JObject data)) /\
  json_loads shallow_interpreter text_nested = Raise (RecursionError TOO_DEEP_ARRAY) /\
  parse_ai_response shallow_interpreter text_nested = default_res text_nested.
Proof.
  split; [eexists; vm_compute; reflexivity|].
  split; vm_compute; reflexivity.
Qed.

Example parse_beyond_digit_limit :
  (exists msg, json_loads sample_interpreter text_long_int = Raise (ValueError msg)) /\
  parse_ai_response sample_interpreter text_long_int = default_res text_long_int.
Proof.
  split; [eexists; vm_compute; reflexivity|].
  vm_compute. reflexivity.
Qed.

(* ================================================================== *)
(** * The gateway *)
(* ================================================================== *)

Section GatewayService.
Import Gateway.

Variable GITHUB_SERVICE_URL ANALYTICS_SERVICE_URL DATABASE_SERVICE_URL : str.
Variable requests_get : str -> option dict -> http_outcome.
Variable requests_post : str -> option json -> http_outcome.

Local Abbreviation github_url := (GITHUB_ANALYZE_URL GITHUB_SERVICE_URL).
Local Abbreviation analytics_url := (ANALYTICS_ANALYZE_URL ANALYTICS_SERVICE_URL).
Local Abbreviation database_url := (DATABASE_SAVE_URL DATABASE_SERVICE_URL).
Local Abbreviation gateway_analyze :=
  (analyze_repository GITHUB_SERVICE_URL ANALYTICS_SERVICE_URL DATABASE_SERVICE_URL
     requests_get requests_post).
Local Abbreviation post url body :=
  {| call_method := POST; call_url := url; call_json := Some body |}.

(** C7.  When the request to the GitHub service fails (timeout, transport
    failure, error status, a body that is not a JSON object, or an object
    without a true [success]), [analyze_repository] raises the
    [HTTPException] with the status code of that failure, and the only
    request of the run is the one to the GitHub service: neither the
    analytics service nor the database service is called. *)
Theorem gateway_fetch_failure_aborts (request : AnalysisRequest) (log : list call)
  (code : Z) :
  fetch_status (requests_post github_url (Some (github_body request))) = Some code ->
  exists detail,
    gateway_analyze request log =
    (Raise (HTTPException code detail),
     log ++ [ post github_url (github_body request) ]).
Proof.
  unfold analyze_repository, analyze_try, io_bind, call_service, fetch_status,
    handle_outcome.
  destruct (requests_post github_url (Some (github_body request)))
    as [|msg|status body].
  - intros [= <-]. eexists. reflexivity.
  - intros [= <-]. eexists. reflexivity.
  - destruct (status =? 404)%Z.
    { intros [= <-]. eexists. reflexivity. }
    destruct ((400 <=? status) && (status <? 600))%Z.
    { intros [= <-]. eexists. reflexivity. }
    destruct body as [v|].
    2:{ intros [= <-]. eexists. reflexivity. }
    destruct v as [| | | | | |gh]; try (intros [= <-]; eexists; reflexivity).
    unfold io_lift, obj_get, Analytics.obj_get.
    destruct (truthy (dict_get_default (lit "success") JNull gh)); [discriminate|].
    intros [= <-]. eexists. reflexivity.
Qed.

Lemma io_bind_post (A : Type) (url : str) (body : json) (k : json -> io A)
  (log : list call) :
  io_bind (call_service requests_get requests_post url POST (Some body) None) k log =
  match handle_outcome url (requests_post url (Some body)) with
  | Return v => k v (log ++ [ post url body ])
  | Raise e => (Raise e, log ++ [ post url body ])
  end.
Proof. reflexivity. Qed.

Lemma handle_outcome_ok (url : str) (v : json) :
  handle_outcome url (Response 200 (Some v)) = Return v.
Proof. reflexivity. Qed.

Lemma obj_get_dict (d : dict) (k : str) (dflt : json) :
  obj_get (JObject d) k dflt = Return (dict_get_default k dflt d).
Proof. reflexivity. Qed.

Lemma io_bind_return (A B : Type) (v : A) (k : A -> io B) (log : list call) :
  io_bind (io_lift (Return v)) k log = k v log.
Proof. reflexivity. Qed.

Lemma extends_lift (A : Type) (r : result A) : extends_trace (io_lift r).
Proof. intro log. exists []. simpl. now rewrite app_nil_r. Qed.

Lemma extends_call (url : str) (method : http_method) (body : option json)
  (params : option dict) :
  extends_trace (call_service requests_get requests_post url method body params).
Proof.
  intro log. unfold call_service. destruct method; simpl.
  - eexists. reflexivity.
  - eexists. reflexivity.
  - exists []. now rewrite app_nil_r.
Qed.

Lemma extends_bind (A B : Type) (c : io A) (k : A -> io B) :
  extends_trace c -> (forall a, extends_trace (k a)) -> extends_trace (io_bind c k).
Proof.
  intros Hc Hk log. unfold io_bind. destruct (Hc log) as (rest & Hrest).
  destruct (c log) as [[a|e] log']; simpl in Hrest; subst log'.
  - destruct (Hk a (log ++ rest)) as (rest' & Hrest').
    exists (rest ++ rest'). now rewrite Hrest', app_assoc.
  - exists rest. reflexivity.
Qed.

Lemma extends_run (A : Type) (c : io A) (log : list call) :
  extends_trace c -> exists outcome rest, c log = (outcome, log ++ rest).
Proof.
  intro H. destruct (H log) as (rest & Hrest).
  destruct (c log) as [outcome log']. simpl in Hrest. subst log'.
  now exists outcome, rest.
Qed.

(** X20.  When the request to the GitHub service succeeds (a JSON object
    with a true [success], under a status that is no error), the run of
    [analyze_repository] goes on with the request to the analytics
    service, which carries that object as [activity_data]. *)
Theorem gateway_fetch_success_proceeds (request : AnalysisRequest) :
  fetch_status (requests_post github_url (Some (github_body request))) = None ->
  exists status gh,
    requests_post github_url (Some (github_body request))
      = Response status (Some (JObject gh)) /\
    exists outcome rest,
      gateway_analyze request [] =
      (outcome,
       [ post github_url (github_body request);
         post analytics_url (analytics_body request (JObject gh)) ] ++ rest).
Proof.
  unfold fetch_status.
  destruct (requests_post github_url (Some (github_body request)))
    as [|msg|status body] eqn:Hgh; try discriminate.
  destruct (status =? 404)%Z eqn:E404; [discriminate|].
  destruct ((400 <=? status) && (status <? 600))%Z eqn:Eerr; [discriminate|].
  destruct body as [[| | | | | |gh]|]; try discriminate.
  destruct (truthy (dict_get_default (lit "success") JNull gh)) eqn:Hs; [|discriminate].
  intros _. exists status, gh. split; [reflexivity|].
  enough (H : forall r, r = gateway_analyze request [] ->
                        exists outcome rest,
                          r = (outcome,
                               [ post github_url (github_body request);
                                 post analytics_url (analytics_body request (JObject gh)) ]
                               ++ rest))
    by (apply H; reflexivity).
  intros r Hr. unfold analyze_repository, analyze_try in Hr.
  rewrite io_bind_post, Hgh in Hr. unfold handle_outcome at 1 in Hr.
  rewrite E404, Eerr in Hr.
  rewrite obj_get_dict, io_bind_return, Hs in Hr. cbn [negb] in Hr.
  rewrite io_bind_post in Hr. cbn [app] in Hr.
  destruct (handle_outcome analytics_url
              (requests_post analytics_url
                 (Some (analytics_body request (JObject gh))))) as [v|e].
  - match type of Hr with
    | context [io_bind ?c ?k ?log] =>
      destruct (@extends_run _ (io_bind c k) log) as (o & rest & Ho)
    end.
    + repeat (apply extends_bind;
              [ first [apply extends_lift | apply extends_call] | intro ]).
      intro log. exists []. simpl. now rewrite app_nil_r.
    + rewrite Ho in Hr. subst r.
      destruct o as [x|[]]; eexists; exists rest; reflexivity.
  - subst r. destruct e; eexists; exists []; reflexivity.
Qed.

Section WithAnalytics.

Variable MISTRAL_API_KEY : str.
Variable py_str : json -> str.
Variable json_dumps : json -> str.
Variable call_mistral_api : str -> result str.
Variable interpreter : limits.

Local Abbreviation analyze :=
  (analyze_with_ai MISTRAL_API_KEY py_str json_dumps call_mistral_api interpreter).

Lemma analyze_unreachable (request : AnalyticsRequest) :
  MISTRAL_API_KEY <> [] ->
  (forall prompt, exists e, call_mistral_api prompt = Raise e) ->
  exists e,
    analyze request =
    [ (K_SUCCESS, JBool false);
      (K_ERROR, JString (exn_str e));
      (K_ANALYSIS, JString (generate_fallback_analysis py_str (activity_data request)));
      (K_RECOMMENDATIONS, generate_fallback_recommendations (activity_data request));
      (K_INSIGHTS, empty_insights (lit "0"));
      (K_SUMMARY, JString SUMMARY_ERROR) ].
Proof.
  intros Hkey Hdown. unfold analyze_with_ai, Analytics.analyze_try.
  destruct MISTRAL_API_KEY; [congruence|].
  destruct (prepare_activity_summary py_str json_dumps (activity_data request))
    as [summary|e]; simpl bind.
  - destruct (Hdown (create_analysis_prompt (Analytics.owner request)
                       (Analytics.repo_name request) summary)) as (e & ->).
    exists e. reflexivity.
  - exists e. reflexivity.
Qed.

(** C6.  The completion endpoint refuses every connection, the key is
    configured, the GitHub service answers its success payload and the
    database service answers a JSON object: [analyze_repository] returns
    a result (no exception) with a true [success], the fallback summary
    and the two fallback recommendations, after exactly three requests,
    the last of which saves a record that marks the AI analysis as
    unavailable. *)
Theorem gateway_ai_unreachable (request : AnalysisRequest) (gh saved : dict) :
  MISTRAL_API_KEY <> [] ->
  (forall prompt, exists e, call_mistral_api prompt = Raise e) ->
  requests_post github_url (Some (github_body request))
    = Response 200 (Some (JObject gh)) ->
  truthy (dict_get_default (lit "success") JNull gh) = true ->
  is_dict (dict_get_default (lit "commit_stats") (JObject []) gh) = true ->
  (forall body, requests_post analytics_url body
                = analytics_endpoint MISTRAL_API_KEY py_str json_dumps
                    call_mistral_api interpreter body) ->
  (forall body, requests_post database_url (Some body)
                = Response 200 (Some (JObject saved))) ->
  exists result record,
    gateway_analyze request [] =
    (Return result,
     [ post github_url (github_body request);
       post analytics_url (analytics_body request (JObject gh));
       post database_url (JObject record) ]) /\
    dict_get (lit "success") result = Some (JBool true) /\
    dict_get (lit "ai_summary") result = Some (JString SUMMARY_ERROR) /\
    dict_get (lit "ai_recommendations") result =
      Some (JArray [ JString (lit "Увеличьте частоту коммитов");
                     JString (lit "Закройте устаревшие Issues") ]) /\
    dict_get (lit "additional_data") record =
      Some (JObject [ (lit "ai_analysis_available", JBool false) ]).
Proof.
  intros Hkey Hdown Hgh Hsuccess Hstats Hai Hdb.
  destruct (analyze_unreachable
              {| Analytics.repo_name := repo_name request;
                 Analytics.owner := owner request;
                 Analytics.activity_data := gh |} Hkey Hdown) as (e & He).
  assert (Hai' : requests_post analytics_url
                   (Some (analytics_body request (JObject gh)))
                 = Response 200 (Some (JObject
                     [ (K_SUCCESS, JBool false);
                       (K_ERROR, JString (exn_str e));
                       (K_ANALYSIS, JString (generate_fallback_analysis py_str gh));
                       (K_RECOMMENDATIONS, generate_fallback_recommendations gh);
                       (K_INSIGHTS, empty_insights (lit "0"));
                       (K_SUMMARY, JString SUMMARY_ERROR) ]))).
  { rewrite Hai. unfold analytics_endpoint.
    change (parse_request (analytics_body request (JObject gh)))
      with (Some {| Analytics.repo_name := repo_name request;
                    Analytics.owner := owner request;
                    Analytics.activity_data := gh |}).
    cbv iota. rewrite He. reflexivity. }
  clear He Hai. rename Hai' into Hai.
  destruct (dict_get_default (lit "commit_stats") (JObject []) gh)
    as [| | | | | |stats] eqn:Hcs; try discriminate.
  unfold analyze_repository, analyze_try.
  rewrite io_bind_post, Hgh, handle_outcome_ok.
  rewrite obj_get_dict, io_bind_return, Hsuccess. cbn [negb].
  rewrite io_bind_post, Hai, handle_outcome_ok.
  rewrite obj_get_dict, io_bind_return, Hcs.
  rewrite !obj_get_dict, !io_bind_return.
  repeat (rewrite obj_get_dict, io_bind_return).
  rewrite io_bind_post, Hdb, handle_outcome_ok.
  repeat (rewrite obj_get_dict, io_bind_return).
  unfold io_ret.
  eexists. eexists. split; [reflexivity|].
  repeat split; reflexivity.
Qed.

End WithAnalytics.

End GatewayService.

Lemma gateway_fetch_failure_aborts_witness :
  exists detail,
    Gateway.analyze_repository (lit "http://github") (lit "http://analytics")
      (lit "http://database") sample_get dead_post sample_gateway_request [] =
    (Raise (HTTPException 502 detail),
     [ {| Gateway.call_method := Gateway.POST;
          Gateway.call_url := lit "http://github/analyze";
          Gateway.call_json := Some (Gateway.github_body sample_gateway_request) |} ]).
Proof.
  apply (@gateway_fetch_failure_aborts (lit "http://github") (lit "http://analytics")
           (lit "http://database") sample_get dead_post sample_gateway_request [] 502%Z).
  reflexivity.
Defined.

Lemma gateway_ai_unreachable_witness :
  exists result record,
    Gateway.analyze_repository (lit "http://github") (lit "http://analytics")
      (lit "http://database") sample_get sample_post sample_gateway_request [] =
    (Return result,
     [ {| Gateway.call_method := Gateway.POST;
          Gateway.call_url := lit "http://github/analyze";
          Gateway.call_json := Some (Gateway.github_body sample_gateway_request) |};
       {| Gateway.call_method := Gateway.POST;
          Gateway.call_url := lit "http://analytics/analyze";
          Gateway.call_json :=
            Some (Gateway.analytics_body sample_gateway_request (JObject sample_gh)) |};
       {| Gateway.call_method := Gateway.POST;
          Gateway.call_url := lit "http://database/stats/save";
          Gateway.call_json := Some (JObject record) |} ]) /\
    dict_get (lit "success") result = Some (JBool true) /\
    dict_get (lit "ai_summary") result = Some (JString SUMMARY_ERROR) /\
    dict_get (lit "ai_recommendations") result =
      Some (JArray [ JString (lit "Увеличьте частоту коммитов");
                     JString (lit "Закройте устаревшие Issues") ]) /\
    dict_get (lit "additional_data") record =
      Some (JObject [ (lit "ai_analysis_available", JBool false) ]).
Proof.
  apply (@gateway_ai_unreachable (lit "http://github") (lit "http://analytics")
           (lit "http://database") sample_get sample_post
           sample_key sample_str sample_dumps refusing sample_interpreter
           sample_gateway_request sample_gh sample_saved).
  - discriminate.
  - intro prompt. eexists. reflexivity.
  - reflexivity.
  - reflexivity.
  - reflexivity.
  - intro body. reflexivity.
  - intro body. reflexivity.
Defined.

(* ================================================================== *)
(** * The metrics of the GitHub service *)
(* ================================================================== *)

Import GithubService.
Local Open Scope Z_scope.





(** With no subscriber the divisor is one: 120 commits give 12000.0. *)
Example activity_index_no_subscriber :
  (index <- activity_index 120 (JInt 0) ;; Return (round2 (JFloat index)))%py
  = Return (JFloat (float_of_int 12000)).
Proof. vm_compute. reflexivity. Qed.



(** The dates that the web client sends for the thirty days from 1 to 30
    January: the handler reports a window of 30 days, an average of 4.0
    and an index of 300.0. *)
Example analyze_thirty_dates :
  exists r commit_stats,
    sample_github_analyze (lit "2024-01-01T00:00:00Z") (lit "2024-01-30T23:59:59Z")
      = Return r /\
    dict_get (lit "analysis_period_days") r = Some (JInt 30) /\
    dict_get (lit "commit_stats") r = Some (JObject commit_stats) /\
    dict_get (lit "average_commits_per_day") commit_stats
      = Some (JFloat (float_of_int 4)) /\
    dict_get (lit "activity_index") r = Some (JFloat (float_of_int 300)).
Proof. do 2 eexists. repeat split; vm_compute; reflexivity. Qed.

(** The dates that the bot sends for a period of thirty days, an end
    exactly thirty days after the start: the handler reports a window of
    31 days and an average of 3.87. *)
Example analyze_thirty_days_apart :
  exists r commit_stats average,
    sample_github_analyze (lit "2024-01-01T12:00:00Z") (lit "2024-01-31T12:00:00Z")
      = Return r /\
    dict_get (lit "analysis_period_days") r = Some (JInt 31) /\
    dict_get (lit "commit_stats") r = Some (JObject commit_stats) /\
    dict_get (lit "average_commits_per_day") commit_stats = Some (JFloat average) /\
    int_truediv 387 100 = Return average.
Proof. do 3 eexists. repeat split; vm_compute; reflexivity. Qed.

(* ================================================================== *)
(** * The store *)
(* ================================================================== *)

Import Database.






Section Store.

Variable json_dumps : json -> str.


End Store.



(* ================================================================== *)
(** * The store: listings *)
(* ================================================================== *)

Lemma firstn_skipn_pages (A : Type) (a b o : nat) (l : list A) :
  firstn a (skipn o l) ++ firstn b (skipn (o + a) l) = firstn (a + b) (skipn o l).
Proof.
  rewrite Nat.add_comm with (n := o), <- skipn_skipn.
  generalize (skipn o l) as m. clear l o.
  induction a as [|a IH]; intros [|x m]; cbn [firstn skipn app Nat.add];
    try reflexivity.
  - now rewrite firstn_nil.
  - now rewrite IH.
Qed.

Lemma history_of_get_history (limit offset : Z) (db : database) (h : list json) :
  history_of (get_history limit offset db) = Some h ->
  fits_int64 limit = true /\ fits_int64 offset = true /\
  h = map history_entry
        (sql_limit limit (sql_offset offset (order_by_timestamp_desc (repo_stats db)))).
Proof.
  unfold get_history.
  destruct (fits_int64 limit); [|discriminate].
  destruct (fits_int64 offset); [|discriminate].
  cbn. intros [= <-]. auto.
Qed.

Lemma get_history_fits (limit offset : Z) (db : database) :
  fits_int64 limit = true -> fits_int64 offset = true ->
  history_of (get_history limit offset db) =
  Some (map history_entry
          (sql_limit limit (sql_offset offset (order_by_timestamp_desc (repo_stats db))))).
Proof. intros Hl Ho. unfold get_history. rewrite Hl, Ho. reflexivity. Qed.

(** X1.  The pages of [get_history] fit together: for limits and an
    offset that are not negative, the page of [a] rows at [off] followed
    by the page of [b] rows at [off + a] is the page of [a + b] rows at
    [off]. *)
Theorem get_history_pages_compose (a b off : Z) (db : database) (h1 h2 : list json) :
  0 <= a -> 0 <= b -> 0 <= off ->
  fits_int64 (a + b) = true ->
  history_of (get_history a off db) = Some h1 ->
  history_of (get_history b (off + a) db) = Some h2 ->
  history_of (get_history (a + b) off db) = Some (h1 ++ h2).
Proof.
  intros Ha Hb Ho Hab H1 H2.
  apply history_of_get_history in H1 as (_ & Hfo & ->).
  apply history_of_get_history in H2 as (_ & _ & ->).
  rewrite get_history_fits by assumption. f_equal.
  rewrite <- map_app. f_equal.
  unfold sql_limit, sql_offset.
  replace (a <? 0) with false by lia. replace (b <? 0) with false by lia.
  replace (off <? 0) with false by lia. replace (off + a <? 0) with false by lia.
  replace (a + b <? 0) with false by lia.
  rewrite !Z2Nat.inj_add by lia. symmetry. apply firstn_skipn_pages.
Qed.

Lemma get_history_pages_compose_witness :
  exists h1 h2,
    history_of (get_history 1 0 three_rows) = Some h1 /\
    history_of (get_history 1 1 three_rows) = Some h2 /\
    history_of (get_history 2 0 three_rows) = Some (h1 ++ h2) /\
    List.length h1 = 1%nat /\ List.length h2 = 1%nat.
Proof.
  eexists. eexists.
  assert (H1 : history_of (get_history 1 0 three_rows) = Some ?[h1])
    by (vm_compute; reflexivity).
  assert (H2 : history_of (get_history 1 (0 + 1) three_rows) = Some ?[h2])
    by (vm_compute; reflexivity).
  split; [exact H1|]. split; [exact H2|]. split; [|split; reflexivity].
  apply (@get_history_pages_compose 1 1 0 three_rows _ _); try lia;
    [reflexivity|exact H1|exact H2].
Defined.

Lemma str_compare_antisym (a b : str) : str_compare a b = CompOpp (str_compare b a).
Proof.
  revert b. induction a as [|x a IH]; intros [|y b]; cbn; try reflexivity.
  rewrite (N.compare_antisym y x). destruct (y ?= x)%N; cbn; auto.
Qed.

Lemma str_compare_eq (a b : str) : str_compare a b = Eq -> a = b.
Proof.
  revert b. induction a as [|x a IH]; intros [|y b]; cbn; try discriminate; auto.
  destruct (x ?= y)%N eqn:E; try discriminate.
  apply N.compare_eq in E. subst y. intro H. f_equal. auto.
Qed.

Lemma str_compare_lt_trans (a b c : str) :
  str_compare a b = Lt -> str_compare b c = Lt -> str_compare a c = Lt.
Proof.
  revert b c. induction a as [|x a IH]; intros [|y b] [|z c]; cbn;
    try discriminate; auto.
  destruct (x ?= y)%N eqn:Exy; try discriminate;
    destruct (y ?= z)%N eqn:Eyz; try discriminate; intros H1 H2.
  - apply N.compare_eq in Exy, Eyz. subst. rewrite N.compare_refl. eauto.
  - apply N.compare_eq in Exy. subst. now rewrite Eyz.
  - apply N.compare_eq in Eyz. subst. now rewrite Exy.
  - rewrite N.compare_lt_iff in Exy, Eyz.
    assert (E : (x ?= z)%N = Lt) by (apply N.compare_lt_iff; lia).
    now rewrite E.
Qed.

Lemma str_compare_gt_lt (a b : str) : str_compare a b = Gt -> str_compare b a = Lt.
Proof. intro H. rewrite str_compare_antisym, H. reflexivity. Qed.

Lemma not_older_trans (x y z : stats_row) :
  not_older x y -> not_older y z -> not_older x z.
Proof.
  unfold not_older. intros Hxy Hyz Hxz.
  destruct (str_compare (row_timestamp y) (row_timestamp z)) eqn:E; try congruence.
  - apply str_compare_eq in E. congruence.
  - apply str_compare_gt_lt in E.
    apply Hxy. exact (str_compare_lt_trans _ _ _ Hxz E).
Qed.

Lemma insert_desc_perm (r : stats_row) (l : list stats_row) :
  Permutation (r :: l) (insert_desc r l).
Proof.
  induction l as [|x l IH]; cbn; [reflexivity|].
  destruct (str_compare (row_timestamp x) (row_timestamp r)); try reflexivity.
  - rewrite perm_swap. now apply perm_skip.
  - rewrite perm_swap. now apply perm_skip.
Qed.

Lemma order_by_perm_acc (rows acc : list stats_row) :
  Permutation (rev rows ++ acc) (fold_left (fun sorted r => insert_desc r sorted) rows acc).
Proof.
  revert acc. induction rows as [|r rows IH]; intro acc; cbn; [reflexivity|].
  rewrite <- IH, <- app_assoc. cbn.
  apply Permutation_app_head, insert_desc_perm.
Qed.

Lemma order_by_perm (rows : list stats_row) :
  Permutation rows (order_by_timestamp_desc rows).
Proof.
  unfold order_by_timestamp_desc. rewrite <- order_by_perm_acc, app_nil_r.
  apply Permutation_rev.
Qed.

Lemma insert_desc_sorted (r : stats_row) (l : list stats_row) :
  newest_first l -> newest_first (insert_desc r l).
Proof.
  unfold newest_first. induction 1 as [|x l Hl IH Hx]; cbn.
  - repeat constructor.
  - destruct (str_compare (row_timestamp x) (row_timestamp r)) eqn:E.
    + constructor; [exact IH|].
      rewrite <- (insert_desc_perm r l). constructor; [|exact Hx].
      unfold not_older. congruence.
    + constructor; [now constructor|].
      assert (Hrx : not_older r x).
      { unfold not_older. rewrite str_compare_antisym, E. discriminate. }
      constructor; [exact Hrx|].
      eapply Forall_impl; [|exact Hx]. intros y Hy.
      exact (not_older_trans Hrx Hy).
    + constructor; [exact IH|].
      rewrite <- (insert_desc_perm r l). constructor; [|exact Hx].
      unfold not_older. congruence.
Qed.

Lemma order_by_sorted (rows : list stats_row) :
  newest_first (order_by_timestamp_desc rows).
Proof.
  unfold order_by_timestamp_desc.
  assert (H : forall acc, newest_first acc ->
              newest_first (fold_left (fun sorted r => insert_desc r sorted) rows acc)).
  { induction rows as [|r rows IH]; intros acc Hacc; cbn; [exact Hacc|].
    apply IH, insert_desc_sorted, Hacc. }
  apply H. constructor.
Qed.

Lemma sorted_app (a b : list stats_row) :
  newest_first (a ++ b) -> newest_first a /\ newest_first b.
Proof.
  unfold newest_first. induction a as [|x a IH]; cbn; intro H.
  - split; [constructor|exact H].
  - inversion H as [|? ? Hl Hx]; subst. destruct (IH Hl) as [Ha Hb].
    split; [|exact Hb]. constructor; [exact Ha|].
    apply Forall_app in Hx. tauto.
Qed.

Lemma sql_page_middle (limit offset : Z) (l : list stats_row) :
  exists a b, l = a ++ sql_limit limit (sql_offset offset l) ++ b.
Proof.
  unfold sql_limit, sql_offset.
  destruct (offset <? 0); destruct (limit <? 0).
  - exists [], []. now rewrite app_nil_r.
  - exists [], (skipn (Z.to_nat limit) l). cbn. now rewrite firstn_skipn.
  - exists (firstn (Z.to_nat offset) l), []. now rewrite app_nil_r, firstn_skipn.
  - exists (firstn (Z.to_nat offset) l),
           (skipn (Z.to_nat limit) (skipn (Z.to_nat offset) l)).
    now rewrite !firstn_skipn.
Qed.

Lemma sql_limit_front (limit : Z) (l : list stats_row) :
  exists b, l = sql_limit limit l ++ b.
Proof.
  destruct (sql_page_middle limit (-1) l) as (a & b & H).
  unfold sql_offset in H. cbn in H. unfold sql_limit in *.
  destruct (limit <? 0).
  - exists []. now rewrite app_nil_r.
  - exists (skipn (Z.to_nat limit) l). now rewrite firstn_skipn.
Qed.

(** X2.  [get_history] lists stored rows newest first: whatever the
    limit and the offset, the rows of the answer are rows of the table
    and none of them is older than a row listed after it. *)
Theorem get_history_newest_first (limit offset : Z) (db : database) (d : dict) :
  get_history limit offset db = Return d ->
  exists rows,
    dict_get (lit "history") d = Some (JArray (map history_entry rows)) /\
    newest_first rows /\
    incl rows (repo_stats db).
Proof.
  unfold get_history. destruct (negb _); [discriminate|]. intros [= <-].
  eexists. split; [reflexivity|].
  destruct (sql_page_middle limit offset (order_by_timestamp_desc (repo_stats db)))
    as (a & b & Hab).
  pose proof (order_by_sorted (repo_stats db)) as Hs.
  split.
  - rewrite Hab in Hs. apply sorted_app in Hs as [_ Hs].
    now apply sorted_app in Hs as [Hs _].
  - intros x Hx.
    apply (Permutation_in x (Permutation_sym (order_by_perm (repo_stats db)))).
    rewrite Hab. apply in_or_app. right. apply in_or_app. now left.
Qed.

Lemma get_history_newest_first_witness :
  exists d rows,
    get_history 2 1 three_rows = Return d /\
    dict_get (lit "history") d = Some (JArray (map history_entry rows)) /\
    newest_first rows /\
    incl rows (repo_stats three_rows).
Proof.
  eexists.
  assert (H : get_history 2 1 three_rows = Return ?[d]) by (vm_compute; reflexivity).
  destruct (@get_history_newest_first 2 1 three_rows _ H) as (rows & Hrows).
  exists rows. split; [exact H|exact Hrows].
Defined.

Lemma sql_limit_length (limit : Z) (l : list stats_row) :
  0 <= limit -> Z.of_nat (List.length (sql_limit limit l)) <= limit.
Proof.
  intro H. unfold sql_limit. replace (limit <? 0) with false by lia.
  rewrite length_firstn. lia.
Qed.

(** X3.  [get_repo_history] answers rows of the table that belong to the
    repository asked for, newest first, and [count] is their number; a
    limit that is not negative bounds that number, and under a negative
    limit every row of the repository is listed. *)
Theorem get_repo_history_selects (o r : str) (limit : Z) (db : database) (d : dict) :
  get_repo_history o r limit db = Return d ->
  exists rows,
    dict_get (lit "history") d = Some (JArray (map history_entry rows)) /\
    dict_get (lit "count") d = Some (JInt (Z.of_nat (List.length rows))) /\
    Forall (fun x => of_repo o r x /\ In x (repo_stats db)) rows /\
    newest_first rows /\
    (0 <= limit -> Z.of_nat (List.length rows) <= limit) /\
    (limit < 0 -> forall x, In x (repo_stats db) -> of_repo o r x -> In x rows).
Proof.
  unfold get_repo_history. destruct (fits_int64 limit); [|discriminate].
  cbn [negb]. intros [= <-].
  set (sel := filter _ (repo_stats db)).
  exists (sql_limit limit (order_by_timestamp_desc sel)).
  split; [reflexivity|]. split; [cbn; now rewrite length_map|].
  assert (Hsel : forall x, In x sel <-> In x (repo_stats db) /\ of_repo o r x).
  { intro x. subst sel. rewrite filter_In, andb_true_iff, !str_eqb_eq. reflexivity. }
  destruct (sql_limit_front limit (order_by_timestamp_desc sel)) as (b & Hb).
  split; [|split; [|split]].
  - apply Forall_forall. intros x Hx.
    assert (Hin : In x sel).
    { apply (Permutation_in x (Permutation_sym (order_by_perm sel))).
      rewrite Hb. apply in_or_app. now left. }
    apply Hsel in Hin. tauto.
  - pose proof (order_by_sorted sel) as Hs. rewrite Hb in Hs.
    now apply sorted_app in Hs as [Hs _].
  - apply sql_limit_length.
  - intros Hneg x Hx Hrepo. unfold sql_limit. replace (limit <? 0) with true by lia.
    apply (Permutation_in x (order_by_perm sel)). apply Hsel. tauto.
Qed.

Lemma get_repo_history_selects_witness :
  exists d rows,
    get_repo_history (lit "octocat") (lit "repo") 10 three_rows = Return d /\
    dict_get (lit "history") d = Some (JArray (map history_entry rows)) /\
    dict_get (lit "count") d = Some (JInt (Z.of_nat (List.length rows))) /\
    Forall (fun x => of_repo (lit "octocat") (lit "repo") x /\ In x (repo_stats three_rows))
           rows.
Proof.
  eexists.
  assert (H : get_repo_history (lit "octocat") (lit "repo") 10 three_rows = Return ?[d])
    by (vm_compute; reflexivity).
  destruct (@get_repo_history_selects _ _ 10 three_rows _ H)
    as (rows & Hh & Hc & Hf & _).
  exists rows. repeat split; assumption.
Defined.

(** X4.  With a negative limit and no offset [get_history] lists every
    stored row exactly once, and [total] is the number of rows listed. *)
Theorem get_history_lists_all (limit offset : Z) (db : database) (d : dict) :
  limit < 0 -> offset <= 0 ->
  get_history limit offset db = Return d ->
  exists rows,
    dict_get (lit "history") d = Some (JArray (map history_entry rows)) /\
    Permutation rows (repo_stats db) /\
    dict_get (lit "total") d = Some (JInt (Z.of_nat (List.length rows))).
Proof.
  intros Hl Ho. unfold get_history.
  destruct (negb _); [discriminate|]. intros [= <-].
  exists (order_by_timestamp_desc (repo_stats db)).
  assert (E : sql_limit limit (sql_offset offset (order_by_timestamp_desc (repo_stats db)))
              = order_by_timestamp_desc (repo_stats db)).
  { unfold sql_limit, sql_offset. replace (limit <? 0) with true by lia.
    destruct (offset <? 0) eqn:E; [reflexivity|].
    replace offset with 0 by lia. reflexivity. }
  rewrite E. split; [reflexivity|]. split.
  - symmetry. apply order_by_perm.
  - cbn. now rewrite (Permutation_length (order_by_perm (repo_stats db))).
Qed.

Lemma get_history_lists_all_witness :
  exists d rows,
    get_history (-1) 0 three_rows = Return d /\
    dict_get (lit "history") d = Some (JArray (map history_entry rows)) /\
    Permutation rows (repo_stats three_rows) /\
    dict_get (lit "total") d = Some (JInt (Z.of_nat (List.length rows))).
Proof.
  eexists.
  assert (H : get_history (-1) 0 three_rows = Return ?[d]) by (vm_compute; reflexivity).
  destruct (@get_history_lists_all (-1) 0 three_rows _ ltac:(lia) ltac:(lia) H)
    as (rows & Hrows).
  exists rows. split; [exact H|exact Hrows].
Defined.

Section StoreWrites.

Variable json_dumps : json -> str.

(** X5.  A call of [save_statistics] for one repository, whether it
    succeeds or fails, leaves the answer of [get_repo_history] for every
    other repository as it was. *)
Theorem save_keeps_other_histories (now : str) (request : StatsSaveRequest)
  (db : database) (o r : str) (limit : Z) :
  o <> owner request \/ r <> repo_name request ->
  get_repo_history o r limit (snd (save_statistics json_dumps now request db))
  = get_repo_history o r limit db.
Proof.
  intro Hother. unfold save_statistics.
  destruct (negb _); [reflexivity|].
  destruct (INT64_MAX <=? largest_rowid db); [reflexivity|].
  unfold get_repo_history. cbn [snd repo_stats].
  rewrite filter_app. cbn [filter new_row row_owner row_repo_name].
  replace (str_eqb (owner request) o && str_eqb (repo_name request) r) with false.
  - now rewrite app_nil_r.
  - symmetry. apply andb_false_iff.
    destruct Hother as [H|H]; [left|right]; apply str_eqb_neq; congruence.
Qed.

Lemma max_rowid_bound (rows : list stats_row) (m : Z) :
  0 <= m -> Forall (fun x => row_id x <= m) rows -> max_rowid rows <= m.
Proof.
  intros Hm H. unfold max_rowid. induction H as [|x l Hx Hl IH]; cbn [fold_right]; lia.
Qed.

Lemma sorted_snoc (ids : list Z) (n : Z) :
  StronglySorted Z.lt ids -> Forall (fun i => i < n) ids ->
  StronglySorted Z.lt (ids ++ [n]).
Proof.
  induction 1 as [|i ids Hs IH Hi]; cbn; intro Hn.
  - repeat constructor.
  - inversion Hn; subst. constructor; [now apply IH|].
    apply Forall_app. split; [exact Hi|]. now repeat constructor.
Qed.

(** X6.  In every table built from the empty one by calls of
    [save_statistics], the keys are positive, increase strictly in
    insertion order (so no two rows share a key) and none exceeds the
    recorded sequence value. *)
Theorem reachable_keys_increase (db : database) :
  reachable json_dumps db ->
  StronglySorted Z.lt (map row_id (repo_stats db)) /\
  Forall (fun x => 0 < row_id x <= sqlite_sequence db) (repo_stats db) /\
  NoDup (map row_id (repo_stats db)).
Proof.
  intro H.
  enough (Hinv : StronglySorted Z.lt (map row_id (repo_stats db)) /\
                 Forall (fun x => 0 < row_id x <= sqlite_sequence db) (repo_stats db) /\
                 0 <= sqlite_sequence db).
  { destruct Hinv as (Hs & Hf & _). repeat split; trivial.
    clear Hf. induction Hs as [|i ids Hs IH Hi]; constructor; [|exact IH].
    intro Hin. rewrite Forall_forall in Hi. specialize (Hi _ Hin). lia. }
  induction H as [|now request db Hr (Hs & Hf & Hseq)].
  - cbn. repeat constructor. lia.
  - unfold save_statistics.
    destruct (negb _); [cbn [snd]; auto|].
    destruct (INT64_MAX <=? largest_rowid db) eqn:Hfull; [cbn [snd]; auto|].
    cbn [snd repo_stats sqlite_sequence].
    assert (Hmax : max_rowid (repo_stats db) <= sqlite_sequence db).
    { apply max_rowid_bound; [exact Hseq|].
      eapply Forall_impl; [|exact Hf]. intros a Ha; cbv beta in Ha |- *; lia. }
    assert (Hl : largest_rowid db = sqlite_sequence db) by (unfold largest_rowid; lia).
    rewrite Hl. split; [|split].
    + rewrite map_app. cbn [map new_row row_id]. apply sorted_snoc; [exact Hs|].
      apply Forall_map. eapply Forall_impl; [|exact Hf]. intros a Ha; cbv beta in Ha |- *; lia.
    + apply Forall_app. split.
      * eapply Forall_impl; [|exact Hf]. intros a Ha; cbv beta in Ha |- *; lia.
      * repeat constructor; cbn; lia.
    + lia.
Qed.

End StoreWrites.


Lemma save_keeps_other_histories_witness :
  get_repo_history (lit "python") (lit "cpython") 10
    (snd (save_statistics sample_dumps (lit "2024-03-01 00:00:00") sample_save three_rows))
  = get_repo_history (lit "python") (lit "cpython") 10 three_rows.
Proof.
  apply (@save_keeps_other_histories sample_dumps (lit "2024-03-01 00:00:00")
           sample_save three_rows (lit "python") (lit "cpython") 10).
  left. vm_compute. discriminate.
Defined.

Lemma reachable_keys_increase_witness :
  let db := snd (save_statistics sample_dumps (lit "2024-03-01 00:00:00") sample_save
                   (snd (save_statistics sample_dumps (lit "2024-03-01 00:00:00")
                           sample_save
                           {| repo_stats := []; sqlite_sequence := 0 |}))) in
  map row_id (repo_stats db) = [1; 2] /\
  StronglySorted Z.lt (map row_id (repo_stats db)) /\
  Forall (fun x => 0 < row_id x <= sqlite_sequence db) (repo_stats db) /\
  NoDup (map row_id (repo_stats db)).
Proof.
  intro db. split; [vm_compute; reflexivity|].
  apply (@reachable_keys_increase sample_dumps db).
  apply reachable_save, reachable_save, reachable_empty.
Defined.

(* ================================================================== *)
(** * The store: the cache *)
(* ================================================================== *)

Section CacheFacts.

Variable expires_at_str : Z -> Z -> result str.
Variable fromisoformat : str -> result GithubService.datetime.

Local Abbreviation set_entry := (set_cache expires_at_str).
Local Abbreviation get_entry := (get_cache fromisoformat).

Lemma find_other_key (key : str) (rows : list cache_row) :
  find (has_key key) (filter (fun r => negb (has_key key r)) rows) = None.
Proof.
  induction rows as [|x rows IH]; cbn; [reflexivity|].
  destruct (has_key key x) eqn:E; cbn; [exact IH|]. now rewrite E.
Qed.

Lemma find_app_none (A : Type) (f : A -> bool) (l m : list A) :
  find f l = None -> find f (l ++ m) = find f m.
Proof.
  induction l as [|x l IH]; cbn; [reflexivity|].
  destruct (f x); [discriminate|exact IH].
Qed.

Lemma has_key_refl (key : str) (r : cache_row) : cache_key r = key -> has_key key r = true.
Proof. intros <-. apply str_eqb_refl. Qed.

Lemma has_key_other (key key' : str) (r : cache_row) :
  key' <> key -> has_key key r = true -> has_key key' r = false.
Proof.
  unfold has_key. intros Hne H. apply str_eqb_eq in H. apply str_eqb_neq. congruence.
Qed.

Lemma find_filter_other (key key' : str) (rows : list cache_row) :
  key' <> key ->
  find (has_key key') (filter (fun r => negb (has_key key r)) rows)
  = find (has_key key') rows.
Proof.
  intro Hne. induction rows as [|x rows IH]; cbn; [reflexivity|].
  destruct (has_key key x) eqn:E; cbn.
  - rewrite (@has_key_other key key' x Hne E). exact IH.
  - destruct (has_key key' x); [reflexivity|exact IH].
Qed.

(** X7.  What [set_cache] stores under a key is what [get_cache] returns
    for it, whatever the table held under that key before, as long as
    the lookup is not later than the expiry. *)
Theorem cache_set_then_get (utcnow utcnow' : Z) (stamp key data text : str)
  (ttl_seconds : Z) (expires : GithubService.datetime) (c : cache_table) :
  expires_at_str utcnow ttl_seconds = Return text ->
  fromisoformat text = Return expires ->
  GithubService.aware expires = false ->
  utcnow' <= GithubService.instant expires ->
  Z.max (max_cache_id (github_cache c)) (cache_sequence c) < INT64_MAX ->
  exists c',
    set_entry utcnow stamp key data ttl_seconds c =
    (Return [ (lit "success", JBool true); (lit "cache_key", JString key) ], c') /\
    get_entry utcnow' key c' =
    (Return [ (lit "found", JBool true);
              (lit "data", JString data);
              (lit "cache_key", JString key) ], c').
Proof.
  intros Htext Hparse Hnaive Hfresh Hfree.
  unfold set_cache. rewrite Htext.
  replace (INT64_MAX <=? _) with false by lia.
  eexists. split; [reflexivity|].
  unfold get_cache. cbn [github_cache].
  rewrite find_app_none by apply find_other_key.
  cbn [find]. rewrite has_key_refl by reflexivity.
  cbn [cache_expires_at cache_data]. rewrite Hparse, Hnaive.
  replace (_ <? utcnow') with false by lia. reflexivity.
Qed.

(** X8.  A call of [set_cache] under one key does not change what
    [get_cache] answers for another key. *)
Theorem cache_set_keeps_other_keys (utcnow utcnow' : Z) (stamp key key' data : str)
  (ttl_seconds : Z) (c : cache_table) :
  key' <> key ->
  fst (get_entry utcnow' key' (snd (set_entry utcnow stamp key data ttl_seconds c)))
  = fst (get_entry utcnow' key' c).
Proof.
  intro Hne. unfold set_cache.
  destruct (expires_at_str utcnow ttl_seconds) as [text|e]; [|reflexivity].
  destruct (INT64_MAX <=? _); [reflexivity|].
  cbn [snd]. unfold get_cache. cbn [github_cache].
  assert (E : find (has_key key')
                (filter (fun r => negb (has_key key r)) (github_cache c)
                 ++ [ {| cache_id := Z.max (max_cache_id (github_cache c)) (cache_sequence c) + 1;
                         cache_key := key; cache_data := data;
                         cache_created_at := stamp; cache_expires_at := text |} ])
              = find (has_key key') (github_cache c)).
  { rewrite <- (@find_filter_other key key' (github_cache c) Hne).
    destruct (find (has_key key') (filter _ (github_cache c))) eqn:F.
    - clear - F. revert F. generalize (filter (fun r => negb (has_key key r)) (github_cache c)).
      induction l as [|x l IH]; cbn; [discriminate|].
      destruct (has_key key' x); [trivial|exact IH].
    - rewrite (@find_app_none _ _ _ _ F). cbn [find].
      rewrite (@has_key_other key key' _ Hne); [reflexivity|].
      now apply has_key_refl. }
  rewrite E.
  destruct (find (has_key key') (github_cache c)) as [row|]; [|reflexivity].
  destruct (fromisoformat (cache_expires_at row)) as [t|e]; [|reflexivity].
  destruct (GithubService.aware t); [reflexivity|].
  destruct (GithubService.instant t <? utcnow'); reflexivity.
Qed.

(** X9.  A lookup after the expiry answers [expired] and deletes the
    entry: every later lookup of the key answers a plain [found: false],
    and the entries under other keys stay. *)
Theorem cache_expired_entry_removed (utcnow later : Z) (key : str) (row : cache_row)
  (expires : GithubService.datetime) (c : cache_table) :
  find (has_key key) (github_cache c) = Some row ->
  fromisoformat (cache_expires_at row) = Return expires ->
  GithubService.aware expires = false ->
  GithubService.instant expires < utcnow ->
  exists c',
    get_entry utcnow key c =
    (Return [ (lit "found", JBool false); (lit "expired", JBool true) ], c') /\
    get_entry later key c' = (Return [ (lit "found", JBool false) ], c') /\
    (forall key', key' <> key ->
       find (has_key key') (github_cache c') = find (has_key key') (github_cache c)).
Proof.
  intros Hrow Hparse Hnaive Hold. unfold get_cache at 1.
  rewrite Hrow, Hparse, Hnaive. replace (_ <? utcnow) with true by lia.
  eexists. split; [reflexivity|]. split.
  - unfold get_cache. cbn [github_cache]. now rewrite find_other_key.
  - intros key' Hne. cbn [github_cache]. now apply find_filter_other.
Qed.

Lemma keys_filter (f : cache_row -> bool) (rows : list cache_row) :
  NoDup (map cache_key rows) -> NoDup (map cache_key (filter f rows)).
Proof.
  induction rows as [|x rows IH]; cbn; [trivial|].
  intro H. inversion H as [|? ? Hx Hrest]; subst.
  destruct (f x); cbn; [|auto]. constructor; [|auto].
  intro Hin. apply Hx. apply in_map_iff in Hin as (y & Hy & Hin).
  apply filter_In in Hin as [Hin _]. apply in_map_iff. eauto.
Qed.

(** X10.  No operation on the cache leaves two entries under one key. *)
Theorem cache_keys_stay_distinct (utcnow : Z) (stamp key data : str) (ttl_seconds : Z)
  (c : cache_table) :
  NoDup (map cache_key (github_cache c)) ->
  NoDup (map cache_key (github_cache (snd (set_entry utcnow stamp key data ttl_seconds c)))) /\
  NoDup (map cache_key (github_cache (snd (get_entry utcnow key c)))) /\
  NoDup (map cache_key (github_cache (snd (clear_cache c)))).
Proof.
  intro H. split; [|split].
  - unfold set_cache.
    destruct (expires_at_str utcnow ttl_seconds) as [text|e]; [|exact H].
    destruct (INT64_MAX <=? _); [exact H|].
    cbn [snd github_cache]. rewrite map_app. cbn [map cache_key].
    apply NoDup_app; [now apply keys_filter|repeat constructor; intros []|].
    intros k Hk [<-|[]]. apply in_map_iff in Hk as (x & Hx & Hin).
    apply filter_In in Hin as [_ Hin]. unfold has_key in Hin.
    rewrite Hx, str_eqb_refl in Hin. discriminate.
  - unfold get_cache.
    destruct (find (has_key key) (github_cache c)) as [row|]; [|exact H].
    destruct (fromisoformat (cache_expires_at row)) as [t|e]; [|exact H].
    destruct (GithubService.aware t); [exact H|].
    destruct (GithubService.instant t <? utcnow); [|exact H].
    cbn [snd github_cache]. now apply keys_filter.
  - constructor.
Qed.

End CacheFacts.


Lemma cache_set_then_get_witness :
  exists c',
    set_cache sample_expires_at_str midnight (lit "2024-01-01 00:00:00")
      (lit "octocat/repo") (lit "fresh") 3600 sample_cache =
    (Return [ (lit "success", JBool true);
              (lit "cache_key", JString (lit "octocat/repo")) ], c') /\
    get_cache naive_fromisoformat (midnight + 60000000) (lit "octocat/repo") c' =
    (Return [ (lit "found", JBool true);
              (lit "data", JString (lit "fresh"));
              (lit "cache_key", JString (lit "octocat/repo")) ], c').
Proof.
  apply (@cache_set_then_get sample_expires_at_str naive_fromisoformat
           midnight (midnight + 60000000) (lit "2024-01-01 00:00:00")
           (lit "octocat/repo") (lit "fresh") (lit "2024-01-01T01:00:00") 3600
           {| GithubService.instant := midnight + 3600000000;
              GithubService.aware := false |} sample_cache).
  - reflexivity.
  - vm_compute. reflexivity.
  - reflexivity.
  - vm_compute. discriminate.
  - vm_compute. reflexivity.
Defined.

Lemma cache_set_keeps_other_keys_witness :
  fst (get_cache naive_fromisoformat (midnight - 1) (lit "octocat/repo")
         (snd (set_cache sample_expires_at_str midnight (lit "2024-01-01 00:00:00")
                 (lit "python/cpython") (lit "fresh") 3600 sample_cache)))
  = fst (get_cache naive_fromisoformat (midnight - 1) (lit "octocat/repo") sample_cache).
Proof.
  apply (@cache_set_keeps_other_keys sample_expires_at_str naive_fromisoformat
           midnight (midnight - 1) (lit "2024-01-01 00:00:00")
           (lit "python/cpython") (lit "octocat/repo") (lit "fresh") 3600 sample_cache).
  vm_compute. discriminate.
Defined.

Lemma cache_expired_entry_removed_witness :
  exists c',
    get_cache naive_fromisoformat (midnight + 1) (lit "octocat/repo") sample_cache =
    (Return [ (lit "found", JBool false); (lit "expired", JBool true) ], c') /\
    get_cache naive_fromisoformat (midnight + 2) (lit "octocat/repo") c' =
    (Return [ (lit "found", JBool false) ], c').
Proof.
  destruct (@cache_expired_entry_removed naive_fromisoformat (midnight + 1) (midnight + 2)
              (lit "octocat/repo") cached_row
              {| GithubService.instant := midnight; GithubService.aware := false |}
              sample_cache)
    as (c' & H1 & H2 & _).
  - vm_compute. reflexivity.
  - vm_compute. reflexivity.
  - reflexivity.
  - vm_compute. reflexivity.
  - exists c'. split; assumption.
Defined.

Lemma cache_keys_stay_distinct_witness :
  NoDup (map cache_key (github_cache
     (snd (set_cache sample_expires_at_str midnight (lit "2024-01-01 00:00:00")
             (lit "octocat/repo") (lit "fresh") 3600 sample_cache)))).
Proof.
  apply (@cache_keys_stay_distinct sample_expires_at_str naive_fromisoformat
           midnight (lit "2024-01-01 00:00:00") (lit "octocat/repo") (lit "fresh")
           3600 sample_cache).
  vm_compute. repeat constructor; intros [].
Defined.

(* ================================================================== *)
(** * The requests to the GitHub API *)
(* ================================================================== *)

Import GithubApi.
Local Open Scope py_scope.

Section Commits.

Variable github : str -> option dict -> result json.

Local Abbreviation fetch_pages' := (fetch_pages github).
Local Abbreviation fetch_commits' := (fetch_commits github).

Lemma seq_snoc_pages (o r s : str) (page : nat) (n : nat) :
  commits_request o r s (Z.of_nat page)
    :: map (fun p => commits_request o r s (Z.of_nat p)) (seq (S page) n)
  = map (fun p => commits_request o r s (Z.of_nat p)) (seq page (S n)).
Proof. reflexivity. Qed.

Lemma fetch_pages_log (o r s : str) (remaining : nat) :
  forall (page : nat) (st : counters) (log : list request),
  exists n, (n <= remaining)%nat /\ (0 < remaining -> 0 < n)%nat /\
    snd (fetch_pages' o r s remaining (Z.of_nat page) st log)
    = log ++ map (fun p => commits_request o r s (Z.of_nat p)) (seq page n).
Proof.
  induction remaining as [|remaining IH]; intros page st log.
  - exists 0%nat. cbn. rewrite app_nil_r. repeat split; lia.
  - cbn [fetch_pages].
    assert (One : exists n, (n <= S remaining)%nat /\ (0 < S remaining -> 0 < n)%nat /\
              log ++ [commits_request o r s (Z.of_nat page)]
              = log ++ map (fun p => commits_request o r s (Z.of_nat p)) (seq page n)).
    { exists 1%nat. repeat split; lia. }
    destruct (github _ _) as [commits|e]; [|exact One].
    destruct (negb (truthy commits)); [exact One|].
    destruct (iterate commits) as [items|e]; [|exact One]. cbn [bind].
    destruct (for_each count_commit st items) as [st'|e]; [|exact One]. cbn [bind].
    destruct (py_len commits) as [n|e]; [|exact One]. cbn [bind].
    destruct (n <? 100); [exact One|].
    replace (Z.of_nat page + 1) with (Z.of_nat (S page)) by lia.
    destruct (IH (S page) st' (log ++ [commits_request o r s (Z.of_nat page)]))
      as (k & Hk & _ & Hlog).
    exists (S k). split; [lia|]. split; [lia|].
    rewrite Hlog, <- app_assoc. reflexivity.
Qed.

(** X11.  [fetch_commits] requests the pages 1, 2, ... in order, at least
    one and never more than ten, whatever GitHub answers. *)
Theorem fetch_commits_pages (owner repo_name since_date : str) :
  exists n, (1 <= n <= 10)%nat /\
    snd (fetch_commits' owner repo_name since_date)
    = pages_requested owner repo_name since_date n.
Proof.
  unfold fetch_commits, pages_requested.
  destruct (fetch_pages_log owner repo_name since_date 10 1
              {| total := 0; by_author := []; by_day := [] |} [])
    as (n & Hle & Hpos & Hlog).
  exists n. split; [lia|].
  change (Z.of_nat 1) with 1 in Hlog.
  destruct (fetch_pages' _ _ _ 10 1 _ []) as [[st|e] log]; exact Hlog.
Qed.


Lemma count_commit_readable (st : counters) (commit : json) :
  readable_commit commit ->
  exists st', count_commit st commit = Return st' /\ total st' = total st + 1.
Proof.
  intros (name & date & Hname & Hdate). unfold count_commit.
  rewrite Hname. cbn [bind count_key hashable]. rewrite Hdate. cbn [bind].
  unfold day_of. destruct (truthy (JString date)); cbn [bind]; eexists; split; reflexivity.
Qed.

Lemma for_each_readable (items : list json) :
  Forall readable_commit items ->
  forall st, exists st',
    for_each count_commit st items = Return st' /\
    total st' = total st + Z.of_nat (List.length items).
Proof.
  induction 1 as [|c items Hc Hitems IH]; intro st.
  - exists st. split; [reflexivity|cbn; lia].
  - destruct (count_commit_readable st Hc) as (st1 & H1 & Ht1).
    destruct (IH st1) as (st2 & H2 & Ht2).
    exists st2. cbn [for_each]. rewrite H1. cbn [bind]. split; [exact H2|].
    rewrite Ht2, Ht1. cbn [List.length]. lia.
Qed.

Lemma fetch_pages_served (o r s : str) (remaining : nat) :
  forall (page : nat) (rest : list json) (st : counters) (log : list request),
  Forall readable_commit rest ->
  (forall k, (k < remaining)%nat ->
     github (endpoint (commits_request o r s (Z.of_nat (page + k))))
            (params (commits_request o r s (Z.of_nat (page + k))))
     = Return (JArray (firstn 100 (skipn (100 * k) rest)))) ->
  exists st',
    fetch_pages' o r s remaining (Z.of_nat page) st log =
    (Return st',
     log ++ map (fun p => commits_request o r s (Z.of_nat p))
                (seq page (Nat.min remaining (List.length rest / 100 + 1)))) /\
    total st' = total st + Z.of_nat (Nat.min (List.length rest) (100 * remaining)).
Proof.
  induction remaining as [|remaining IH]; intros page rest st log Hrest Hserved.
  - exists st. cbn. rewrite app_nil_r, Nat.min_0_r. split; [reflexivity|lia].
  - cbn [fetch_pages].
    pose proof (Hserved 0%nat ltac:(lia)) as H0.
    rewrite Nat.add_0_r, Nat.mul_0_r in H0. cbn [skipn] in H0. rewrite H0.
    destruct (firstn 100 rest) as [|c items] eqn:Hfirst.
    + (* nothing left *)
      assert (rest = []) by (destruct rest; [reflexivity|discriminate]). subst rest.
      cbn [truthy negb]. exists st. cbn [List.length].
      replace (Nat.min (S remaining) (0 / 100 + 1)) with 1%nat
        by (rewrite Nat.Div0.div_0_l; lia).
      split; [reflexivity|]. rewrite Nat.min_0_l. lia.
    + cbn [truthy negb iterate bind].
      assert (Hpage : Forall readable_commit (c :: items)).
      { rewrite <- Hfirst. apply Forall_forall. intros x Hx.
        rewrite Forall_forall in Hrest. apply Hrest.
        rewrite <- (firstn_skipn 100 rest). apply in_or_app. now left. }
      destruct (for_each_readable Hpage st) as (st1 & H1 & Ht1).
      rewrite H1. cbn [bind py_len].
      assert (Hlen : List.length (c :: items) = Nat.min 100 (List.length rest)).
      { rewrite <- Hfirst. apply length_firstn. }
      destruct (Z.of_nat (List.length (c :: items)) <? 100) eqn:Hshort.
      * exists st1. apply Z.ltb_lt in Hshort.
        assert (Hsmall : (List.length rest < 100)%nat) by lia.
        rewrite (Nat.div_small _ _ Hsmall). cbn [Nat.add].
        replace (Nat.min (S remaining) 1) with 1%nat by lia.
        split; [reflexivity|]. rewrite Ht1, Hlen. f_equal. f_equal. lia.
      * apply Z.ltb_ge in Hshort.
        assert (Hbig : (100 <= List.length rest)%nat) by lia.
        replace (Z.of_nat page + 1) with (Z.of_nat (S page)) by lia.
        destruct (IH (S page) (skipn 100 rest) st1
                    (log ++ [commits_request o r s (Z.of_nat page)]))
          as (st2 & H2 & Ht2).
        { rewrite <- (firstn_skipn 100 rest) in Hrest.
          apply Forall_app in Hrest. tauto. }
        { intros k Hk. specialize (Hserved (S k) ltac:(lia)).
          replace (page + S k)%nat with (S page + k)%nat in Hserved by lia.
          rewrite Hserved. do 3 f_equal.
          rewrite skipn_skipn. f_equal. lia. }
        exists st2. rewrite H2. rewrite length_skipn in Ht2 |- *.
        assert (Hdiv : (List.length rest / 100 = S ((List.length rest - 100) / 100))%nat).
        { replace (List.length rest) with ((List.length rest - 100) + 1 * 100)%nat at 1 by lia.
          rewrite Nat.div_add by lia. lia. }
        split.
        -- rewrite <- app_assoc. f_equal. rewrite Hdiv.
           replace (Nat.min (S remaining) (S ((List.length rest - 100) / 100) + 1))
             with (S (Nat.min remaining ((List.length rest - 100) / 100 + 1))) by lia.
           reflexivity.
        -- rewrite Ht2, Ht1, Hlen. lia.
Qed.

(** X12.  When GitHub serves a list of commits with readable author
    names and dates a hundred to a page, [fetch_commits] counts all of
    them up to a thousand and no more: [total_commits] is the smaller of
    the length of the list and 1000, and the pages requested are those
    up to the first one that is not full. *)
Theorem fetch_commits_counts_served (owner repo_name since_date : str) (all : list json) :
  Forall readable_commit all ->
  (forall p, 1 <= p <= 10 ->
     github (endpoint (commits_request owner repo_name since_date p))
            (params (commits_request owner repo_name since_date p))
     = Return (JArray (page_of all p))) ->
  exists counts,
    fetch_commits' owner repo_name since_date =
    (Return counts,
     pages_requested owner repo_name since_date
       (Nat.min 10 (List.length all / 100 + 1))) /\
    total_commits counts = Z.min (Z.of_nat (List.length all)) 1000.
Proof.
  intros Hall Hserved. unfold fetch_commits.
  destruct (@fetch_pages_served owner repo_name since_date 10 1 all
              {| total := 0; by_author := []; by_day := [] |} [] Hall)
    as (st & Hrun & Htotal).
  { intros k Hk. rewrite Hserved by lia. unfold page_of. do 4 f_equal. lia. }
  change (Z.of_nat 1) with 1 in Hrun. rewrite Hrun.
  eexists. split; [reflexivity|].
  cbn [total_commits]. rewrite Htotal. cbn [total]. lia.
Qed.

Lemma count_sum_increment (K : Type) (eqb : K -> K -> bool) (k : K) (d : list (K * Z)) :
  count_sum (increment eqb k d) = count_sum d + 1.
Proof.
  unfold count_sum. induction d as [|[k' n] d IH]; cbn [increment fold_right snd];
    [reflexivity|].
  destruct (eqb k' k); cbn [fold_right snd]; [|rewrite IH]; lia.
Qed.

Lemma positive_increment (K : Type) (eqb : K -> K -> bool) (k : K) (d : list (K * Z)) :
  Forall (fun kv => 0 < snd kv) d -> Forall (fun kv => 0 < snd kv) (increment eqb k d).
Proof.
  induction 1 as [|[k' n] d Hn Hd IH]; cbn.
  - repeat constructor.
  - destruct (eqb k' k); constructor; cbn in *; auto; lia.
Qed.

Lemma max_item_spec (K : Type) (items : list (K * Z)) :
  forall best : K * Z,
    In (max_item best items) (best :: items) /\
    forall item, In item (best :: items) -> snd item <= snd (max_item best items).
Proof.
  induction items as [|x items IH]; intro best; cbn [max_item].
  - split; [now left|]. intros item [<-|[]]. lia.
  - destruct (snd x >? snd best) eqn:E.
    + destruct (IH x) as [Hin Hmax]. split.
      * destruct Hin as [H|H]; [right; left; exact H|right; right; exact H].
      * intros item [<-|[<-|H]].
        -- specialize (Hmax x (or_introl eq_refl)). lia.
        -- apply Hmax. now left.
        -- apply Hmax. now right.
    + destruct (IH best) as [Hin Hmax]. split.
      * destruct Hin as [H|H]; [left; exact H|right; right; exact H].
      * intros item [<-|[<-|H]].
        -- apply Hmax. now left.
        -- specialize (Hmax best (or_introl eq_refl)). lia.
        -- apply Hmax. now right.
Qed.

Lemma count_commit_consistent (st st' : counters) (commit : json) :
  consistent st -> count_commit st commit = Return st' -> consistent st'.
Proof.
  intros (Ha & Hd & Hp). unfold count_commit.
  destruct (author_field commit (lit "name") _) as [author|e]; [|discriminate].
  cbn [bind]. unfold count_key.
  destruct (hashable author); [|discriminate]. cbn [bind].
  destruct (author_field commit (lit "date") _) as [date|e]; [|discriminate].
  cbn [bind]. destruct (day_of date) as [day|e]; [|discriminate].
  cbn [bind]. intros [= <-]. unfold consistent. cbn [by_author by_day total].
  rewrite count_sum_increment. split; [lia|]. split.
  - destruct day; [rewrite count_sum_increment|]; lia.
  - now apply positive_increment.
Qed.

Lemma for_each_consistent (items : list json) :
  forall st st', consistent st -> for_each count_commit st items = Return st' ->
                 consistent st'.
Proof.
  induction items as [|c items IH]; intros st st' Hst; cbn [for_each].
  - now intros [= <-].
  - destruct (count_commit st c) as [st1|e] eqn:E; [|discriminate]. cbn [bind].
    apply IH. exact (@count_commit_consistent st st1 c Hst E).
Qed.

Lemma fetch_pages_consistent (o r s : str) (remaining : nat) :
  forall page st log st' log',
    consistent st ->
    fetch_pages' o r s remaining page st log = (Return st', log') ->
    consistent st'.
Proof.
  induction remaining as [|remaining IH]; intros page st log st' log' Hst;
    cbn [fetch_pages].
  - now intros [= <- _].
  - destruct (github _ _) as [commits|e]; [|discriminate].
    destruct (negb (truthy commits)); [now intros [= <- _]|].
    destruct (iterate commits) as [items|e]; [|discriminate]. cbn [bind].
    destruct (for_each count_commit st items) as [st1|e] eqn:E; [|discriminate].
    cbn [bind]. destruct (py_len commits) as [n|e]; [|discriminate]. cbn [bind].
    pose proof (@for_each_consistent items st st1 Hst E) as H1.
    destruct (n <? 100); [now intros [= <- _]|].
    now apply IH.
Qed.

(** X13.  Whenever [fetch_commits] returns, the counts per author add up
    to [total_commits] and the counts per day to at most that; when no
    commit was counted [most_active_author] is [None], and otherwise it
    is a key of [commits_by_author] with the largest count (a key that
    may itself be [None], the name of a commit being free). *)
Theorem fetch_commits_counts_consistent (owner repo_name since_date : str)
  (counts : commit_counts) (log : list request) :
  fetch_commits' owner repo_name since_date = (Return counts, log) ->
  count_sum (commits_by_author counts) = total_commits counts /\
  count_sum (commits_by_day counts) <= total_commits counts /\
  (total_commits counts = 0 -> most_active_author counts = JNull) /\
  (total_commits counts <> 0 ->
     exists n, In (most_active_author counts, n) (commits_by_author counts) /\
               forall k m, In (k, m) (commits_by_author counts) -> m <= n).
Proof.
  unfold fetch_commits.
  destruct (fetch_pages' _ _ _ 10 1 _ []) as [[st|e] log'] eqn:Hrun; [|discriminate].
  intros [= <- _]. cbn [commits_by_author commits_by_day total_commits most_active_author].
  apply fetch_pages_consistent in Hrun as (Ha & Hd & Hp).
  2:{ repeat split; cbn; try lia. constructor. }
  split; [exact Ha|]. split; [exact Hd|]. split.
  - rewrite <- Ha. destruct (by_author st) as [|[k n] d]; cbn [most_active].
    + reflexivity.
    + intro H0. exfalso.
      inversion Hp as [|? ? Hn Hrest]; subst. cbn [snd] in Hn.
      assert (Hnn : 0 <= count_sum d).
      { clear - Hrest. unfold count_sum.
        induction Hrest as [|[k' n'] d Hn' Hd IH]; cbn [fold_right snd] in *; lia. }
      unfold count_sum in *. cbn [fold_right snd] in H0. lia.
  - rewrite <- Ha. destruct (by_author st) as [|item d]; cbn [most_active].
    + intro H0. now contradiction H0.
    + intros _. destruct (max_item_spec d item) as [Hin Hmax].
      exists (snd (max_item item d)). split.
      * now rewrite <- surjective_pairing.
      * intros k m Hkm. exact (Hmax (k, m) Hkm).
Qed.

End Commits.

Section Contributors.

Variable github : str -> option dict -> result json.
Variable dict_slice_error : exn.

Local Abbreviation fetch_contributors' := (fetch_contributors github dict_slice_error).

Lemma return_inj (A : Type) (a b : A) : Return a = Return b -> a = b.
Proof. now intros [= ->]. Qed.

Lemma for_each_entries (shown : list json) :
  forall acc entries,
    for_each (fun acc contributor =>
                entry <- contributor_entry contributor ;; Return (acc ++ [entry]))
             acc shown = Return entries ->
    List.length entries = (List.length acc + List.length shown)%nat.
Proof.
  induction shown as [|c shown IH]; intros acc entries; cbn [for_each].
  - intros [= <-]. cbn. lia.
  - destruct (contributor_entry c) as [entry|e]; [|discriminate]. cbn [bind].
    intro H. apply IH in H. rewrite H, length_app. cbn. lia.
Qed.

(** X14.  Whenever [fetch_contributors] returns, it lists fifty
    contributors or all of them when they are fewer, while
    [total_contributors] counts all of them. *)
Theorem fetch_contributors_shows_fifty (owner repo_name : str)
  (found : GithubService.contributors_data) :
  fetch_contributors' owner repo_name = Return found ->
  exists entries,
    GithubService.contributors found = JArray entries /\
    Z.of_nat (List.length entries)
    = Z.min 50 (GithubService.total_contributors found) /\
    0 <= GithubService.total_contributors found.
Proof.
  unfold fetch_contributors.
  destruct (github _ None) as [contributors_list|e]; [|discriminate]. cbn [bind].
  destruct (first_fifty dict_slice_error contributors_list) as [shown|e] eqn:Hshown;
    [|discriminate].
  cbn [bind].
  destruct (for_each _ [] shown) as [entries|e] eqn:Hentries; [|discriminate].
  cbn [bind]. destruct (py_len contributors_list) as [n|e] eqn:Hn; [|discriminate].
  cbn [bind]. intros [= <-]. exists entries. cbn.
  split; [reflexivity|].
  apply for_each_entries in Hentries. cbn [List.length Nat.add] in Hentries.
  destruct contributors_list; try discriminate;
    cbn [first_fifty py_len] in Hshown, Hn;
    apply return_inj in Hshown; apply return_inj in Hn; subst shown n.
  - rewrite length_map, length_firstn in Hentries. lia.
  - rewrite length_firstn in Hentries. lia.
Qed.

End Contributors.

Section Counts.

Variable github : str -> option dict -> result json.
Variable subscript_error : json -> exn.

Local Abbreviation fetch_pull_requests' := (fetch_pull_requests github subscript_error).
Local Abbreviation fetch_issues' := (fetch_issues github subscript_error).

(** The counts of pull requests add up. *)
Lemma count_pr_invariant (st st' : pr_counts) (pr : json) :
  count_pr subscript_error st pr = Return st' ->
  total_prs st = open_prs st + closed_prs st ->
  0 <= merged_prs st <= closed_prs st -> 0 <= open_prs st ->
  total_prs st' = open_prs st' + closed_prs st' /\
  0 <= merged_prs st' <= closed_prs st' /\ 0 <= open_prs st' /\
  total_prs st' = total_prs st + 1.
Proof.
  unfold count_pr. destruct (subscript subscript_error pr _) as [state|e]; [|discriminate].
  cbn [bind]. destruct (is_string _ state).
  - intros [= <-]. cbn. lia.
  - destruct (Analytics.obj_get pr _ _) as [merged_at|e]; [|discriminate].
    cbn [bind]. intros [= <-]. cbn. destruct (truthy merged_at); lia.
Qed.

Lemma for_each_pr_invariant (items : list json) :
  forall st st',
    for_each (count_pr subscript_error) st items = Return st' ->
    total_prs st = open_prs st + closed_prs st ->
    0 <= merged_prs st <= closed_prs st -> 0 <= open_prs st ->
    total_prs st' = open_prs st' + closed_prs st' /\
    0 <= merged_prs st' <= closed_prs st' /\ 0 <= open_prs st' /\
    total_prs st' = total_prs st + Z.of_nat (List.length items).
Proof.
  induction items as [|pr items IH]; intros st st'; cbn [for_each].
  - intros [= <-]. cbn. lia.
  - destruct (count_pr subscript_error st pr) as [st1|e] eqn:E; [|discriminate].
    cbn [bind]. intros Hrun H1 H2 H3.
    destruct (@count_pr_invariant st st1 pr E H1 H2 H3) as (A & B & C & D).
    destruct (IH st1 st' Hrun A B C) as (A' & B' & C' & D').
    repeat split; try lia. rewrite D', D. cbn [List.length]. lia.
Qed.

(** X15.  Whatever GitHub answers, the counts of [fetch_pull_requests]
    add up: the total is the sum of the open and the closed ones, and
    the merged ones are among the closed ones. *)
Theorem fetch_pull_requests_add_up (owner repo_name since_date : str) :
  let counts := fetch_pull_requests' owner repo_name since_date in
  total_prs counts = open_prs counts + closed_prs counts /\
  0 <= merged_prs counts <= closed_prs counts /\
  0 <= open_prs counts.
Proof.
  cbn zeta. unfold fetch_pull_requests.
  destruct (github _ _) as [prs|e]; cbn [bind attempt]; [|cbn; lia].
  destruct (iterate prs) as [items|e]; cbn [bind attempt]; [|cbn; lia].
  destruct (for_each (count_pr subscript_error) no_prs items) as [st|e] eqn:E;
    cbn [attempt]; [|cbn; lia].
  apply for_each_pr_invariant in E; cbn; lia.
Qed.

Lemma for_each_pr_stateless (items : list json) :
  Exists (fun v => has_state v = false) items ->
  forall st, exists e, for_each (count_pr subscript_error) st items = Raise e.
Proof.
  induction 1 as [pr items Hpr|pr items Hitems IH]; intro st; cbn [for_each].
  - unfold count_pr.
    assert (Hs : exists e, subscript subscript_error pr (lit "state") = Raise e).
    { destruct pr; try (eexists; reflexivity).
      cbn [has_state subscript] in Hpr |- *. unfold dict_item, dict_mem in *.
      destruct (dict_get (lit "state") members); [discriminate|eexists; reflexivity]. }
    destruct Hs as (e & ->). exists e. reflexivity.
  - destruct (count_pr subscript_error st pr) as [st1|e]; cbn [bind].
    + apply IH.
    + exists e. reflexivity.
Qed.

Lemma for_each_pr_stateful (items : list json) :
  Forall (fun v => has_state v = true) items ->
  forall st, exists st', for_each (count_pr subscript_error) st items = Return st'.
Proof.
  induction 1 as [|pr items Hpr Hitems IH]; intro st; cbn [for_each].
  - eexists. reflexivity.
  - assert (H1 : exists st1, count_pr subscript_error st pr = Return st1).
    { unfold count_pr. destruct pr; try discriminate.
      cbn [has_state subscript] in Hpr |- *. unfold dict_item, dict_mem in *.
      destruct (dict_get (lit "state") members); [|discriminate]. cbn [bind].
      destruct (is_string _ j); eexists; reflexivity. }
    destruct H1 as (st1 & ->). cbn [bind]. apply IH.
Qed.

(** X16.  The counts of [fetch_pull_requests] are all or nothing: when
    every entry of the answer has a state, every entry is counted; one
    entry without a state makes all four counts zero. *)
Theorem fetch_pull_requests_all_or_nothing (owner repo_name since_date : str)
  (items : list json) :
  github (repo_endpoint owner repo_name (lit "/pulls"))
         (Some [ (lit "state", JString (lit "all")); (lit "per_page", JInt 100) ])
  = Return (JArray items) ->
  (Forall (fun v => has_state v = true) items ->
   total_prs (fetch_pull_requests' owner repo_name since_date)
   = Z.of_nat (List.length items)) /\
  (Exists (fun v => has_state v = false) items ->
   fetch_pull_requests' owner repo_name since_date = no_prs).
Proof.
  intro Hanswer. unfold fetch_pull_requests. rewrite Hanswer. cbn [bind iterate].
  split; intro H.
  - destruct (@for_each_pr_stateful items H no_prs) as (st & Hst). rewrite Hst. cbn [attempt].
    apply for_each_pr_invariant in Hst; cbn; try lia. cbn in Hst. lia.
  - destruct (@for_each_pr_stateless items H no_prs) as (e & ->). reflexivity.
Qed.

Lemma for_each_labels (labels : list json) :
  forallb countable_label labels = true ->
  forall d, exists d',
    for_each (count_label subscript_error) d labels = Return d' /\
    count_sum d' = count_sum d + Z.of_nat (List.length labels).
Proof.
  induction labels as [|label labels IH]; cbn [forallb for_each]; intros H d.
  - exists d. split; [reflexivity|cbn; lia].
  - apply andb_true_iff in H as [Hlabel Hlabels].
    assert (H1 : exists d1, count_label subscript_error d label = Return d1 /\
                            count_sum d1 = count_sum d + 1).
    { unfold count_label. destruct label; try discriminate.
      cbn [countable_label subscript] in Hlabel |- *. unfold dict_item.
      destruct (dict_get (lit "name") members) as [name|]; [|discriminate].
      cbn [bind]. unfold count_key. rewrite Hlabel.
      eexists. split; [reflexivity|]. apply count_sum_increment. }
    destruct H1 as (d1 & -> & Hd1). cbn [bind].
    destruct (IH Hlabels d1) as (d' & Hd' & Hsum).
    exists d'. split; [exact Hd'|]. rewrite Hsum, Hd1. cbn [List.length]. lia.
Qed.

Lemma count_len (f : json -> bool) (x : json) (items : list json) :
  Z.of_nat (List.length (filter f (x :: items)))
  = (if f x then 1 else 0) + Z.of_nat (List.length (filter f items)).
Proof. cbn [filter]. destruct (f x); cbn [List.length]; lia. Qed.

Lemma for_each_issues (items : list json) :
  forallb issue_entry items = true ->
  forall st, exists st',
    for_each (count_issue subscript_error) st items = Return st' /\
    total_issues st' = total_issues st + Z.of_nat (List.length (filter is_issue items)) /\
    open_issues st' = open_issues st + Z.of_nat (List.length (filter is_open_issue items)) /\
    open_issues st' + closed_issues st' - total_issues st'
      = open_issues st + closed_issues st - total_issues st /\
    count_sum (issues_by_label st')
    = count_sum (issues_by_label st)
      + Z.of_nat (List.length (flat_map issue_labels items)).
Proof.
  induction items as [|issue items IH]; cbn [forallb for_each]; intros H st.
  - exists st. cbn. repeat split; lia.
  - apply andb_true_iff in H as [Hissue Hitems].
    destruct issue as [| | | | | |d]; try discriminate.
    rewrite !count_len. cbn [flat_map]. rewrite length_app.
    cbn [issue_entry is_issue is_open_issue issue_labels] in Hissue |- *.
    unfold count_issue. cbn [contains bind].
    destruct (dict_mem (lit "pull_request") d) eqn:Hpr; cbn [negb andb].
    + destruct (IH Hitems st) as (st' & Hrun & Ht & Ho & Hc & Hl).
      exists st'. cbn [List.length]. repeat split; try assumption; lia.
    + cbn [orb] in Hissue.
      apply andb_true_iff in Hissue as [Hissue Hlabels].
      apply andb_true_iff in Hissue as [Hstate Hlist].
      cbn [subscript]. unfold dict_item, dict_mem in *. unfold dict_get_default at 1.
      destruct (dict_get (lit "state") d) as [state|]; [|discriminate].
      cbn [bind Analytics.obj_get].
      unfold labels_of in *.
      destruct (dict_get_default (lit "labels") (JArray []) d) as [| | | | |labels|];
        try discriminate.
      cbn [iterate bind].
      destruct (@for_each_labels labels Hlabels (issues_by_label st)) as (counted & -> & Hsum).
      cbn [bind].
      match goal with
      | |- context [for_each _ ?st1 items] =>
        destruct (IH Hitems st1) as (st' & Hrun & Ht & Ho & Hc & Hl)
      end.
      exists st'. split; [exact Hrun|].
      cbn [total_issues open_issues closed_issues issues_by_label] in Ht, Ho, Hc, Hl.
      destruct (is_string (lit "open") state); repeat split; lia.
Qed.

(** X17.  On a list of entries as GitHub sends them, [fetch_issues]
    leaves the pull requests out: it counts the issues, the open ones
    among them, the others as closed, and one per label of an issue. *)
Theorem fetch_issues_counts (owner repo_name since_date : str) (items : list json) :
  github (repo_endpoint owner repo_name (lit "/issues"))
         (Some [ (lit "state", JString (lit "all"));
                 (lit "since", JString since_date);
                 (lit "per_page", JInt 100) ])
  = Return (JArray items) ->
  forallb issue_entry items = true ->
  let counts := fetch_issues' owner repo_name since_date in
  total_issues counts = Z.of_nat (List.length (filter is_issue items)) /\
  open_issues counts = Z.of_nat (List.length (filter is_open_issue items)) /\
  closed_issues counts = total_issues counts - open_issues counts /\
  count_sum (issues_by_label counts)
  = Z.of_nat (List.length (flat_map issue_labels items)).
Proof.
  intros Hanswer Hitems. cbn zeta. unfold fetch_issues. rewrite Hanswer.
  cbn [bind iterate].
  destruct (@for_each_issues items Hitems no_issues) as (st & -> & Ht & Ho & Hc & Hl).
  cbn [attempt]. cbn in Ht, Ho, Hc, Hl. repeat split; lia.
Qed.

End Counts.

Section Languages.

Variable github : str -> option dict -> result json.
Variable float_sum : list json -> option json.

Local Abbreviation fetch_languages' := (fetch_languages github float_sum).

Lemma int_values_numbers (ns : list (str * Z)) :
  forallb is_number (map snd (int_values ns)) = true /\
  int_sum (map snd (int_values ns)) = Some (count_sum ns).
Proof.
  unfold count_sum, int_values. induction ns as [|[k n] ns [IH1 IH2]]; cbn; [auto|].
  cbn in IH1, IH2. rewrite IH1, IH2. auto.
Qed.

Lemma max_language_ints (ns : list (str * Z)) :
  forall best : str * Z,
  exists k n,
    max_language (fst best, JInt (snd best)) (int_values ns) = (k, JInt n) /\
    In (k, n) (best :: ns) /\
    forall k' n', In (k', n') (best :: ns) -> n' <= n.
Proof.
  induction ns as [|[k1 n1] ns IH]; intros [k0 n0]; cbn [int_values map max_language fst snd].
  - exists k0, n0. split; [reflexivity|]. split; [now left|].
    intros k' n' [[= <- <-]|[]]. lia.
  - unfold num_gt. cbn [num_compare as_int].
    destruct (n1 ?= n0) eqn:E.
    + destruct (IH (k0, n0)) as (k & n & Hmax & Hin & Hle).
      exists k, n. split; [exact Hmax|]. split.
      * destruct Hin as [H|H]; [now left|now right; right].
      * intros k' n' [H|[[= <- <-]|H]].
        -- apply (Hle k' n'). now left.
        -- apply Z.compare_eq in E. subst. apply (Hle k0 n0). now left.
        -- apply (Hle k' n'). now right.
    + destruct (IH (k0, n0)) as (k & n & Hmax & Hin & Hle).
      exists k, n. split; [exact Hmax|]. split.
      * destruct Hin as [H|H]; [now left|now right; right].
      * intros k' n' [H|[[= <- <-]|H]].
        -- apply (Hle k' n'). now left.
        -- rewrite Z.compare_lt_iff in E.
           specialize (Hle k0 n0 (or_introl eq_refl)). lia.
        -- apply (Hle k' n'). now right.
    + destruct (IH (k1, n1)) as (k & n & Hmax & Hin & Hle).
      exists k, n. split; [exact Hmax|]. split.
      * destruct Hin as [H|H]; [now right; left|now right; right].
      * intros k' n' [[= <- <-]|[[= <- <-]|H]].
        -- rewrite Z.compare_gt_iff in E.
           specialize (Hle k1 n1 (or_introl eq_refl)). lia.
        -- apply (Hle k1 n1). now left.
        -- apply (Hle k' n'). now right.
Qed.

(** X18.  On a dict of byte counts that is not empty,
    [fetch_languages] returns the dict, the sum of the counts as
    [total_bytes], and as [primary_language] a language with the largest
    count. *)
Theorem fetch_languages_totals (owner repo_name : str) (ns : list (str * Z)) :
  ns <> [] ->
  github (repo_endpoint owner repo_name (lit "/languages")) None
  = Return (JObject (int_values ns)) ->
  exists primary bytes,
    fetch_languages' owner repo_name =
    JObject [ (lit "languages", JObject (int_values ns));
              (lit "primary_language", JString primary);
              (lit "total_bytes", JInt (count_sum ns)) ] /\
    In (primary, bytes) ns /\
    forall language n, In (language, n) ns -> n <= bytes.
Proof.
  intros Hne Hanswer. unfold fetch_languages. rewrite Hanswer.
  destruct ns as [|[k0 n0] ns]; [congruence|].
  change (int_values ((k0, n0) :: ns)) with ((k0, JInt n0) :: int_values ns).
  unfold sum_values.
  change ((k0, JInt n0) :: int_values ns) with (int_values ((k0, n0) :: ns)).
  destruct (int_values_numbers ((k0, n0) :: ns)) as [-> ->].
  destruct (max_language_ints ns (k0, n0)) as (k & n & Hmax & Hin & Hle).
  cbn [fst snd] in Hmax.
  change (int_values ((k0, n0) :: ns)) with ((k0, JInt n0) :: int_values ns).
  cbv iota beta. rewrite Hmax. exists k, n. split; [reflexivity|]. split; assumption.
Qed.

End Languages.

Lemma readable_one_commit : readable_commit one_commit.
Proof. eexists. eexists. split; vm_compute; reflexivity. Qed.

Lemma fetch_commits_counts_served_witness :
  exists counts,
    fetch_commits sample_github (lit "octocat") (lit "repo") (lit "2024-01-01T00:00:00Z") =
    (Return counts,
     pages_requested (lit "octocat") (lit "repo") (lit "2024-01-01T00:00:00Z") 3) /\
    total_commits counts = 250.
Proof.
  destruct (@fetch_commits_counts_served sample_github
              (lit "octocat") (lit "repo") (lit "2024-01-01T00:00:00Z") many_commits)
    as (counts & Hrun & Htotal).
  - apply Forall_forall. intros c Hc. apply repeat_spec in Hc. subst c.
    exact readable_one_commit.
  - intros p Hp.
    assert (E : p = 1 \/ p = 2 \/ p = 3 \/ p = 4 \/ p = 5 \/ p = 6 \/ p = 7 \/ p = 8
                \/ p = 9 \/ p = 10) by lia.
    repeat (destruct E as [->|E]; [vm_compute; reflexivity|]). subst p.
    vm_compute. reflexivity.
  - exists counts. split; [exact Hrun|exact Htotal].
Defined.

Lemma fetch_commits_counts_consistent_witness :
  exists counts log,
    fetch_commits sample_github (lit "octocat") (lit "repo") (lit "2024-01-01T00:00:00Z")
    = (Return counts, log) /\
    count_sum (commits_by_author counts) = total_commits counts /\
    most_active_author counts = JString (lit "Mona").
Proof.
  eexists. eexists.
  assert (H : fetch_commits sample_github (lit "octocat") (lit "repo")
                (lit "2024-01-01T00:00:00Z") = (Return ?[c], ?[l]))
    by (vm_compute; reflexivity).
  split; [exact H|].
  split; [|vm_compute; reflexivity].
  exact (proj1 (@fetch_commits_counts_consistent sample_github _ _ _ _ _ H)).
Defined.

Lemma fetch_contributors_shows_fifty_witness :
  exists found entries,
    fetch_contributors sample_github sample_slice_error (lit "octocat") (lit "repo")
    = Return found /\
    GithubService.contributors found = JArray entries /\
    List.length entries = 50%nat /\
    GithubService.total_contributors found = 60.
Proof.
  eexists.
  assert (H : fetch_contributors sample_github sample_slice_error (lit "octocat")
                (lit "repo") = Return ?[f]) by (vm_compute; reflexivity).
  destruct (@fetch_contributors_shows_fifty sample_github sample_slice_error _ _ _ H)
    as (entries & He & Hlen & _).
  exists entries. split; [exact H|]. split; [exact He|].
  split; [|reflexivity]. cbn [GithubService.total_contributors] in Hlen. lia.
Defined.

Lemma fetch_issues_counts_witness :
  let counts := fetch_issues sample_github sample_subscript_error
                  (lit "octocat") (lit "repo") (lit "2024-01-01T00:00:00Z") in
  total_issues counts = 2 /\ open_issues counts = 1 /\ closed_issues counts = 1 /\
  count_sum (issues_by_label counts) = 3.
Proof.
  intro counts.
  destruct (@fetch_issues_counts sample_github sample_subscript_error
              (lit "octocat") (lit "repo") (lit "2024-01-01T00:00:00Z") some_issues)
    as (Ht & Ho & Hc & Hl).
  - vm_compute. reflexivity.
  - vm_compute. reflexivity.
  - fold counts in Ht, Ho, Hc, Hl. change (total_issues counts = 2) in Ht.
    change (open_issues counts = 1) in Ho.
    change (count_sum (issues_by_label counts) = 3) in Hl.
    repeat split; try assumption; lia.
Defined.

Lemma fetch_pull_requests_all_or_nothing_witness :
  total_prs (fetch_pull_requests sample_github sample_subscript_error
               (lit "octocat") (lit "repo") []) = 3 /\
  fetch_pull_requests sample_github sample_subscript_error
    (lit "octocat") (lit "broken") [] = no_prs.
Proof.
  split.
  - apply (proj1 (@fetch_pull_requests_all_or_nothing sample_github sample_subscript_error
                    (lit "octocat") (lit "repo") [] some_pulls
                    ltac:(vm_compute; reflexivity))).
    repeat constructor.
  - apply (proj2 (@fetch_pull_requests_all_or_nothing sample_github sample_subscript_error
                    (lit "octocat") (lit "broken") [] broken_pulls
                    ltac:(vm_compute; reflexivity))).
    right. left. reflexivity.
Defined.

Lemma fetch_languages_totals_witness :
  exists primary bytes,
    fetch_languages sample_github sample_float_sum (lit "octocat") (lit "repo") =
    JObject [ (lit "languages", JObject (int_values some_languages));
              (lit "primary_language", JString primary);
              (lit "total_bytes", JInt 1700) ] /\
    In (primary, bytes) some_languages /\
    forall language n, In (language, n) some_languages -> n <= bytes.
Proof.
  apply (@fetch_languages_totals sample_github sample_float_sum
           (lit "octocat") (lit "repo") some_languages).
  - discriminate.
  - vm_compute. reflexivity.
Defined.

(* ================================================================== *)
(** * The normaliser and text around the object *)
(* ================================================================== *)

Import Analytics.

Lemma strip_prefix_across (p x y r : str) (c : N) :
  Forall (fun a => a <> c) p ->
  strip_prefix p (x ++ c :: y) = Some r ->
  exists x', strip_prefix p x = Some x' /\ r = x' ++ c :: y.
Proof.
  intros Hp. revert x. induction Hp as [|a p Ha Hp IH]; intros x; cbn [strip_prefix].
  - intros [= <-]. eauto.
  - destruct x as [|b x]; cbn [app].
    + destruct (a =? c)%N eqn:E; [|discriminate].
      apply N.eqb_eq in E. contradiction.
    + destruct (a =? b)%N; [|discriminate]. apply IH.
Qed.

Lemma fence_json_chars (c : N) :
  outside_fences c = true -> Forall (fun a => a <> c) FENCE_JSON.
Proof.
  unfold outside_fences. intro H. apply negb_true_iff in H.
  repeat (apply orb_false_iff in H as [H ?]).
  repeat match goal with E : (_ =? _)%N = false |- _ => apply N.eqb_neq in E end.
  unfold FENCE_JSON. repeat constructor; congruence.
Qed.

Lemma fence_chars (c : N) :
  outside_fences c = true -> Forall (fun a => a <> c) FENCE.
Proof.
  intro H. pose proof (@fence_json_chars c H) as F.
  unfold FENCE_JSON in F. unfold FENCE.
  inversion F as [|? ? ? F1]; subst. inversion F1 as [|? ? ? F2]; subst.
  inversion F2; subst. repeat constructor; assumption.
Qed.

Lemma sub_fences_across_len (n : nat) :
  forall (x y : str) (c : N),
    (List.length x <= n)%nat -> outside_fences c = true ->
    sub_fences (x ++ c :: y) = sub_fences x ++ c :: sub_fences y.
Proof.
  induction n as [|n IH]; intros x y c Hlen Hc.
  - destruct x; [|cbn in Hlen; lia]. cbn [app].
    apply sub_fences_cons. unfold outside_fences in Hc.
    apply negb_true_iff in Hc. repeat (apply orb_false_iff in Hc as [Hc ?]). exact Hc.
  - destruct x as [|a x].
    { cbn [app]. apply sub_fences_cons. unfold outside_fences in Hc.
      apply negb_true_iff in Hc. repeat (apply orb_false_iff in Hc as [Hc ?]). exact Hc. }
    destruct (strip_prefix FENCE_JSON ((a :: x) ++ c :: y)) as [r|] eqn:EJ.
    + apply (@strip_prefix_across _ _ _ _ _ (@fence_json_chars c Hc)) in EJ as (x' & Hx & ->).
      pose proof (@strip_prefix_extend _ _ (c :: y) _ Hx) as Hext.
      rewrite (@sub_fences_at_fence_json _ _ Hext), (@sub_fences_at_fence_json _ _ Hx).
      apply IH; [|exact Hc].
      apply strip_prefix_app in Hx. rewrite Hx in Hlen.
      rewrite length_app in Hlen. unfold FENCE_JSON in Hlen. cbn in Hlen. lia.
    + pose proof (@strip_prefix_truncate _ _ _ EJ) as EJx.
      destruct (strip_prefix FENCE ((a :: x) ++ c :: y)) as [r|] eqn:EF.
      * apply (@strip_prefix_across _ _ _ _ _ (@fence_chars c Hc)) in EF as (x' & Hx & ->).
        pose proof (@strip_prefix_extend _ _ (c :: y) _ Hx) as Hext.
        rewrite (@sub_fences_at_fence _ _ EJ Hext), (@sub_fences_at_fence _ _ EJx Hx).
        apply IH; [|exact Hc].
        apply strip_prefix_app in Hx. rewrite Hx in Hlen.
        rewrite length_app in Hlen. unfold FENCE in Hlen. cbn in Hlen. lia.
      * pose proof (@strip_prefix_truncate _ _ _ EF) as EFx.
        cbn [app] in EJ, EF |- *.
        rewrite (@sub_fences_no_fence _ _ EJ EF), (@sub_fences_no_fence _ _ EJx EFx).
        cbn [app]. f_equal. apply IH; [cbn [List.length] in Hlen; lia|exact Hc].
Qed.

Lemma sub_fences_across (x y : str) (c : N) :
  outside_fences c = true ->
  sub_fences (x ++ c :: y) = sub_fences x ++ c :: sub_fences y.
Proof. intro H. now apply (@sub_fences_across_len (List.length x)). Qed.

Lemma sub_fences_without (s : str) : without 96 s -> sub_fences s = s.
Proof.
  intro H. rewrite <- (app_nil_r s) at 1. rewrite sub_fences_app.
  - now rewrite app_nil_r.
  - eapply Forall_impl; [|exact H]. intros a Ha. now apply N.eqb_neq.
Qed.

Lemma lstrip_suffix (u rest : str) (a : N) :
  is_space a = false ->
  exists u0 u', u = u0 ++ u' /\ lstrip (u ++ a :: rest) = u' ++ a :: rest.
Proof.
  intro Ha. induction u as [|c u (u0 & u' & Hu & IH)]; cbn [app lstrip].
  - exists [], []. rewrite Ha. split; reflexivity.
  - destruct (is_space c).
    + exists (c :: u0), u'. rewrite Hu at 1. split; [reflexivity|exact IH].
    + exists [], (c :: u). split; reflexivity.
Qed.

Lemma rstrip_prefix (front v : str) (b : N) :
  is_space b = false ->
  exists v' v0, v = v' ++ v0 /\ rstrip (front ++ b :: v) = front ++ b :: v'.
Proof.
  intro Hb. unfold rstrip.
  destruct (@lstrip_suffix (rev v) (rev front) b Hb) as (u0 & u' & Hu & Hl).
  exists (rev u'), (rev u0). split.
  - rewrite <- rev_app_distr, <- Hu. now rewrite rev_involutive.
  - rewrite rev_app_distr. cbn [rev]. rewrite <- app_assoc. cbn [app].
    rewrite Hl. rewrite rev_app_distr. cbn [rev].
    rewrite rev_involutive, <- app_assoc. reflexivity.
Qed.

Lemma without_app (c : N) (x y : str) : without c (x ++ y) <-> without c x /\ without c y.
Proof. apply Forall_app. Qed.

Lemma drop_until_found (c : N) (pre rest : str) :
  without c pre -> drop_until c (pre ++ c :: rest) = Some (c :: rest).
Proof.
  induction 1 as [|a pre Ha _ IH]; cbn [app drop_until].
  - now rewrite N.eqb_refl.
  - apply N.eqb_neq in Ha. now rewrite Ha.
Qed.

Lemma up_to_last_none (c : N) (post : str) : without c post -> up_to_last c post = None.
Proof.
  induction 1 as [|a post Ha _ IH]; cbn [up_to_last]; [reflexivity|].
  rewrite IH. apply N.eqb_neq in Ha. now rewrite Ha.
Qed.

Lemma up_to_last_found (c : N) (body post : str) :
  without c post -> up_to_last c (body ++ c :: post) = Some (body ++ [c]).
Proof.
  intro H. induction body as [|a body IH]; cbn [app up_to_last].
  - rewrite (up_to_last_none H). now rewrite N.eqb_refl.
  - now rewrite IH.
Qed.

Lemma search_braces_between (pre body post : str) :
  without LBRACE pre -> without RBRACE post ->
  search_braces (pre ++ (LBRACE :: body ++ [RBRACE]) ++ post)
  = Some (LBRACE :: body ++ [RBRACE]).
Proof.
  intros Hpre Hpost. unfold search_braces.
  cbn [app]. rewrite (drop_until_found _ Hpre).
  rewrite <- app_assoc. cbn [app]. now rewrite (up_to_last_found _ Hpost).
Qed.

Lemma ws_without (c : N) (w : str) : is_json_ws c = false -> all_ws w -> without c w.
Proof.
  intros Hc Hw. eapply Forall_impl; [|exact Hw]. intros a Ha ->. congruence.
Qed.

Lemma without_split (c : N) (s s0 s1 : str) : s = s0 ++ s1 -> without c s -> without c s0 /\ without c s1.
Proof. intros ->. apply without_app. Qed.

(** The span that the normaliser decodes in a text around a JSON object. *)
Lemma extract_object_around (interpreter : limits) (before after w1 body w2 : str) :
  all_ws w1 -> all_ws w2 ->
  without LBRACE before -> without 96 before ->
  without RBRACE after -> without 96 after ->
  extract_object interpreter
    (before ++ (w1 ++ (LBRACE :: body ++ [RBRACE]) ++ w2) ++ after)
  = extract_object interpreter (w1 ++ (LBRACE :: body ++ [RBRACE]) ++ w2).
Proof.
  intros H1 H2 Hb Hbq Ha Haq. unfold extract_object.
  assert (Hq1 : without 96 w1) by (apply ws_without; [reflexivity|exact H1]).
  assert (Hq2 : without 96 w2) by (apply ws_without; [reflexivity|exact H2]).
  set (core := sub_fences (LBRACE :: body)).
  assert (Hcore : core = LBRACE :: sub_fences body) by (now apply sub_fences_cons).
  (* the text without its fences *)
  assert (Eall : sub_fences (before ++ (w1 ++ (LBRACE :: body ++ [RBRACE]) ++ w2) ++ after)
                 = (before ++ w1) ++ (LBRACE :: sub_fences body ++ [RBRACE]) ++ (w2 ++ after)).
  { rewrite sub_fences_app
      by (eapply Forall_impl; [|exact Hbq]; intros a Hx; now apply N.eqb_neq).
    rewrite <- !app_assoc. rewrite sub_fences_app
      by (eapply Forall_impl; [|exact Hq1]; intros a Hx; now apply N.eqb_neq).
    replace ((LBRACE :: body ++ [RBRACE]) ++ w2 ++ after)
      with ((LBRACE :: body) ++ RBRACE :: w2 ++ after)
      by (cbn [app]; now rewrite <- app_assoc).
    rewrite sub_fences_across by reflexivity. fold core. rewrite Hcore.
    rewrite (@sub_fences_without (w2 ++ after)) by (apply without_app; tauto).
    cbn [app]. rewrite <- !app_assoc. reflexivity. }
  assert (Eone : sub_fences (w1 ++ (LBRACE :: body ++ [RBRACE]) ++ w2)
                 = w1 ++ (LBRACE :: sub_fences body ++ [RBRACE]) ++ w2).
  { rewrite sub_fences_app
      by (eapply Forall_impl; [|exact Hq1]; intros a Hx; now apply N.eqb_neq).
    replace ((LBRACE :: body ++ [RBRACE]) ++ w2)
      with ((LBRACE :: body) ++ RBRACE :: w2)
      by (cbn [app]; now rewrite <- app_assoc).
    rewrite sub_fences_across by reflexivity. fold core. rewrite Hcore.
    rewrite (sub_fences_without Hq2).
    cbn [app]. rewrite <- !app_assoc. reflexivity. }
  rewrite Eall, Eone.
  rewrite (@strip_core w1 w2 (sub_fences body) LBRACE RBRACE);
    try (now apply all_ws_space); try reflexivity.
  rewrite search_braces_span.
  (* the stripped text *)
  unfold strip.
  destruct (@lstrip_suffix (before ++ w1)
              (sub_fences body ++ [RBRACE] ++ w2 ++ after) LBRACE eq_refl)
    as (u0 & u' & Hu & Hl).
  replace ((before ++ w1) ++ (LBRACE :: sub_fences body ++ [RBRACE]) ++ w2 ++ after)
    with ((before ++ w1) ++ LBRACE :: sub_fences body ++ [RBRACE] ++ w2 ++ after)
    by (cbn [app]; now rewrite <- !app_assoc).
  rewrite Hl.
  replace (u' ++ LBRACE :: sub_fences body ++ [RBRACE] ++ w2 ++ after)
    with ((u' ++ LBRACE :: sub_fences body) ++ RBRACE :: (w2 ++ after))
    by (rewrite <- app_assoc; reflexivity).
  destruct (@rstrip_prefix (u' ++ LBRACE :: sub_fences body) (w2 ++ after) RBRACE eq_refl)
    as (v' & v0 & Hv & Hr).
  rewrite Hr.
  replace ((u' ++ LBRACE :: sub_fences body) ++ RBRACE :: v')
    with (u' ++ (LBRACE :: sub_fences body ++ [RBRACE]) ++ v')
    by (cbn [app]; rewrite <- !app_assoc; reflexivity).
  rewrite search_braces_between; [reflexivity| |].
  - assert (Hpre : without LBRACE (before ++ w1)).
    { apply without_app. split; [exact Hb|]. apply ws_without; [reflexivity|exact H1]. }
    exact (proj2 (@without_split _ _ _ _ Hu Hpre)).
  - assert (Hpost : without RBRACE (w2 ++ after)).
    { apply without_app. split; [|exact Ha]. apply ws_without; [reflexivity|exact H2]. }
    exact (proj1 (@without_split _ _ _ _ Hv Hpost)).
Qed.

(** X19.  Text around a JSON object that [json.loads] decodes, within
    the limits of the interpreter, does not change the result of
    [parse_ai_response], as long as the text before the object holds no
    opening brace, the text after it no closing brace, and neither a
    backquote. *)
Theorem parse_ai_response_ignores_prose (interpreter : limits)
  (before payload after : str) (data : dict) :
  json_loads interpreter payload = Return (JObject data) ->
  without LBRACE before -> without 96 before ->
  without RBRACE after -> without 96 after ->
  parse_ai_response interpreter (before ++ payload ++ after)
  = parse_ai_response interpreter payload.
Proof.
  intros Hload Hb Hbq Ha Haq.
  destruct (@extract_object_valid _ _ _ Hload) as (data' & Hfound).
  apply json_loads_object_span in Hload as (w1 & body & w2 & -> & H1 & H2 & _).
  rewrite !parse_ai_response_cases.
  rewrite extract_object_around by assumption.
  now rewrite Hfound.
Qed.

Lemma parse_ai_response_ignores_prose_witness :
  parse_ai_response sample_interpreter (prose_before ++ text_clean ++ prose_after)
  = parse_ai_response sample_interpreter text_clean.
Proof.
  eapply (@parse_ai_response_ignores_prose sample_interpreter
            prose_before text_clean prose_after).
  - vm_compute. reflexivity.
  - vm_compute. repeat constructor; discriminate.
  - vm_compute. repeat constructor; discriminate.
  - vm_compute. repeat constructor; discriminate.
  - vm_compute. repeat constructor; discriminate.
Defined.

(* ================================================================== *)
(** * The gateway: health and the second stage *)
(* ================================================================== *)

Section GatewayHealth.
Import Gateway.

Variable GITHUB_SERVICE_URL ANALYTICS_SERVICE_URL DATABASE_SERVICE_URL : str.
Variable requests_get : str -> option dict -> http_outcome.
Variable requests_post : str -> option json -> http_outcome.

Local Abbreviation get url :=
  {| call_method := GET; call_url := url; call_json := None |}.

(** X21.  [health_check] never raises and never stops early: whatever
    the three services answer, it probes all three in order (GitHub,
    analytics, database) and reports [healthy] exactly when all three
    calls return, [degraded] otherwise. *)
Theorem health_check_probes_all (timestamp : str) (log : list call) :
  let github := GITHUB_SERVICE_URL ++ lit "/health" in
  let analytics := ANALYTICS_SERVICE_URL ++ lit "/health" in
  let database := DATABASE_SERVICE_URL ++ lit "/health" in
  exists answer,
    health_check GITHUB_SERVICE_URL ANALYTICS_SERVICE_URL DATABASE_SERVICE_URL
      requests_get requests_post timestamp log
    = (Return answer, log ++ [ get github; get analytics; get database ]) /\
    dict_get (lit "status") answer
    = Some (JString (if service_answers requests_get github
                        && service_answers requests_get analytics
                        && service_answers requests_get database
                     then lit "healthy" else lit "degraded")).
Proof.
  cbn zeta. unfold health_check, io_bind, probe, call_service, service_answers.
  destruct (handle_outcome _ (requests_get (GITHUB_SERVICE_URL ++ _) None));
    destruct (handle_outcome _ (requests_get (ANALYTICS_SERVICE_URL ++ _) None));
    destruct (handle_outcome _ (requests_get (DATABASE_SERVICE_URL ++ _) None));
    (eexists; split; [rewrite <- !app_assoc; reflexivity|reflexivity]).
Qed.

End GatewayHealth.

Lemma gateway_fetch_success_proceeds_witness :
  exists status gh outcome rest,
    sample_post (lit "http://github/analyze")
      (Some (Gateway.github_body sample_gateway_request))
    = Gateway.Response status (Some (JObject gh)) /\
    Gateway.analyze_repository (lit "http://github") (lit "http://analytics")
      (lit "http://database") sample_get sample_post sample_gateway_request []
    = (outcome,
       [ {| Gateway.call_method := Gateway.POST;
            Gateway.call_url := lit "http://github/analyze";
            Gateway.call_json := Some (Gateway.github_body sample_gateway_request) |};
         {| Gateway.call_method := Gateway.POST;
            Gateway.call_url := lit "http://analytics/analyze";
            Gateway.call_json :=
              Some (Gateway.analytics_body sample_gateway_request (JObject gh)) |} ]
       ++ rest).
Proof.
  destruct (@gateway_fetch_success_proceeds (lit "http://github") (lit "http://analytics")
              (lit "http://database") sample_get sample_post sample_gateway_request)
    as (status & gh & Hgh & outcome & rest & Hrun).
  - vm_compute. reflexivity.
  - exists status, gh, outcome, rest. split; [exact Hgh|exact Hrun].
Defined.

Example health_check_degraded :
  exists answer log,
    Gateway.health_check (lit "http://github") (lit "http://analytics")
      (lit "http://database") health_get sample_post (lit "2024-01-01T00:00:00") []
    = (Return answer, log) /\
    dict_get (lit "status") answer = Some (JString (lit "degraded")) /\
    List.length log = 3%nat.
Proof. eexists. eexists. split; [vm_compute; reflexivity|]. split; reflexivity. Qed.

(* ================================================================== *)
(** * The clients *)
(* ================================================================== *)

Import TelegramBot.


Lemma part_positive : exists p, PART = S p.
Proof. exists 3999%nat. reflexivity. Qed.

Lemma parts_of_cover (fuel : nat) :
  forall res, (List.length res <= fuel)%nat ->
    List.concat (parts_of fuel res) = res /\
    Forall (fun m => m <> [] /\ (List.length m <= PART)%nat) (parts_of fuel res).
Proof.
  induction fuel as [|fuel IH]; intros res Hlen.
  - destruct res; [|cbn in Hlen; lia]. split; [reflexivity|constructor].
  - destruct res as [|c res]; [split; [reflexivity|constructor]|].
    cbn [parts_of List.concat].
    destruct part_positive as (p & Hp).
    destruct (IH (skipn PART (c :: res))) as [Hcat Hall].
    { rewrite length_skipn. cbn [List.length] in *. rewrite Hp. lia. }
    split.
    + rewrite Hcat. apply firstn_skipn.
    + constructor; [|exact Hall]. split.
      * rewrite Hp. cbn [firstn]. discriminate.
      * rewrite length_firstn. lia.
Qed.

(** X22.  The parts in which the bot sends the report put together are
    the report, in order; no part is longer than 4096 characters, and no
    part of a report that is not empty is empty. *)
Theorem reply_texts_cover (res : str) :
  List.concat (reply_texts res) = res /\
  Forall (fun m => Z.of_nat (List.length m) <= LIMIT) (reply_texts res) /\
  (res <> [] -> Forall (fun m => m <> []) (reply_texts res)).
Proof.
  unfold reply_texts.
  destruct (LIMIT <? Z.of_nat (List.length res)) eqn:E.
  - destruct (@parts_of_cover (List.length res) res (le_n _)) as [Hcat Hall].
    split; [exact Hcat|]. split.
    + eapply Forall_impl; [|exact Hall]. intros m [_ Hm].
      destruct part_positive as (p & Hp). unfold LIMIT.
      assert (PART <= 4000)%nat by (unfold PART; apply le_n). lia.
    + intros _. eapply Forall_impl; [|exact Hall]. intros m [Hm _]. exact Hm.
  - apply Z.ltb_ge in E. split; [cbn; apply app_nil_r|].
    split; [repeat constructor; exact E|]. intro H. repeat constructor. exact H.
Qed.

Section BotInput.

Variable unicode_alnum : N -> bool.

Local Abbreviation repo_char' := (repo_char unicode_alnum).
Local Abbreviation span' := (span_repo_chars unicode_alnum).

Lemma repo_char_not_slash (c : N) : repo_char' c = true -> c <> 47%N.
Proof. intros H ->. discriminate. Qed.

Lemma span_spec (s : str) :
  s = fst (span' s) ++ snd (span' s) /\
  Forall (fun c => repo_char' c = true) (fst (span' s)).
Proof.
  induction s as [|c s [IH1 IH2]]; cbn [span_repo_chars].
  - split; [reflexivity|constructor].
  - destruct (repo_char' c) eqn:E.
    + destruct (span' s) as [run rest]. cbn [fst snd] in *. split.
      * cbn [app]. now f_equal.
      * now constructor.
    + split; [reflexivity|constructor].
Qed.

Lemma split_slash_run (run rest : str) :
  Forall (fun c => c <> 47%N) run ->
  split_slash (run ++ 47%N :: rest) = run :: split_slash rest.
Proof.
  induction 1 as [|c run Hc _ IH]; cbn [app split_slash].
  - reflexivity.
  - apply N.eqb_neq in Hc. rewrite Hc, IH. reflexivity.
Qed.

Lemma split_slash_none (s : str) :
  Forall (fun c => c <> 47%N) s -> split_slash s = [s].
Proof.
  induction 1 as [|c s Hc _ IH]; cbn [split_slash]; [reflexivity|].
  apply N.eqb_neq in Hc. now rewrite Hc, IH.
Qed.

(** X23.  The unpacking in [receive_repo] never raises: an input is
    either refused by the pattern, or it splits at its only slash into
    an owner and a repository that are not empty and hold only
    characters of the class (the repository may end with a line
    feed). *)
Theorem repo_parts_accepts (repo_input : str) :
  (matches_repo unicode_alnum repo_input = false /\
   repo_parts unicode_alnum repo_input = Return None) \/
  (exists owner repo tail,
     repo_parts unicode_alnum repo_input = Return (Some (owner, repo ++ tail)) /\
     repo_input = owner ++ 47%N :: repo ++ tail /\
     owner <> [] /\ repo <> [] /\
     Forall (fun c => repo_char' c = true) owner /\
     Forall (fun c => repo_char' c = true) repo /\
     (tail = [] \/ tail = [10%N])).
Proof.
  unfold repo_parts.
  destruct (matches_repo unicode_alnum repo_input) eqn:Hm; [right|left; auto].
  unfold matches_repo in Hm.
  destruct (span_spec repo_input) as [Hs Hrun].
  destruct (span' repo_input) as [[|a owner] [|c rest]]; try discriminate.
  cbn [fst snd] in Hs, Hrun.
  apply andb_true_iff in Hm as [Hc Hm]. apply N.eqb_eq in Hc. subst c.
  destruct (span_spec rest) as [Hs2 Hrun2].
  destruct (span' rest) as [[|b repo] tail]; try discriminate.
  cbn [fst snd] in Hs2, Hrun2.
  assert (Htail : tail = [] \/ tail = [10%N]).
  { destruct tail as [|d [|? ?]]; try discriminate; [now left|].
    apply N.eqb_eq in Hm. subst d. now right. }
  exists (a :: owner), (b :: repo), tail.
  assert (Hno : forall l, Forall (fun c => repo_char' c = true) l ->
                          Forall (fun c => c <> 47%N) l).
  { intros l Hl. eapply Forall_impl; [|exact Hl]. apply repo_char_not_slash. }
  assert (Hsplit : split_slash repo_input = [a :: owner; (b :: repo) ++ tail]).
  { rewrite Hs, Hs2. rewrite split_slash_run by (apply Hno; exact Hrun).
    rewrite split_slash_none; [reflexivity|].
    apply Forall_app. split; [apply Hno; exact Hrun2|].
    destruct Htail as [->| ->]; repeat constructor. discriminate. }
  rewrite Hsplit. split; [reflexivity|].
  split; [rewrite Hs, Hs2; reflexivity|].
  repeat split; try discriminate; assumption.
Qed.

End BotInput.


Import Database WebClient.

Lemma chunks_concat (A : Type) (c : nat) (l : list A) (pages : nat) :
  flat_map (fun k => firstn c (skipn (c * k) l)) (seq 0 pages) = firstn (c * pages) l.
Proof.
  induction pages as [|pages IH].
  - rewrite Nat.mul_0_r. reflexivity.
  - rewrite seq_S, flat_map_app, IH. cbn [flat_map Nat.add]. rewrite app_nil_r.
    pose proof (@firstn_skipn_pages A (c * pages) c 0 l) as H.
    cbn [skipn Nat.add] in H. rewrite H. f_equal. lia.
Qed.

Lemma flat_map_same (A B : Type) (f g : A -> list B) (l : list A) :
  (forall a, In a l -> f a = g a) -> flat_map f l = flat_map g l.
Proof.
  induction l as [|a l IH]; intro H; cbn [flat_map]; [reflexivity|].
  rewrite (H a (or_introl eq_refl)), IH; [reflexivity|].
  intros b Hb. apply H. now right.
Qed.

Lemma flat_map_shift (B : Type) (f : nat -> list B) (start len : nat) :
  flat_map f (seq (S start) len) = flat_map (fun k => f (S k)) (seq start len).
Proof.
  revert start. induction len as [|len IH]; intro start; cbn [seq flat_map];
    [reflexivity|].
  now rewrite IH.
Qed.

Lemma flat_map_mapped (A B C : Type) (h : B -> C) (g : A -> list B) (l : list A) :
  flat_map (fun a => map h (g a)) l = map h (flat_map g l).
Proof.
  induction l as [|a l IH]; cbn [flat_map]; [reflexivity|].
  now rewrite IH, map_app.
Qed.

Section WebHistory.

Variable call_api : str -> result json.
Variable float_pages : float -> result json.

Local Abbreviation show := (history_page call_api float_pages).

(** X25.  When the gateway passes on the answers of the database
    service, the pages 1 to [total_pages] of the web client's history
    show every stored analysis exactly once, newest first: each page
    holds at most 20 rows and reports the same [total_pages], and the
    pages put together are the whole listing. *)
Theorem history_pages_cover (db : database) :
  let rows := Z.of_nat (List.length (repo_stats db)) in
  let pages := (rows + 19) / 20 in
  rows + 20 <= INT64_MAX ->
  (forall page, 1 <= page <= pages ->
     call_api (history_endpoint page) = history_answer db page) ->
  (forall page, 1 <= page <= pages ->
     exists shown,
       show page = HistoryPage (JArray shown) page (JInt pages) /\
       (List.length shown <= 20)%nat) /\
  flat_map (fun page => page_statistics (show (Z.of_nat page)))
           (seq 1 (Z.to_nat pages))
  = map history_entry (order_by_timestamp_desc (repo_stats db)).
Proof.
  cbn zeta. set (n := List.length (repo_stats db)).
  set (pages := (Z.of_nat n + 19) / 20). intros Hfits Hapi.
  set (listing := order_by_timestamp_desc (repo_stats db)).
  assert (Hpages : 0 <= pages) by (apply Z.div_pos; lia).
  assert (Hcover : Z.of_nat n <= 20 * pages).
  { unfold pages. pose proof (Z.div_mod (Z.of_nat n + 19) 20 ltac:(lia)) as Hd.
    pose proof (Z.mod_pos_bound (Z.of_nat n + 19) 20 ltac:(lia)). lia. }
  assert (Hupper : 20 * pages <= Z.of_nat n + 19).
  { unfold pages. pose proof (Z.div_mod (Z.of_nat n + 19) 20 ltac:(lia)) as Hd.
    pose proof (Z.mod_pos_bound (Z.of_nat n + 19) 20 ltac:(lia)). lia. }
  assert (Hshow : forall k, (k < Z.to_nat pages)%nat ->
            show (Z.of_nat (S k))
            = HistoryPage
                (JArray (map history_entry (firstn 20 (skipn (20 * k) listing))))
                (Z.of_nat (S k)) (JInt pages)).
  { intros k Hk. unfold history_page.
    rewrite Hapi by lia. unfold history_answer, get_history.
    replace (fits_int64 20) with true by reflexivity.
    replace (fits_int64 ((Z.of_nat (S k) - 1) * 20)) with true.
    2:{ symmetry. unfold fits_int64, INT64_MIN, INT64_MAX in *.
        apply andb_true_iff. split; apply Z.leb_le; lia. }
    cbn [andb negb bind Analytics.obj_get].
    unfold sql_limit, sql_offset.
    replace (20 <? 0) with false by reflexivity.
    replace ((Z.of_nat (S k) - 1) * 20 <? 0) with false
      by (symmetry; apply Z.ltb_ge; lia).
    replace ((Z.of_nat (S k) - 1) * 20) with (Z.of_nat (20 * k)) by lia.
    rewrite Nat2Z.id.
    change (Z.to_nat 20) with 20%nat.
    replace (dict_get_default (lit "history") (JArray []) _)
      with (JArray (map history_entry (firstn 20 (skipn (20 * k) listing))))
      by reflexivity.
    replace (dict_get_default (lit "total") (JInt 0) _) with (JInt (Z.of_nat n))
      by reflexivity.
    cbn [bind total_pages_of]. reflexivity. }
  split.
  - intros page Hpage. exists (map history_entry
                      (firstn 20 (skipn (20 * Z.to_nat (page - 1)) listing))).
    assert (Hp : page = Z.of_nat (S (Z.to_nat (page - 1)))) by lia.
    rewrite Hp at 1. rewrite Hshow by lia. rewrite <- Hp. split.
    + reflexivity.
    + rewrite length_map, length_firstn. lia.
  - rewrite flat_map_shift.
    rewrite (@flat_map_same _ _ _ (fun k => map history_entry
                                     (firstn 20 (skipn (20 * k) listing)))).
    2:{ intros k Hk. apply in_seq in Hk. rewrite Hshow by lia. reflexivity. }
    rewrite flat_map_mapped, chunks_concat. f_equal. apply firstn_all2.
    unfold listing. rewrite <- (Permutation_length (order_by_perm (repo_stats db))).
    fold n. lia.
Qed.

End WebHistory.

Lemma history_pages_cover_witness :
  flat_map (fun page => page_statistics
                          (history_page sample_call_api sample_float_pages (Z.of_nat page)))
           (seq 1 3)
  = map history_entry (order_by_timestamp_desc (repo_stats many_rows)).
Proof.
  apply (proj2 (@history_pages_cover sample_call_api sample_float_pages many_rows
                  ltac:(vm_compute; discriminate)
                  ltac:(intros page Hpage;
                        change ((Z.of_nat (List.length (repo_stats many_rows)) + 19) / 20)
                          with 3 in Hpage;
                        assert (E : page = 1 \/ page = 2 \/ page = 3) by lia;
                        destruct E as [->|[->| ->]]; vm_compute; reflexivity))).
Defined.

Example repo_parts_samples :
  repo_parts sample_alnum (lit "python/cpython")
    = Return (Some (lit "python", lit "cpython")) /\
  repo_parts sample_alnum (lit "a/b/c") = Return None /\
  repo_parts sample_alnum (lit "octocat") = Return None /\
  repo_parts sample_alnum (lit "../..") = Return (Some (lit "..", lit "..")).
Proof. repeat split; vm_compute; reflexivity. Qed.

Example reply_texts_long :
  map (@List.length N) (reply_texts (repeat 120%N 4500)) = [4000; 500]%nat /\
  map (@List.length N) (reply_texts (repeat 120%N 4096)) = [4096]%nat.
Proof. split; vm_compute; reflexivity. Qed.

(* ================================================================== *)
(** * The gateway: failures of the later stages *)
(* ================================================================== *)

Section GatewayStages.
Import Gateway.

Variable GITHUB_SERVICE_URL ANALYTICS_SERVICE_URL DATABASE_SERVICE_URL : str.
Variable requests_get : str -> option dict -> http_outcome.
Variable requests_post : str -> option json -> http_outcome.

Local Abbreviation github_url := (GITHUB_ANALYZE_URL GITHUB_SERVICE_URL).
Local Abbreviation analytics_url := (ANALYTICS_ANALYZE_URL ANALYTICS_SERVICE_URL).
Local Abbreviation database_url := (DATABASE_SAVE_URL DATABASE_SERVICE_URL).
Local Abbreviation gateway_analyze :=
  (analyze_repository GITHUB_SERVICE_URL ANALYTICS_SERVICE_URL DATABASE_SERVICE_URL
     requests_get requests_post).
Local Abbreviation post url body :=
  {| call_method := POST; call_url := url; call_json := Some body |}.

Lemma call_status_raises (url : str) (o : http_outcome) (code : Z) :
  call_status o = Some code ->
  exists detail, handle_outcome url o = Raise (HTTPException code detail).
Proof.
  unfold call_status, handle_outcome. destruct o as [|msg|status body].
  - intros [= <-]. eauto.
  - intros [= <-]. eauto.
  - destruct (status =? 404); [intros [= <-]; eauto|].
    destruct ((400 <=? status) && (status <? 600)); [intros [= <-]; eauto|].
    destruct body; [discriminate|]. intros [= <-]. eauto.
Qed.

Lemma call_status_returns (url : str) (o : http_outcome) :
  call_status o = None ->
  exists v, handle_outcome url o = Return v /\
            exists status, o = Response status (Some v).
Proof.
  unfold call_status, handle_outcome. destruct o as [|msg|status body]; try discriminate.
  destruct (status =? 404); [discriminate|].
  destruct ((400 <=? status) && (status <? 600)); [discriminate|].
  destruct body as [v|]; [|discriminate]. intros _. exists v. eauto.
Qed.

Lemma fetch_status_returns (url : str) (o : http_outcome) (gh : dict) (status : Z) :
  o = Response status (Some (JObject gh)) ->
  fetch_status o = None ->
  handle_outcome url o = Return (JObject gh) /\
  truthy (dict_get_default (lit "success") JNull gh) = true.
Proof.
  intros ->. unfold fetch_status, handle_outcome.
  destruct (status =? 404); [discriminate|].
  destruct ((400 <=? status) && (status <? 600)); [discriminate|].
  destruct (truthy _); [auto|discriminate].
Qed.

(** X26.  When the GitHub service has answered and the request to the
    analytics service fails (timeout, transport failure, error status or
    a body that is not JSON), [analyze_repository] raises the
    [HTTPException] of that failure after exactly two requests: nothing
    is sent to the database service. *)
Theorem gateway_analytics_failure_aborts (request : AnalysisRequest) (log : list call)
  (status code : Z) (gh : dict) :
  requests_post github_url (Some (github_body request))
    = Response status (Some (JObject gh)) ->
  fetch_status (requests_post github_url (Some (github_body request))) = None ->
  call_status (requests_post analytics_url
                 (Some (analytics_body request (JObject gh)))) = Some code ->
  exists detail,
    gateway_analyze request log =
    (Raise (HTTPException code detail),
     log ++ [ post github_url (github_body request);
              post analytics_url (analytics_body request (JObject gh)) ]).
Proof.
  intros Hgh Hfetch Hai.
  destruct (@fetch_status_returns github_url _ _ _ Hgh Hfetch) as [Hg Hs].
  destruct (@call_status_raises analytics_url _ _ Hai) as (detail & Ha).
  exists detail. unfold analyze_repository, analyze_try.
  rewrite io_bind_post, Hg, obj_get_dict, io_bind_return, Hs. cbn [negb].
  rewrite io_bind_post, Ha. rewrite <- app_assoc. reflexivity.
Qed.

(** X27.  When the GitHub service and the analytics service have
    answered and the request to the database service fails,
    [analyze_repository] raises the [HTTPException] of that failure
    after the three requests: the analysis is not returned. *)
Theorem gateway_save_failure_aborts (request : AnalysisRequest) (log : list call)
  (status status' code : Z) (gh : dict) (ai : json) :
  requests_post github_url (Some (github_body request))
    = Response status (Some (JObject gh)) ->
  fetch_status (requests_post github_url (Some (github_body request))) = None ->
  is_dict (dict_get_default (lit "commit_stats") (JObject []) gh) = true ->
  requests_post analytics_url (Some (analytics_body request (JObject gh)))
    = Response status' (Some ai) ->
  call_status (Response status' (Some ai)) = None ->
  is_dict ai = true ->
  (forall body, call_status (requests_post database_url (Some body)) = Some code) ->
  exists detail record,
    gateway_analyze request log =
    (Raise (HTTPException code detail),
     log ++ [ post github_url (github_body request);
              post analytics_url (analytics_body request (JObject gh));
              post database_url (JObject record) ]).
Proof.
  intros Hgh Hfetch Hstats Hanswer Hok Hdict Hdb.
  destruct (@fetch_status_returns github_url _ _ _ Hgh Hfetch) as [Hg Hs].
  assert (Hai : handle_outcome analytics_url
                  (requests_post analytics_url
                     (Some (analytics_body request (JObject gh)))) = Return ai).
  { rewrite Hanswer.
    destruct (@call_status_returns analytics_url _ Hok) as (v & Hv & s2 & [= _ <-]).
    exact Hv. }
  destruct ai as [| | | | | |answer]; try discriminate.
  destruct (dict_get_default (lit "commit_stats") (JObject []) gh)
    as [| | | | | |stats] eqn:Hcs; try discriminate.
  unfold analyze_repository, analyze_try.
  rewrite io_bind_post, Hg, obj_get_dict, io_bind_return, Hs. cbn [negb].
  rewrite io_bind_post, Hai.
  rewrite obj_get_dict, io_bind_return, Hcs.
  repeat (rewrite obj_get_dict, io_bind_return).
  rewrite io_bind_post.
  match goal with
  | |- context [handle_outcome database_url (requests_post database_url (Some ?b))] =>
    destruct (@call_status_raises database_url _ _ (Hdb b)) as (detail & ->)
  end.
  eexists. eexists. rewrite <- !app_assoc. reflexivity.
Qed.

End GatewayStages.

Lemma gateway_analytics_failure_aborts_witness :
  exists detail,
    Gateway.analyze_repository (lit "http://github") (lit "http://analytics")
      (lit "http://database") sample_get analytics_down_post sample_gateway_request []
    = (Raise (HTTPException 504 detail),
       [ {| Gateway.call_method := Gateway.POST;
            Gateway.call_url := lit "http://github/analyze";
            Gateway.call_json := Some (Gateway.github_body sample_gateway_request) |};
         {| Gateway.call_method := Gateway.POST;
            Gateway.call_url := lit "http://analytics/analyze";
            Gateway.call_json :=
              Some (Gateway.analytics_body sample_gateway_request (JObject sample_gh)) |} ]).
Proof.
  apply (@gateway_analytics_failure_aborts (lit "http://github") (lit "http://analytics")
           (lit "http://database") sample_get analytics_down_post sample_gateway_request
           [] 200 504 sample_gh).
  - vm_compute. reflexivity.
  - vm_compute. reflexivity.
  - vm_compute. reflexivity.
Defined.

Lemma gateway_save_failure_aborts_witness :
  exists detail record,
    Gateway.analyze_repository (lit "http://github") (lit "http://analytics")
      (lit "http://database") sample_get database_down_post sample_gateway_request []
    = (Raise (HTTPException 502 detail),
       [ {| Gateway.call_method := Gateway.POST;
            Gateway.call_url := lit "http://github/analyze";
            Gateway.call_json := Some (Gateway.github_body sample_gateway_request) |};
         {| Gateway.call_method := Gateway.POST;
            Gateway.call_url := lit "http://analytics/analyze";
            Gateway.call_json :=
              Some (Gateway.analytics_body sample_gateway_request (JObject sample_gh)) |};
         {| Gateway.call_method := Gateway.POST;
            Gateway.call_url := lit "http://database/stats/save";
            Gateway.call_json := Some (JObject record) |} ]).
Proof.
  eapply (@gateway_save_failure_aborts (lit "http://github") (lit "http://analytics")
            (lit "http://database") sample_get database_down_post sample_gateway_request
            [] 200 200 502 sample_gh).
  - vm_compute. reflexivity.
  - vm_compute. reflexivity.
  - vm_compute. reflexivity.
  - vm_compute. reflexivity.
  - vm_compute. reflexivity.
  - reflexivity.
  - intro body. vm_compute. reflexivity.
Defined.
